(** * yoink: a document mirror with archiving, and its index generator

    A shallow embedding of [yoink.py] and [generate_index.py].

    Text.  A Python [str] is embedded as the list of the bytes of its UTF-8
    encoding ([list ascii]), a surrogate as the three bytes that the same
    scheme gives it.  Concatenation, slicing, comparison, [in],
    [startswith], [endswith], the [os.path] functions and the regular
    expression of [get_pdf_title] only look at ASCII characters, so they
    behave on this encoding exactly as on the code points.  [strip] takes
    off the white space of Unicode.  [lower] is embedded on the ASCII
    letters, which is all that the test for [.html] needs; [casefold] is
    the function of the library, known on ASCII strings only.

    Effects.  The functions of the program are written once, as trees of
    atomic operations (HTTP requests, file operations, the clock, standard
    output).  The trees are run sequentially by [run], and interleaved by
    the worker pool of [main] in [pool_step].

    File system.  A finite map from path strings to file contents; the
    paths are compared as strings.  Directories made by [os.makedirs] are
    recorded in a set.  A file is opened or moved where its directory is
    there: the properties that need this are stated for the folders that
    [main] prepares and for items without a separator, whose files are
    entries of these folders.

    Requests.  A request gets a response, an error of the connection, or
    nothing: then the call never ends, as no timeout is given.

    Configuration.  [validate_config] and [main] work on the value that
    [yaml.safe_load] gives, embedded as a tree of dictionaries, lists and
    scalars. *)

From Stdlib Require Import Strings.Ascii Strings.String Strings.Byte ZArith Lia.
From Stdlib Require Numbers.DecimalString Floats.SpecFloat.
From stdpp Require Import base decidable option list relations sorting gmap strings.

Abbreviation str := (list ascii).
Abbreviation bytes := (list byte).

(** The text of a literal. *)
Definition text (s : string) : str := list_ascii_of_string s.
Arguments text : simpl never.

(** ** Python's [str] methods *)
Module PyStr.

(** [sub in s]. *)
Fixpoint contains (sub s : str) : bool :=
  bool_decide (sub `prefix_of` s)
  || match s with
     | [] => false
     | _ :: s' => contains sub s'
     end.

Definition startswith (s p : str) : bool := bool_decide (p `prefix_of` s).
Definition endswith (s p : str) : bool := bool_decide (p `suffix_of` s).

(** The white space of [str.isspace], each code point by the bytes of its
    UTF-8 encoding: U+0009 to U+000D, U+001C to U+0020, U+0085, U+00A0,
    U+1680, U+2000 to U+200A, U+2028, U+2029, U+202F, U+205F and U+3000. *)
Definition whitespace : list str :=
  map (map ascii_of_nat)
    [[9]; [10]; [11]; [12]; [13]; [28]; [29]; [30]; [31]; [32];
     [194; 133]; [194; 160]; [225; 154; 128];
     [226; 128; 128]; [226; 128; 129]; [226; 128; 130]; [226; 128; 131];
     [226; 128; 132]; [226; 128; 133]; [226; 128; 134]; [226; 128; 135];
     [226; 128; 136]; [226; 128; 137]; [226; 128; 138];
     [226; 128; 168]; [226; 128; 169]; [226; 128; 175]; [226; 129; 159];
     [227; 128; 128]].

(** [s] without the first of [spaces] that it starts with, if there is
    one. *)
Definition drop_space (spaces : list str) (s : str) : option str :=
  match List.find (λ ws, bool_decide (ws `prefix_of` s)) spaces with
  | Some ws => Some (drop (length ws) s)
  | None => None
  end.

Fixpoint lstrip_with (spaces : list str) (fuel : nat) (s : str) : str :=
  match fuel with
  | 0 => s
  | S fuel' =>
      match drop_space spaces s with
      | Some s' => lstrip_with spaces fuel' s'
      | None => s
      end
  end.

(** [s.lstrip()], [s.rstrip()] and [s.strip()]: the white space is taken
    off one character at a time, at most as often as [s] has bytes. *)
Definition lstrip (s : str) : str := lstrip_with whitespace (length s) s.

Definition rstrip (s : str) : str :=
  reverse (lstrip_with (map reverse whitespace) (length s) (reverse s)).

Definition strip (s : str) : str := rstrip (lstrip s).

Definition is_upper (c : ascii) : bool :=
  (65 <=? nat_of_ascii c) && (nat_of_ascii c <=? 90).

Definition lower_char (c : ascii) : ascii :=
  if is_upper c then ascii_of_nat (nat_of_ascii c + 32) else c.

(** [s.lower()], on the ASCII letters. *)
Definition lower (s : str) : str := map lower_char s.

(** [s.casefold()]: the function of the library, of which only what it
    does to ASCII strings is written down. *)
Class Casefold := {
  casefold : str → str;
  casefold_ascii s :
    Forall (λ c, nat_of_ascii c < 128) s → casefold s = map lower_char s
}.

(** A string that [s.encode('utf-8')] refuses: one with a surrogate in it,
    which in the bytes is 237 followed by 160 or more. *)
Fixpoint has_surrogate (s : str) : bool :=
  match s with
  | c :: s' =>
      (bool_decide (nat_of_ascii c = 237)
       && match s' with
          | c' :: _ => 160 <=? nat_of_ascii c'
          | [] => false
          end)
      || has_surrogate s'
  | [] => false
  end.

(** The order of [str]: by code points, a proper prefix first. *)
Fixpoint leb (a b : str) : bool :=
  match a, b with
  | [], _ => true
  | _ :: _, [] => false
  | x :: a', y :: b' =>
      if (nat_of_ascii x <? nat_of_ascii y) then true
      else if (nat_of_ascii y <? nat_of_ascii x) then false
      else leb a' b'
  end.

(** [sep.join(parts)]. *)
Fixpoint join (sep : str) (parts : list str) : str :=
  match parts with
  | [] => []
  | [p] => p
  | p :: ps => p ++ sep ++ join sep ps
  end.

(** [s.split(sep)] for a separator of one character. *)
Fixpoint split (sep : ascii) (s : str) : list str :=
  match s with
  | [] => [[]]
  | c :: s' =>
      if bool_decide (c = sep) then [] :: split sep s'
      else match split sep s' with
           | p :: ps => (c :: p) :: ps
           | [] => [[c]]
           end
  end.

(** Two decimal digits, as [%m], [%d], [%H], [%M] and [%S] print them. *)
Definition digit (n : nat) : ascii := ascii_of_nat (48 + n mod 10).
Definition pad2 (n : nat) : str := [digit (n / 10); digit n].
Definition pad4 (n : nat) : str :=
  [digit (n / 1000); digit (n / 100); digit (n / 10); digit n].

Definition hex_digit (n : nat) : ascii :=
  if n <? 10 then ascii_of_nat (48 + n) else ascii_of_nat (55 + n).

End PyStr.

(** ** [urllib.parse.quote_plus] *)
Module UrlLib.

Definition always_safe (c : ascii) : bool :=
  let n := nat_of_ascii c in
  ((65 <=? n) && (n <=? 90)) || ((97 <=? n) && (n <=? 122))
  || ((48 <=? n) && (n <=? 57))
  || bool_decide (c ∈ text "_.-~").

Definition quote_char (c : ascii) : str :=
  if always_safe c then [c]
  else if bool_decide (c = " "%char) then text "+"
  else let n := nat_of_ascii c in
       "%"%char :: [PyStr.hex_digit (n / 16); PyStr.hex_digit (n mod 16)].

Definition quote_plus (s : str) : str := concat (map quote_char s).

End UrlLib.

(** ** [os.path], the POSIX flavour *)
Module OsPath.

Definition sep : ascii := "/"%char.

(** [os.path.join(a, b)]. *)
Definition join (a b : str) : str :=
  if PyStr.startswith b [sep] then b
  else if bool_decide (a = []) || PyStr.endswith a [sep] then a ++ b
  else a ++ sep :: b.

(** [p[:i], p[i:]] for [i = p.rfind(c) + 1]: the part up to and with the
    last [c], and the part after it. *)
Fixpoint rpartition (c : ascii) (p : str) : str * str :=
  match p with
  | [] => ([], [])
  | x :: p' =>
      match rpartition c p' with
      | ([], t) => if bool_decide (x = c) then ([x], t) else ([], x :: t)
      | (h, t) => (x :: h, t)
      end
  end.

Definition basename (p : str) : str := (rpartition sep p).2.

Fixpoint lstrip_sep (s : str) : str :=
  match s with
  | c :: s' => if bool_decide (c = sep) then lstrip_sep s' else s
  | [] => []
  end.

(** [s.rstrip('/')]. *)
Definition rstrip_sep (s : str) : str := reverse (lstrip_sep (reverse s)).

Definition dirname (p : str) : str :=
  let head := (rpartition sep p).1 in
  if negb (bool_decide (head = []))
     && negb (forallb (λ c, bool_decide (c = sep)) head)
  then rstrip_sep head else head.

(** [os.path.splitext(p)]: the extension starts at the last dot of the
    last component, unless only dots stand before it there. *)
Definition splitext (p : str) : str * str :=
  let '(dir, name) := rpartition sep p in
  match rpartition "."%char name with
  | ([], _) => (p, [])
  | (stem_dot, ext) =>
      let stem := take (length stem_dot - 1) stem_dot in
      if forallb (λ c, bool_decide (c = "."%char)) stem then (p, [])
      else (dir ++ stem, "."%char :: ext)
  end.

(** [os.path.normpath(path)]. *)
Definition normpath_comps (initial_slashes : nat) (comps : list str)
  : list str :=
  reverse (fold_left (λ new_comps comp,
    if bool_decide (comp = []) || bool_decide (comp = text ".") then new_comps
    else if negb (bool_decide (comp = text ".."))
            || ((initial_slashes =? 0) && bool_decide (new_comps = []))
            || match new_comps with
               | last :: _ => bool_decide (last = text "..")
               | [] => false
               end
         then comp :: new_comps
         else tail new_comps) comps []).

Definition normpath (path : str) : str :=
  if bool_decide (path = []) then text "."
  else
    let initial_slashes :=
      if PyStr.startswith path (text "/") then
        if PyStr.startswith path (text "//")
           && negb (PyStr.startswith path (text "///"))
        then 2 else 1
      else 0 in
    let comps := normpath_comps initial_slashes (PyStr.split sep path) in
    let path' := replicate initial_slashes sep ++ PyStr.join [sep] comps in
    if bool_decide (path' = []) then text "." else path'.

(** [os.path.abspath(path)], in the working directory [cwd]. *)
Definition abspath (cwd path : str) : str := normpath (join cwd path).

End OsPath.

(** ** Programs: trees of atomic operations *)

Inductive exn :=
| RequestException
| FileNotFoundError (path : str)
| FileExistsError (path : str)
| UnicodeEncodeError
| PdfReadError
| AttributeError
| TypeError.

(** How a call ends: it returns a value, it raises, or it never ends. *)
Inductive outcome (A : Type) :=
| Returned (a : A)
| Raised (e : exn)
| Hangs.
Arguments Returned {A} a.
Arguments Raised {A} e.
Arguments Hangs {A}.

(** [Hang] is the program that waits for ever. *)
Inductive prog (op : Type → Type) (A : Type) : Type :=
| Ret (a : A)
| Throw (e : exn)
| Hang
| Vis {X : Type} (o : op X) (k : X → prog op A).
Arguments Ret {op A} a.
Arguments Throw {op A} e.
Arguments Hang {op A}.
Arguments Vis {op A X} o k.

Fixpoint bind {op A B} (p : prog op A) (f : A → prog op B) : prog op B :=
  match p with
  | Ret a => f a
  | Throw e => Throw e
  | Hang => Hang
  | Vis o k => Vis o (λ x, bind (k x) f)
  end.

(** [try: p  except Exception: h]. *)
Fixpoint try_except {op A} (p : prog op A) (h : exn → prog op A)
  : prog op A :=
  match p with
  | Ret a => Ret a
  | Throw e => h e
  | Hang => Hang
  | Vis o k => Vis o (λ x, try_except (k x) h)
  end.

#[export] Instance prog_ret {op} : MRet (prog op) := λ A a, Ret a.
#[export] Instance prog_bind {op} : MBind (prog op) := λ A B f p, bind p f.

(** A program run on its own: [step] does one operation on the state. *)
Fixpoint exec {op : Type → Type} {S A : Type}
    (step : ∀ X, op X → S → X * S) (p : prog op A) (s : S)
  : outcome A * S :=
  match p with
  | Ret a => (Returned a, s)
  | Throw e => (Raised e, s)
  | Hang => (Hangs, s)
  | Vis o k => exec step (k (step _ o s).1) (step _ o s).2
  end.

(** One operation that always returns. *)
Definition perform {op X} (o : op X) : prog op X := Vis o Ret.

(** One operation that may raise, or never end. *)
Definition attempt {op X} (o : op (outcome X)) : prog op X :=
  Vis o (λ r, match r with
              | Returned x => Ret x
              | Raised e => Throw e
              | Hangs => Hang
              end).

(** ** The world of [yoink.py] *)

(** An HTTP response, after redirects: [iter_content] are the chunks of the
    body that arrive, and [broken] says that the connection then fails
    instead of ending the body. *)
Record response := {
  status_code : Z;
  url : str;
  iter_content : list bytes;
  broken : bool
}.

(** What a request gets: an error of the connection, a response, or
    nothing at all, for ever. *)
Inductive reply :=
| NoReply
| Reply (resp : response)
| Stalled.

Record datetime := {
  year : nat; month : nat; day : nat;
  hour : nat; minute : nat; second : nat
}.

(** [strftime('%Y%m%d_%H%M%S')]. *)
Definition strftime (t : datetime) : str :=
  PyStr.pad4 (year t) ++ PyStr.pad2 (month t) ++ PyStr.pad2 (day t)
  ++ text "_"
  ++ PyStr.pad2 (hour t) ++ PyStr.pad2 (minute t) ++ PyStr.pad2 (second t).

(** The value under [/Title]: a string or another object. *)
Inductive pyobj :=
| PyString (s : str)
| PyOther (truthy : bool).

(** What [PdfReader] makes of a file: it raises, or gives a reader whose
    [metadata] is [None] or a dictionary with or without [/Title]. *)
Inductive pdf :=
| Unreadable
| Pdf (metadata : option (option pyobj)).

(** [hashlib.sha256]. *)
Class Hashlib := {
  sha256 : Type;
  sha256_new : sha256;
  sha256_update : sha256 → bytes → sha256;
  sha256_hexdigest : sha256 → str
}.

(** [PyPDF2.PdfReader], as a function of the bytes of the file. *)
Class PyPDF2 := { pdf_parse : bytes → pdf }.

Inductive op : Type → Type :=
| HttpGet (url : str) (stream : bool) : op (outcome response)
| OpenWb (path : str) : op unit
| FWrite (path : str) (chunk : bytes) : op unit
| PathExists (path : str) : op bool
| ReadBytes (path : str) : op (outcome bytes)
| ShutilMove (src dst : str) : op (outcome unit)
| OsRemove (path : str) : op (outcome unit)
| MakeDirs (path : str) : op (outcome unit)
| DatetimeNow : op datetime
| PrintLine (line : str) : op unit.

(** What has been done to the file system, in the order it was done. *)
Inductive event :=
| Opened (path : str)
| Wrote (path : str) (chunk : bytes)
| Moved (src dst : str)
| Removed (path : str)
| MadeDir (path : str).

Record state := {
  files : gmap str bytes;
  dirs : gset str;
  stdout : list str;
  trace : list event;
  tick : nat
}.

(** The remote servers and the clock: what the [n]-th look at the outside
    gets. *)
Record world := {
  http : nat → str → reply;
  clock : nat → datetime
}.

(** What an event does to the files. *)
Definition apply_event (e : event) (m : gmap str bytes) : gmap str bytes :=
  match e with
  | Opened p => <[p := []]> m
  | Wrote p chunk => <[p := default [] (m !! p) ++ chunk]> m
  | Moved src dst =>
      match m !! src with
      | Some content => <[dst := content]> (delete src m)
      | None => m
      end
  | Removed p => delete p m
  | MadeDir _ => m
  end.

Definition replay (evs : list event) (m : gmap str bytes) : gmap str bytes :=
  foldl (λ m e, apply_event e m) m evs.

(** The state after [e] is done and written down. *)
Definition log (e : event) (st : state) : state :=
  {| files := apply_event e (files st);
     dirs := match e with MadeDir p => {[p]} ∪ dirs st | _ => dirs st end;
     stdout := stdout st;
     trace := trace st ++ [e];
     tick := tick st |}.

Definition say (line : str) (st : state) : state :=
  {| files := files st; dirs := dirs st; stdout := stdout st ++ [line];
     trace := trace st; tick := tick st |}.

Definition next_tick (st : state) : state :=
  {| files := files st; dirs := dirs st; stdout := stdout st;
     trace := trace st; tick := S (tick st) |}.

(** One atomic operation.  [requests.get] is called without a timeout, so
    a request that gets nothing waits for ever; without [stream] it reads
    the body before it returns, so a broken body raises there.
    [open(p, 'wb')] makes the file empty, [f.write] adds to it;
    [shutil.move] and [os.remove] raise when there is no file.
    [os.makedirs(p, exist_ok=True)] raises for the empty path and for the
    path of a file. *)
Definition step_op (w : world) {X} (o : op X) (st : state) : X * state :=
  match o in op X return X * state with
  | HttpGet u stream =>
      (match http w (tick st) u with
       | NoReply => Raised RequestException
       | Reply resp =>
           if negb stream && broken resp then Raised RequestException
           else Returned resp
       | Stalled => Hangs
       end, next_tick st)
  | OpenWb p => (tt, log (Opened p) st)
  | FWrite p chunk => (tt, log (Wrote p chunk) st)
  | PathExists p => (bool_decide (is_Some (files st !! p)), st)
  | ReadBytes p =>
      (match files st !! p with
       | Some content => Returned content
       | None => Raised (FileNotFoundError p)
       end, st)
  | ShutilMove src dst =>
      match files st !! src with
      | Some _ => (Returned tt, log (Moved src dst) st)
      | None => (Raised (FileNotFoundError src), st)
      end
  | OsRemove p =>
      match files st !! p with
      | Some _ => (Returned tt, log (Removed p) st)
      | None => (Raised (FileNotFoundError p), st)
      end
  | MakeDirs p =>
      if bool_decide (p = []) then (Raised (FileNotFoundError p), st)
      else if bool_decide (is_Some (files st !! p))
      then (Raised (FileExistsError p), st)
      else (Returned tt, log (MadeDir p) st)
  | DatetimeNow => (clock w (tick st), next_tick st)
  | PrintLine line => (tt, say line st)
  end.

(** A program run on its own, from [st]. *)
Definition run (w : world) {A} (p : prog op A) (st : state)
  : outcome A * state :=
  exec (@step_op w) p st.

(** ** Parsed YAML *)

(** What [yaml.safe_load] gives.  A dictionary keeps its pairs in the order
    of the file, with no key twice; [YOther] stands for the values that are
    none of the others (bytes, dates, sets). *)
#[warnings="-register-all"]
Inductive yaml :=
| YNone
| YBool (b : bool)
| YInt (n : Z)
| YFloat (f : SpecFloat.spec_float)
| YStr (s : str)
| YList (l : list yaml)
| YDict (d : list (yaml * yaml))
| YOther.

(** [d.get(k)] for a string [k]: only a key that is a string equals it. *)
Fixpoint dict_get (k : str) (d : list (yaml * yaml)) : option yaml :=
  match d with
  | [] => None
  | (YStr k', v) :: d' => if bool_decide (k' = k) then Some v else dict_get k d'
  | _ :: d' => dict_get k d'
  end.

(** [isinstance(v, str)] *)
Definition is_str (v : yaml) : bool :=
  match v with YStr _ => true | _ => false end.

(** [v == s] for a string [s]. *)
Definition eq_str (v : yaml) (s : str) : bool :=
  match v with YStr s' => bool_decide (s' = s) | _ => false end.

(** A float whose value is one: the mantissa times two to the exponent. *)
Definition float_is_one (f : SpecFloat.spec_float) : bool :=
  match f with
  | SpecFloat.S754_finite false m e => ((e <=? 0) && (Z.pos m =? 2 ^ (- e)))%Z
  | _ => false
  end.

(** [v == 1]: numbers are compared by value, and [True] is the number
    one. *)
Definition eq_one (v : yaml) : bool :=
  match v with
  | YInt n => bool_decide (n = 1%Z)
  | YBool b => b
  | YFloat f => float_is_one f
  | _ => false
  end.

(** ** yoink.py *)
Module Yoink.

Definition print (line : str) : prog op unit := perform (PrintLine line).

(** The [ValueError]s of [validate_config], one for each [raise]; those of
    a category carry its key. *)
Inductive config_error :=
| NotADictionary
| MissingVersion
| UnsupportedVersion (version : yaml)
| MissingDownloads
| DownloadsNotADictionary
| CategoryNotADictionary (category : yaml)
| InvalidFolder (category : yaml)
| InvalidBaseUrl (category : yaml)
| InvalidFilenameMode (category : yaml)
| InvalidItems (category : yaml).

(** How [validate_config] ends: it returns, or it raises. *)
Inductive checked :=
| Accepted
| ValueError (why : config_error).

(** The body of the loop of [validate_config]. *)
Definition validate_category (category settings : yaml) : checked :=
  match settings with
  | YDict settings =>
      if negb (from_option is_str false (dict_get (text "folder") settings))
      then ValueError (InvalidFolder category)
      else if negb (from_option is_str false
                      (dict_get (text "base_url") settings))
      then ValueError (InvalidBaseUrl category)
      else if from_option
                (λ mode, negb (eq_str mode (text "item")
                               || eq_str mode (text "title")))
                false (dict_get (text "filename_mode") settings)
      then ValueError (InvalidFilenameMode category)
      else if negb (from_option
                      (λ items, match items with
                                | YList l => forallb is_str l
                                | _ => false
                                end)
                      false (dict_get (text "items") settings))
      then ValueError (InvalidItems category)
      else Accepted
  | _ => ValueError (CategoryNotADictionary category)
  end.

Fixpoint validate_categories (downloads : list (yaml * yaml)) : checked :=
  match downloads with
  | [] => Accepted
  | (category, settings) :: rest =>
      match validate_category category settings with
      | Accepted => validate_categories rest
      | ValueError why => ValueError why
      end
  end.

(** [validate_config(config)] *)
Definition validate_config (config : yaml) : checked :=
  match config with
  | YDict config =>
      match dict_get (text "version") config with
      | None => ValueError MissingVersion
      | Some version =>
          if negb (eq_one version)
          then ValueError (UnsupportedVersion version)
          else match dict_get (text "downloads") config with
               | None => ValueError MissingDownloads
               | Some (YDict downloads) => validate_categories downloads
               | Some _ => ValueError DownloadsNotADictionary
               end
      end
  | _ => ValueError NotADictionary
  end.

(** [prepare_folders(base_folder)] *)
Definition prepare_folders (base_folder : str) : prog op str :=
  attempt (MakeDirs base_folder);;
  let archive_path := OsPath.join base_folder (text "archive") in
  attempt (MakeDirs archive_path);;
  mret archive_path.

(** [iter(lambda: f.read(n), b'')]: the reads of [n] bytes, up to the
    empty one. *)
Fixpoint read_chunks_fuel (fuel n : nat) (content : bytes) : list bytes :=
  match fuel, content with
  | S fuel', _ :: _ => take n content :: read_chunks_fuel fuel' n (drop n content)
  | _, _ => []
  end.

Definition read_chunks (n : nat) (content : bytes) : list bytes :=
  read_chunks_fuel (length content) n content.

(** The digest of a file of this content, as [file_checksum] computes it:
    one [update] for each read of 4096 bytes. *)
Definition digest `{Hashlib} (content : bytes) : str :=
  sha256_hexdigest
    (fold_left sha256_update (read_chunks 4096 content) sha256_new).

(** [file_checksum(path)] *)
Definition file_checksum `{Hashlib} (path : str) : prog op str :=
  content ← attempt (ReadBytes path);
  mret (digest content).

(** The loop [for chunk in resp.iter_content(1024): f.write(chunk)]. *)
Fixpoint write_chunks (dest_path : str) (chunks : list bytes) (broken : bool)
  : prog op unit :=
  match chunks with
  | chunk :: rest =>
      perform (FWrite dest_path chunk);;
      write_chunks dest_path rest broken
  | [] => if broken then Throw RequestException else mret tt
  end.

(** [download_file(url, dest_path)] *)
Definition download_file (url dest_path : str) : prog op bool :=
  resp ← attempt (HttpGet url true);
  if bool_decide (status_code resp = 200%Z) then
    perform (OpenWb dest_path);;
    write_chunks dest_path (iter_content resp) (broken resp);;
    mret true
  else mret false.

(** [resolve_pdf_url(base_url, item)] *)
Definition resolve_pdf_url (base_url item : str) : prog op (option str) :=
  let full_url := base_url ++ UrlLib.quote_plus item in
  resp ← attempt (HttpGet full_url false);
  if bool_decide (status_code resp = 200%Z)
     && PyStr.contains (text ".pdf") (url resp)
  then mret (Some (url resp))
  else mret None.

Definition illegal (c : ascii) : bool :=
  match c with
  | "\" | "/" | "*" | "?" | ":" | "034" | "<" | ">" | "|" => true
  | _ => false
  end%char.

(** [re.sub] of the character class of [get_pdf_title] by the empty
    string: every character of the class is dropped. *)
Definition re_sub_illegal (title : str) : str :=
  filter (λ c, illegal c = false) title.

(** [PdfReader(path)] and [reader.metadata.get('/Title')]. *)
Definition pdf_reader_title `{PyPDF2} (path : str)
  : prog op (option pyobj) :=
  content ← attempt (ReadBytes path);
  match pdf_parse content with
  | Unreadable => Throw PdfReadError
  | Pdf None => Throw AttributeError
  | Pdf (Some title) => mret title
  end.

(** [get_pdf_title(path)] *)
Definition get_pdf_title `{PyPDF2} (path : str) : prog op (option str) :=
  try_except
    (title ← pdf_reader_title path;
     match title with
     | Some (PyString s) =>
         if bool_decide (s = []) then mret None
         else mret (Some (PyStr.strip (re_sub_illegal s)))
     | Some (PyOther true) => Throw TypeError
     | Some (PyOther false) | None => mret None
     end)
    (λ _, mret None).

(** The prefix of the status lines: category and item, each in brackets. *)
Definition tag (category item : str) : str :=
  text "[" ++ category ++ text "] [" ++ item ++ text "] ".

Definition temp_file_of (folder item : str) : str :=
  OsPath.join folder (item ++ text "_new.pdf").

(** Lines 190 to 197 of [process_item]: the final name. *)
Definition final_name_of `{PyPDF2}
    (category item filename_mode temp_file : str) : prog op str :=
  if bool_decide (filename_mode = text "title") then
    title ← get_pdf_title temp_file;
    match title with
    | None | Some [] =>
        print (tag category item
               ++ text "No title found, using item as filename.");;
        mret (item ++ text ".pdf")
    | Some title => mret (title ++ text ".pdf")
    end
  else mret (item ++ text ".pdf").

(** Lines 177 to 197 of [process_item]: resolve, download, name.  [None]
    stands for the two early returns. *)
Definition fetch_and_name `{PyPDF2}
    (category item base_url folder filename_mode : str)
  : prog op (option str) :=
  print (tag category item ++ text "Checking...");;
  resolved_url ← resolve_pdf_url base_url item;
  match resolved_url with
  | None | Some [] =>
      print (tag category item ++ text "PDF URL not found.");;
      mret None
  | Some resolved_url =>
      let temp_file := temp_file_of folder item in
      ok ← download_file resolved_url temp_file;
      if negb ok then
        print (tag category item ++ text "Download failed.");;
        mret None
      else
        final_name ← final_name_of category item filename_mode temp_file;
        mret (Some final_name)
  end.

Definition archived_name_of (archive_folder final_name timestamp : str)
  : str :=
  OsPath.join archive_folder
    ((OsPath.splitext final_name).1 ++ text "_" ++ timestamp ++ text ".pdf").

(** Lines 199 to 215 of [process_item]: compare, then keep, replace or
    write. *)
Definition compare_and_swap `{Hashlib}
    (category item folder archive_folder final_name : str) : prog op unit :=
  let temp_file := temp_file_of folder item in
  let final_file := OsPath.join folder final_name in
  is_there ← perform (PathExists final_file);
  if (is_there : bool) then
    old_hash ← file_checksum final_file;
    new_hash ← file_checksum temp_file;
    if negb (bool_decide (old_hash = new_hash)) then
      now ← perform DatetimeNow;
      let timestamp := strftime now in
      let archived_name := archived_name_of archive_folder final_name timestamp in
      attempt (ShutilMove final_file archived_name);;
      attempt (ShutilMove temp_file final_file);;
      print (tag category item ++ text "Updated. Old version archived.")
    else
      attempt (OsRemove temp_file);;
      print (tag category item ++ text "Up to date.")
  else
    attempt (ShutilMove temp_file final_file);;
    print (tag category item ++ text "Downloaded.").

(** [process_item(category, item, base_url, folder, archive_folder,
    filename_mode)] *)
Definition process_item `{Hashlib, PyPDF2}
    (category item base_url folder archive_folder filename_mode : str)
  : prog op unit :=
  named ← fetch_and_name category item base_url folder filename_mode;
  match named with
  | None => mret tt
  | Some final_name =>
      compare_and_swap category item folder archive_folder final_name
  end.

(** *** [main]: the worker pool *)

(** One category of the validated configuration. *)
Record details := {
  folder : str;
  base_url : str;
  filename_mode : option str;
  items : list str
}.

(** What [main] reads from the settings of a category, lines 235 to 238,
    where the values have the types [process_item] takes: the folder, the
    base URL, the naming mode if there is one, and the items. *)
Definition read_details (settings : yaml) : option details :=
  match settings with
  | YDict settings =>
      match dict_get (text "folder") settings,
            dict_get (text "base_url") settings,
            dict_get (text "items") settings with
      | Some (YStr folder), Some (YStr base_url), Some (YList items) =>
          items ← mapM (λ i, match i with YStr s => Some s | _ => None end)
                    items;
          filename_mode ←
            match dict_get (text "filename_mode") settings with
            | None => Some None
            | Some (YStr mode) => Some (Some mode)
            | Some _ => None
            end;
          Some {| folder := folder; base_url := base_url;
                  filename_mode := filename_mode; items := items |}
      | _, _, _ => None
      end
  | _ => None
  end.

(** The categories of [raw_config['downloads'].items()], each with what
    [main] reads from it, where the names of the categories are strings. *)
Definition read_config (raw_config : yaml) : option (list (str * details)) :=
  match raw_config with
  | YDict raw_config =>
      match dict_get (text "downloads") raw_config with
      | Some (YDict downloads) =>
          mapM (λ cd, match cd.1 with
                      | YStr category =>
                          d ← read_details cd.2; Some (category, d)
                      | _ => None
                      end) downloads
      | _ => None
      end
  | _ => None
  end.

(** The arguments of one call of [process_item]. *)
Record task := {
  t_category : str;
  t_item : str;
  t_base_url : str;
  t_folder : str;
  t_archive_folder : str;
  t_filename_mode : str
}.

Definition task_prog `{Hashlib, PyPDF2} (t : task) : prog op unit :=
  process_item (t_category t) (t_item t) (t_base_url t) (t_folder t)
    (t_archive_folder t) (t_filename_mode t).

(** What the main thread does, one atomic step each. *)
Inductive instr :=
| IMakeDirs (path : str)
| ISubmit (t : task)
| INextCompleted
| IShutdown
| ISay (line : str).

(** The body of the loop over the categories: [prepare_folders], then one
    [executor.submit] for each item. *)
Definition category_script (category : str) (d : details) : list instr :=
  let archive_folder := OsPath.join (folder d) (text "archive") in
  [IMakeDirs (folder d); IMakeDirs archive_folder]
  ++ map (λ item, ISubmit {|
            t_category := category; t_item := item;
            t_base_url := base_url d; t_folder := folder d;
            t_archive_folder := archive_folder;
            t_filename_mode := default (text "item") (filename_mode d) |})
       (items d).

Definition submit_script (config : list (str * details)) : list instr :=
  flat_map (λ cd, category_script cd.1 cd.2) config.

Definition submitted (script : list instr) : list task :=
  omap (λ i, match i with ISubmit t => Some t | _ => None end) script.

Definition check_mark : str :=
  [ascii_of_nat 226; ascii_of_nat 156; ascii_of_nat 133].

(** The body of [main] after the configuration is loaded: the submissions,
    one turn of the [as_completed] loop for each future, the end of the
    [with] block, and the last line. *)
Definition last_words : list instr :=
  [IShutdown; ISay (check_mark ++ text " All downloads processed.")].

Definition main_script (config : list (str * details)) : list instr :=
  submit_script config
  ++ replicate (length (submitted (submit_script config))) INextCompleted
  ++ last_words.

(** A future of the executor. *)
Inductive fstate :=
| Queued
| Running (p : prog op unit)
| Done (r : outcome unit).

Record future := { f_task : task; f_state : fstate }.

Definition is_done (f : future) : bool :=
  match f_state f with Done _ => true | _ => false end.
Definition is_running (f : future) : bool :=
  match f_state f with Running _ => true | _ => false end.
Definition is_queued (f : future) : bool :=
  match f_state f with Queued => true | _ => false end.

Definition count (P : future → bool) (fs : list future) : nat :=
  length (List.filter P fs).

Record pool := {
  shared : state;
  pc : list instr;
  futures : list future;
  yielded : nat;
  raised : option exn
}.

(** The steps of a run of [main] with [max_workers] worker threads.  The
    main thread runs its script; [as_completed] yields a future only when
    one more is done, and the [with] block ends only when all are.  When
    [os.makedirs] raises, the main thread stops where it is with the
    exception, and the [with] block waits for the futures submitted so
    far.  A free worker takes the oldest queued task; a running task does
    one operation at a time, and its return or exception is stored in its
    future. *)
Inductive pool_step `{Hashlib, PyPDF2} (w : world) (max_workers : nat)
  : pool → pool → Prop :=
| step_makedirs path rest st fs y :
    (step_op w (MakeDirs path) st).1 = Returned tt →
    pool_step w max_workers
      {| shared := st; pc := IMakeDirs path :: rest; futures := fs;
         yielded := y; raised := None |}
      {| shared := (step_op w (MakeDirs path) st).2; pc := rest;
         futures := fs; yielded := y; raised := None |}
| step_makedirs_raises path rest st fs y e :
    (step_op w (MakeDirs path) st).1 = Raised e →
    pool_step w max_workers
      {| shared := st; pc := IMakeDirs path :: rest; futures := fs;
         yielded := y; raised := None |}
      {| shared := (step_op w (MakeDirs path) st).2;
         pc := IMakeDirs path :: rest;
         futures := fs; yielded := y; raised := Some e |}
| step_submit t rest st fs y :
    pool_step w max_workers
      {| shared := st; pc := ISubmit t :: rest; futures := fs;
         yielded := y; raised := None |}
      {| shared := st; pc := rest;
         futures := fs ++ [{| f_task := t; f_state := Queued |}];
         yielded := y; raised := None |}
| step_next_completed rest st fs y :
    y < count is_done fs →
    pool_step w max_workers
      {| shared := st; pc := INextCompleted :: rest; futures := fs;
         yielded := y; raised := None |}
      {| shared := st; pc := rest; futures := fs; yielded := S y;
         raised := None |}
| step_shutdown rest st fs y :
    forallb is_done fs = true →
    pool_step w max_workers
      {| shared := st; pc := IShutdown :: rest; futures := fs;
         yielded := y; raised := None |}
      {| shared := st; pc := rest; futures := fs; yielded := y;
         raised := None |}
| step_say line rest st fs y :
    pool_step w max_workers
      {| shared := st; pc := ISay line :: rest; futures := fs;
         yielded := y; raised := None |}
      {| shared := (step_op w (PrintLine line) st).2; pc := rest;
         futures := fs; yielded := y; raised := None |}
| step_start st code fs1 t fs2 y r :
    forallb (λ f, negb (is_queued f)) fs1 = true →
    count is_running (fs1 ++ fs2) < max_workers →
    pool_step w max_workers
      {| shared := st; pc := code;
         futures := fs1 ++ {| f_task := t; f_state := Queued |} :: fs2;
         yielded := y; raised := r |}
      {| shared := st; pc := code;
         futures := fs1 ++ {| f_task := t; f_state := Running (task_prog t) |} :: fs2;
         yielded := y; raised := r |}
| step_work st code fs1 t X (o : op X) k fs2 y r :
    pool_step w max_workers
      {| shared := st; pc := code;
         futures := fs1 ++ {| f_task := t; f_state := Running (Vis o k) |} :: fs2;
         yielded := y; raised := r |}
      {| shared := (step_op w o st).2; pc := code;
         futures := fs1 ++ {| f_task := t;
                              f_state := Running (k (step_op w o st).1) |} :: fs2;
         yielded := y; raised := r |}
| step_return st code fs1 t a fs2 y r :
    pool_step w max_workers
      {| shared := st; pc := code;
         futures := fs1 ++ {| f_task := t; f_state := Running (Ret a) |} :: fs2;
         yielded := y; raised := r |}
      {| shared := st; pc := code;
         futures := fs1 ++ {| f_task := t; f_state := Done (Returned a) |} :: fs2;
         yielded := y; raised := r |}
| step_raise st code fs1 t e fs2 y r :
    pool_step w max_workers
      {| shared := st; pc := code;
         futures := fs1 ++ {| f_task := t; f_state := Running (Throw e) |} :: fs2;
         yielded := y; raised := r |}
      {| shared := st; pc := code;
         futures := fs1 ++ {| f_task := t; f_state := Done (Raised e) |} :: fs2;
         yielded := y; raised := r |}.

(** [main] from the loaded configuration, in the state [st]. *)
Definition main_start (config : list (str * details)) (st : state) : pool :=
  {| shared := st; pc := main_script config; futures := []; yielded := 0;
     raised := None |}.

End Yoink.

(** ** generate_index.py *)
Module GenerateIndex.

Inductive op : Type → Type :=
| GetCwd : op str
| IsDir (path : str) : op bool
| ListDir (path : str) : op (list str)
| WriteText (path : str) (content : str) : op (outcome unit)
| PrintLine (line : str) : op unit.

(** The directories with their entries in the order [os.listdir] gives
    them, the text files written, and standard output. *)
Record disk := {
  cwd : str;
  listing : gmap str (list str);
  texts : gmap str str;
  stdout : list str
}.

(** [open(p, 'w', encoding='utf-8')] makes the file empty, and [f.write]
    encodes the whole text before it writes any of it: a text that cannot
    be encoded leaves the file empty. *)
Definition step_op {X} (o : op X) (d : disk) : X * disk :=
  match o in op X return X * disk with
  | GetCwd => (cwd d, d)
  | IsDir p => (bool_decide (is_Some (listing d !! p)), d)
  | ListDir p => (default [] (listing d !! p), d)
  | WriteText p content =>
      if PyStr.has_surrogate content
      then (Raised UnicodeEncodeError,
            {| cwd := cwd d; listing := listing d;
               texts := <[p := []]> (texts d); stdout := stdout d |})
      else (Returned tt,
            {| cwd := cwd d; listing := listing d;
               texts := <[p := content]> (texts d); stdout := stdout d |})
  | PrintLine line =>
      (tt, {| cwd := cwd d; listing := listing d; texts := texts d;
              stdout := stdout d ++ [line] |})
  end.

Definition run {A} (p : prog op A) (d : disk) : outcome A * disk :=
  exec (@step_op) p d.

Definition print (line : str) : prog op unit := perform (PrintLine line).

(** [sorted(l, key=key)]: a stable sort by the order of [str] on the
    keys. *)
Fixpoint insert_by (key : str → str) (x : str) (l : list str) : list str :=
  match l with
  | [] => [x]
  | y :: l' =>
      if PyStr.leb (key x) (key y) then x :: y :: l'
      else y :: insert_by key x l'
  end.

Definition sorted (key : str → str) (l : list str) : list str :=
  foldr (insert_by key) [] l.

Definition nl : ascii := "010"%char.
Definition dq : ascii := "034"%char.
Definition quoted (s : str) : str := dq :: s ++ [dq].
Definition lines (l : list str) : str := concat (map (λ x, x ++ [nl]) l).

(** [str(n)] *)
Definition str_of_nat (n : nat) : str :=
  text (DecimalString.NilZero.string_of_uint (Nat.to_uint n)).

Definition cross_mark : str :=
  [ascii_of_nat 226; ascii_of_nat 157; ascii_of_nat 140].
Definition check_mark : str :=
  [ascii_of_nat 226; ascii_of_nat 156; ascii_of_nat 133].
Definition folder_mark : str :=
  [ascii_of_nat 240; ascii_of_nat 159; ascii_of_nat 147; ascii_of_nat 130].

(** The page up to the list, with the name of the directory as heading. *)
Definition html_head (heading : str) : str :=
  lines [
    text "<!DOCTYPE html>";
    text "<html lang=" ++ quoted (text "en") ++ text ">";
    text "<head>";
    text "  <meta charset=" ++ quoted (text "UTF-8") ++ text ">";
    text "  <title>PDF Index</title>";
    text "  <style>";
    text "    body { font-family: sans-serif; margin: 2em; }";
    text "    input[type=" ++ quoted (text "text")
      ++ text "] { width: 300px; padding: 8px; margin-bottom: 20px; }";
    text "    ul { list-style-type: none; padding: 0; }";
    text "    li { margin: 6px 0; }";
    text "    a { text-decoration: none; color: #0066cc; }";
    text "    a:hover { text-decoration: underline; }";
    text "  </style>";
    text "  <script>";
    text "    window.onload = () => {";
    text "        document.getElementById('search').focus();";
    text "        };";
    text "    function search() {";
    text "      const input = document.getElementById('search').value.toLowerCase();";
    text "      const items = document.querySelectorAll('li');";
    text "      items.forEach(item => {";
    text "        const text = item.textContent.toLowerCase();";
    text "        item.style.display = text.includes(input) ? '' : 'none';";
    text "      });";
    text "    }";
    text "  </script>";
    text "</head>";
    text "<body>";
    text "  <h1>" ++ heading ++ text "</h1>";
    text "  <input type=" ++ quoted (text "text")
      ++ text " id=" ++ quoted (text "search")
      ++ text " onkeyup=" ++ quoted (text "search()")
      ++ text " placeholder=" ++ quoted (text "Search PDFs...") ++ text ">";
    text "  <ul>"
  ].

(** One line of the list. *)
Definition html_item (filename : str) : str :=
  text "    <li><a href=" ++ quoted filename ++ text ">" ++ filename
  ++ text "</a></li>" ++ [nl].

Definition html_tail : str :=
  lines [text "  </ul>"; text "</body>"; text "</html>"].

(** The names that are listed: those that do not end in [.html] when
    lowered, sorted by their casefold. *)
Definition listed `{!PyStr.Casefold} (names : list str) : list str :=
  let file_extensions := text ".html" in
  sorted PyStr.casefold
    (filter (λ f, PyStr.endswith (PyStr.lower f) file_extensions = false) names).

(** [generate_index(pdf_dir)] *)
Definition generate_index `{!PyStr.Casefold} (pdf_dir : str)
  : prog op unit :=
  here ← perform GetCwd;
  let pdf_dir := OsPath.abspath here pdf_dir in
  let output_file := OsPath.join pdf_dir (text "index.html") in
  is_dir ← perform (IsDir pdf_dir);
  if negb is_dir then
    print (cross_mark ++ text " Error: " ++ pdf_dir
           ++ text " is not a valid directory.")
  else
    names ← perform (ListDir pdf_dir);
    let pdf_files := listed names in
    let html := html_head (OsPath.basename pdf_dir)
                ++ concat (map html_item pdf_files) ++ html_tail in
    attempt (WriteText output_file html);;
    print (check_mark ++ text " index.html generated with "
           ++ str_of_nat (length pdf_files) ++ text " files.");;
    print (folder_mark ++ text " Location: " ++ output_file).

End GenerateIndex.

(** ** States and values named in the properties *)

(** The state once [download_file] has opened [dest] and written the
    chunks to it. *)
Definition after_download (dest : str) (chunks : list bytes) (st : state)
  : state :=
  {| files := <[dest := concat chunks]> (files st);
     dirs := dirs st;
     stdout := stdout st;
     trace := trace st ++ Opened dest :: map (Wrote dest) chunks;
     tick := S (tick st) |}.

(** The title [get_pdf_title] finds in a file, if the file is there. *)
Definition title_in `{PyPDF2} (file : option bytes) : option str :=
  match file with
  | Some content =>
      match pdf_parse content with
      | Pdf (Some (Some (PyString s))) =>
          if bool_decide (s = []) then None
          else Some (PyStr.strip (Yoink.re_sub_illegal s))
      | _ => None
      end
  | None => None
  end.

(** The final name for an item and the title found. *)
Definition named (item : str) (title : option str) : str :=
  match title with
  | None | Some [] => item ++ text ".pdf"
  | Some title => title ++ text ".pdf"
  end.

(** The (collection, item) pairs of a configuration, in the order of the
    two loops of [main]. *)
Definition pairs (config : list (str * Yoink.details)) : list (str * str) :=
  flat_map (λ cd, map (λ item, (cd.1, item)) (Yoink.items cd.2)) config.


(** One step of one future: it is started, it does an operation, or it
    ends. *)
Definition prog_child {A} (q p : prog op A) : Prop :=
  match p with
  | Vis o k => ∃ x, q = k x
  | _ => False
  end.

Inductive future_step : Yoink.fstate → Yoink.fstate → Prop :=
| future_start p : future_step Yoink.Queued (Yoink.Running p)
| future_work p q :
    prog_child q p → future_step (Yoink.Running p) (Yoink.Running q)
| future_end p r : future_step (Yoink.Running p) (Yoink.Done r).

(** One step of one future of the list; the others, and its task, are as
    they were. *)
Inductive futures_step : list Yoink.future → list Yoink.future → Prop :=
| futures_step_at fs1 t s s' fs2 :
    future_step s s' →
    futures_step
      (fs1 ++ {| Yoink.f_task := t; Yoink.f_state := s |} :: fs2)
      (fs1 ++ {| Yoink.f_task := t; Yoink.f_state := s' |} :: fs2).

(** Where the main thread is in its script, and what the futures are
    there. *)
Inductive pool_inv (config : list (str * Yoink.details))
  : Yoink.pool → Prop :=
| inv_submitting done rest st fs r :
    Yoink.submit_script config = done ++ rest →
    map Yoink.f_task fs = Yoink.submitted done →
    (∀ e, r = Some e →
       ∃ path rest', rest = Yoink.IMakeDirs path :: rest'
                     ∧ (e = FileNotFoundError path
                        ∨ e = FileExistsError path)) →
    pool_inv config
      {| Yoink.shared := st;
         Yoink.pc :=
           rest
           ++ replicate
                (length (Yoink.submitted (Yoink.submit_script config)))
                Yoink.INextCompleted
           ++ Yoink.last_words;
         Yoink.futures := fs;
         Yoink.yielded := 0;
         Yoink.raised := r |}
| inv_awaiting j st fs :
    j ≤ length (Yoink.submitted (Yoink.submit_script config)) →
    map Yoink.f_task fs = Yoink.submitted (Yoink.submit_script config) →
    pool_inv config
      {| Yoink.shared := st;
         Yoink.pc :=
           replicate
             (length (Yoink.submitted (Yoink.submit_script config)) - j)
             Yoink.INextCompleted
           ++ Yoink.last_words;
         Yoink.futures := fs;
         Yoink.yielded := j;
         Yoink.raised := None |}
| inv_left code st fs y :
    Yoink.IShutdown ∉ code →
    map Yoink.f_task fs = Yoink.submitted (Yoink.submit_script config) →
    Forall (λ f, Yoink.is_done f = true) fs →
    (code = [] ∨ ∃ line, code = [Yoink.ISay line]) →
    pool_inv config
      {| Yoink.shared := st; Yoink.pc := code; Yoink.futures := fs;
         Yoink.yielded := y; Yoink.raised := None |}.

(** A future whose task waits for a reply that never comes. *)
Definition hangs (f : Yoink.future) : bool :=
  match Yoink.f_state f with
  | Yoink.Running Hang => true
  | _ => false
  end.


(** The order of [sorted(l, key=key)]. *)
Definition key_le (key : str → str) (a b : str) : Prop :=
  PyStr.leb (key a) (key b) = true.

(** The dates and times of [datetime] from the year 1000 on, where the
    year has its four digits. *)
Definition on_calendar (t : datetime) : Prop :=
  1000 ≤ year t < 100 * 100 ∧ 1 ≤ month t ≤ 12 ∧ 1 ≤ day t ≤ 31
  ∧ hour t ≤ 23 ∧ minute t ≤ 59 ∧ second t ≤ 59.

(** The script finds its folders: every task still to be submitted has its
    folder and its archive folder among those made, before or by the
    script. *)
Fixpoint folders_ready (made : gset str) (code : list Yoink.instr) : Prop :=
  match code with
  | [] => True
  | Yoink.IMakeDirs path :: rest => folders_ready ({[path]} ∪ made) rest
  | Yoink.ISubmit t :: rest =>
      Yoink.t_folder t ∈ made ∧ Yoink.t_archive_folder t ∈ made
      ∧ Yoink.t_archive_folder t
        = OsPath.join (Yoink.t_folder t) (text "archive")
      ∧ folders_ready made rest
  | _ :: rest => folders_ready made rest
  end.

(** The folders of a task are there. *)
Definition has_folders (made : gset str) (f : Yoink.future) : Prop :=
  Yoink.t_folder (Yoink.f_task f) ∈ made
  ∧ Yoink.t_archive_folder (Yoink.f_task f) ∈ made
  ∧ Yoink.t_archive_folder (Yoink.f_task f)
    = OsPath.join (Yoink.t_folder (Yoink.f_task f)) (text "archive").

(** The futures that wait come last: none is queued before one that is
    not. *)
Fixpoint queue_last (fs : list Yoink.future) : bool :=
  match fs with
  | [] => true
  | f :: fs' =>
      if Yoink.is_queued f then forallb Yoink.is_queued fs'
      else queue_last fs'
  end.

(** The turns of the [as_completed] loop that the script still has. *)
Definition awaits (code : list Yoink.instr) : nat :=
  length (List.filter (λ i, match i with
                            | Yoink.INextCompleted => true
                            | _ => false
                            end) code).

(** ** Sample documents and servers, for the examples *)
Module Sample.

(** A stand-in for [str.casefold]: what it does to ASCII strings. *)
Definition casefold : PyStr.Casefold :=
  {| PyStr.casefold := map PyStr.lower_char;
     PyStr.casefold_ascii := λ _ _, eq_refl |}.

(** A stand-in for [hashlib.sha256]: the digest spells out the bytes. *)
Definition hashlib : Hashlib :=
  {| sha256 := bytes;
     sha256_new := [];
     sha256_update := λ h chunk, h ++ chunk;
     sha256_hexdigest := map ascii_of_byte |}.

(** A stand-in for [PdfReader] on the sample documents: the first byte
    says what the reader makes of the file, and after a [T] comes the
    title. *)
Definition parse (content : bytes) : pdf :=
  match content with
  | "T"%byte :: title => Pdf (Some (Some (PyString (map ascii_of_byte title))))
  | "O"%byte :: _ => Pdf (Some (Some (PyOther true)))
  | "E"%byte :: _ => Pdf (Some None)
  | "N"%byte :: _ => Pdf None
  | _ => Unreadable
  end.

Definition pypdf2 : PyPDF2 := {| pdf_parse := parse |}.

Definition data (s : string) : bytes := list_byte_of_string s.

Definition on_disk (l : list (str * bytes)) : state :=
  {| files := list_to_map l; dirs := ∅; stdout := []; trace := []; tick := 0 |}.

Definition noon : datetime :=
  {| year := 2024; month := 1; day := 2; hour := 12; minute := 0; second := 0 |}.

Definition ok (at_url : str) (chunks : list bytes) : response :=
  {| status_code := 200; url := at_url; iter_content := chunks;
     broken := false |}.

(** A server that sends the search at [asked] on to [found], and serves
    [doc] there; [server] is asked for ABC123. *)
Definition search : str := text "https://example/search?q=".

Definition server_for (asked found : str) (doc : response) : world :=
  {| http := λ _ u,
       if bool_decide (u = asked) then Reply (ok found [])
       else if bool_decide (u = found) then Reply doc
       else NoReply;
     clock := λ _, noon |}.

Definition server (found : str) (doc : response) : world :=
  server_for (search ++ text "ABC123") found doc.

Definition pdf_url : str := text "https://example/lit/abc123.pdf".



(** No server answers. *)
Definition offline : world :=
  {| http := λ _ _, NoReply; clock := λ _, noon |}.

(** Two collections, three tasks. *)
Definition config : list (str * Yoink.details) :=
  [(text "parts",
    {| Yoink.folder := text "/tmp/x"; Yoink.base_url := search;
       Yoink.filename_mode := None;
       Yoink.items := [text "ABC123"; text "LM358"] |});
   (text "notes",
    {| Yoink.folder := text "/tmp/n"; Yoink.base_url := search;
       Yoink.filename_mode := Some (text "title");
       Yoink.items := [text "AN1"] |})].

Definition shelf_names : list str :=
  [text "b.pdf"; text "index.html"; text "archive"; text "A.pdf";
   text "ABC_new.pdf"; text "Notes.HTML"].

(** A folder of documents with an index from an earlier run. *)
Definition shelf : GenerateIndex.disk :=
  {| GenerateIndex.cwd := text "/srv";
     GenerateIndex.listing := {[ text "/srv/pdfs" := shelf_names ]};
     GenerateIndex.texts := {[ text "/srv/pdfs/index.html" := text "old" ]};
     GenerateIndex.stdout := [] |}.

(** The configuration of [config], as the YAML file gives it. *)
Definition parts_yaml : yaml :=
  YDict [(YStr (text "folder"), YStr (text "/tmp/x"));
         (YStr (text "base_url"), YStr search);
         (YStr (text "items"),
          YList [YStr (text "ABC123"); YStr (text "LM358")])].

Definition notes_yaml : yaml :=
  YDict [(YStr (text "folder"), YStr (text "/tmp/n"));
         (YStr (text "base_url"), YStr search);
         (YStr (text "filename_mode"), YStr (text "title"));
         (YStr (text "items"), YList [YStr (text "AN1")])].

Definition raw_config : yaml :=
  YDict [(YStr (text "version"), YInt 1);
         (YStr (text "downloads"),
          YDict [(YStr (text "parts"), parts_yaml);
                 (YStr (text "notes"), notes_yaml)])].

(** A configuration whose second category has no folder, and whose third
    is not a dictionary. *)
Definition raw_config_without_folder : yaml :=
  YDict [(YStr (text "version"), YInt 1);
         (YStr (text "downloads"),
          YDict [(YStr (text "parts"), parts_yaml);
                 (YStr (text "drafts"),
                  YDict [(YStr (text "items"), YList [])]);
                 (YStr (text "notes"), YNone)])].

Definition a_second_later : datetime :=
  {| year := 2024; month := 1; day := 2;
     hour := 12; minute := 0; second := 1 |}.

(** The folder of [shelf] before its first index. *)
Definition shelf_before : GenerateIndex.disk :=
  {| GenerateIndex.cwd := text "/srv";
     GenerateIndex.listing :=
       {[ text "/srv/pdfs" :=
            [text "b.pdf"; text "archive"; text "A.pdf"; text "ABC_new.pdf";
             text "Notes.HTML"] ]};
     GenerateIndex.texts := ∅;
     GenerateIndex.stdout := [] |}.

(** One category with one item. *)
Definition one_item : list (str * Yoink.details) :=
  [(text "parts",
    {| Yoink.folder := text "/tmp/x"; Yoink.base_url := search;
       Yoink.filename_mode := None; Yoink.items := [text "ABC123"] |})].

Definition the_task : Yoink.task :=
  {| Yoink.t_category := text "parts"; Yoink.t_item := text "ABC123";
     Yoink.t_base_url := search; Yoink.t_folder := text "/tmp/x";
     Yoink.t_archive_folder := text "/tmp/x/archive";
     Yoink.t_filename_mode := text "item" |}.

(** The pool of [one_item] once the task is submitted. *)
Definition submitted_pool : Yoink.pool :=
  {| Yoink.shared :=
       log (MadeDir (text "/tmp/x/archive"))
         (log (MadeDir (text "/tmp/x")) (on_disk []));
     Yoink.pc := [Yoink.INextCompleted; Yoink.IShutdown;
                  Yoink.ISay (Yoink.check_mark
                              ++ text " All downloads processed.")];
     Yoink.futures := [{| Yoink.f_task := the_task;
                          Yoink.f_state := Yoink.Queued |}];
     Yoink.yielded := 0; Yoink.raised := None |}.

(** The same pool at the end of the run, with no server that answers: the
    task has raised. *)
Definition ended_pool : Yoink.pool :=
  {| Yoink.shared :=
       say (Yoink.check_mark ++ text " All downloads processed.")
         (next_tick
            (say (text "[parts] [ABC123] Checking...")
               (log (MadeDir (text "/tmp/x/archive"))
                  (log (MadeDir (text "/tmp/x")) (on_disk [])))));
     Yoink.pc := [];
     Yoink.futures :=
       [{| Yoink.f_task := the_task;
           Yoink.f_state := Yoink.Done (Raised RequestException) |}];
     Yoink.yielded := 1; Yoink.raised := None |}.




(** A server that accepts the connection and never replies. *)
Definition silent : world :=
  {| http := λ _ _, Stalled; clock := λ _, noon |}.

(** One category with two items. *)
Definition two_items : list (str * Yoink.details) :=
  [(text "parts",
    {| Yoink.folder := text "/tmp/x"; Yoink.base_url := search;
       Yoink.filename_mode := None;
       Yoink.items := [text "ABC123"; text "LM358"] |})].

Definition second_task : Yoink.task :=
  {| Yoink.t_category := text "parts"; Yoink.t_item := text "LM358";
     Yoink.t_base_url := search; Yoink.t_folder := text "/tmp/x";
     Yoink.t_archive_folder := text "/tmp/x/archive";
     Yoink.t_filename_mode := text "item" |}.

(** The pool of [two_items] with one worker, whose first request gets no
    reply: the first task waits, the second is still in the queue. *)
Definition waiting_pool : Yoink.pool :=
  {| Yoink.shared :=
       next_tick
         (say (text "[parts] [ABC123] Checking...")
            (log (MadeDir (text "/tmp/x/archive"))
               (log (MadeDir (text "/tmp/x")) (on_disk []))));
     Yoink.pc := [Yoink.INextCompleted; Yoink.INextCompleted;
                  Yoink.IShutdown;
                  Yoink.ISay (Yoink.check_mark
                              ++ text " All downloads processed.")];
     Yoink.futures := [{| Yoink.f_task := the_task;
                          Yoink.f_state := Yoink.Running Hang |};
                       {| Yoink.f_task := second_task;
                          Yoink.f_state := Yoink.Queued |}];
     Yoink.yielded := 0; Yoink.raised := None |}.

(** A name that is not valid text, as [os.listdir] gives it: the byte 255,
    which comes as the surrogate U+DCFF. *)
Definition undecodable : str :=
  [ascii_of_nat 237; ascii_of_nat 179; ascii_of_nat 191] ++ text ".pdf".

(** The folder of [shelf] with an entry of that name. *)
Definition shelf_undecodable : GenerateIndex.disk :=
  {| GenerateIndex.cwd := text "/srv";
     GenerateIndex.listing :=
       {[ text "/srv/pdfs" := [text "b.pdf"; undecodable; text "A.pdf"] ]};
     GenerateIndex.texts := {[ text "/srv/pdfs/index.html" := text "old" ]};
     GenerateIndex.stdout := [] |}.

End Sample.

(** Two runs in a row, from an empty folder, of the task of the sample
    whose title is the item with [_new]. *)
Definition twice_same_path : outcome unit * state :=
  let w := Sample.server Sample.pdf_url
             (Sample.ok Sample.pdf_url [Sample.data "TABC123_new"]) in
  let task := Yoink.process_item (H := Sample.hashlib) (H0 := Sample.pypdf2)
                (text "parts") (text "ABC123") Sample.search
                (text "/tmp/x") (text "/tmp/x/archive") (text "title") in
  run w task (run w task (Sample.on_disk [])).2.

(** * Properties *)

(** ** Running programs *)

Lemma exec_bind {op : Type → Type} {S A B : Type}
    (step : ∀ X, op X → S → X * S) (p : prog op A) (f : A → prog op B) s :
  exec step (p ≫= f) s =
  match exec step p s with
  | (Returned a, s') => exec step (f a) s'
  | (Raised e, s') => (Raised e, s')
  | (Hangs, s') => (Hangs, s')
  end.
Proof.
  revert s. induction p as [a|e| |X o k IH]; intros s; try reflexivity.
  cbn. apply IH.
Qed.

Lemma exec_try_except {op : Type → Type} {S A : Type}
    (step : ∀ X, op X → S → X * S) (p : prog op A) h s :
  exec step (try_except p h) s =
  match exec step p s with
  | (Returned a, s') => (Returned a, s')
  | (Raised e, s') => exec step (h e) s'
  | (Hangs, s') => (Hangs, s')
  end.
Proof.
  revert s. induction p as [a|e| |X o k IH]; intros s; try reflexivity.
  cbn. apply IH.
Qed.

Lemma run_bind w {A B} (p : prog op A) (f : A → prog op B) st :
  run w (p ≫= f) st =
  match run w p st with
  | (Returned a, st') => run w (f a) st'
  | (Raised e, st') => (Raised e, st')
  | (Hangs, st') => (Hangs, st')
  end.
Proof. apply exec_bind. Qed.

Lemma run_ret w {A} (a : A) st : run w (mret a) st = (Returned a, st).
Proof. reflexivity. Qed.

Lemma run_print w line st :
  run w (Yoink.print line) st = (Returned tt, say line st).
Proof. reflexivity. Qed.

(** ** Text and paths *)

Lemma contains_spec (sub s : str) :
  PyStr.contains sub s = true ↔ ∃ a b, s = a ++ sub ++ b.
Proof.
  induction s as [|c s IH]; simpl.
  - rewrite orb_false_r, bool_decide_eq_true. split.
    + intros [k Hk]. exists [], k. done.
    + intros (a & b & Hab). symmetry in Hab.
      apply app_eq_nil in Hab as [-> Hab].
      apply app_eq_nil in Hab as [-> ->]. by exists [].
  - rewrite orb_true_iff, bool_decide_eq_true, IH. split.
    + intros [[k Hk]|(a & b & Hab)].
      * exists [], k. done.
      * exists (c :: a), b. by rewrite Hab.
    + intros (a & b & Hab). destruct a as [|x a].
      * left. exists b. done.
      * right. simpl in Hab. injection Hab as -> ->. by exists a, b.
Qed.

Lemma endswith_spec (s p : str) :
  PyStr.endswith s p = true ↔ ∃ k, s = k ++ p.
Proof. unfold PyStr.endswith. by rewrite bool_decide_eq_true. Qed.

Lemma join_suffix (a b : str) : ∃ k, OsPath.join a b = k ++ b.
Proof.
  unfold OsPath.join.
  destruct (PyStr.startswith b [OsPath.sep]); [by exists []|].
  destruct (_ || _); [by exists a|].
  exists (a ++ [OsPath.sep]). by rewrite <- app_assoc.
Qed.

(** A relative second part is put after the first, with a separator
    between them when the first needs one. *)
Lemma join_relative (a b : str) :
  PyStr.startswith b [OsPath.sep] = false →
  OsPath.join a b =
  a ++ (if bool_decide (a = []) || PyStr.endswith a [OsPath.sep]
        then [] else [OsPath.sep]) ++ b.
Proof.
  intros Hb. unfold OsPath.join. rewrite Hb.
  by destruct (_ || _).
Qed.

Lemma join_absolute (a b : str) :
  PyStr.startswith b [OsPath.sep] = true → OsPath.join a b = b.
Proof. intros Hb. unfold OsPath.join. by rewrite Hb. Qed.

Lemma startswith_cons (c x : ascii) (s : str) :
  PyStr.startswith (x :: s) [c] = bool_decide (x = c).
Proof.
  unfold PyStr.startswith. apply bool_decide_ext. split.
  - intros [k Hk]. by injection Hk.
  - intros ->. by exists s.
Qed.

Lemma startswith_nil (c : ascii) : PyStr.startswith [] [c] = false.
Proof.
  unfold PyStr.startswith. apply bool_decide_eq_false. by intros [k Hk].
Qed.

Lemma digit_not_w n : PyStr.digit n ≠ "w"%char.
Proof.
  unfold PyStr.digit. pose proof (Nat.mod_upper_bound n 10) as Hn.
  destruct (n mod 10) as [|[|[|[|[|[|[|[|[|[|m]]]]]]]]]]; try discriminate.
  lia.
Qed.

Lemma strftime_last t :
  ∃ k, strftime t = k ++ [PyStr.digit (second t)].
Proof.
  exists (PyStr.pad4 (year t) ++ PyStr.pad2 (month t) ++ PyStr.pad2 (day t)
          ++ text "_" ++ PyStr.pad2 (hour t) ++ PyStr.pad2 (minute t)
          ++ [PyStr.digit (second t / 10)]).
  unfold strftime. rewrite <- !app_assoc. reflexivity.
Qed.

(** The archived name is never the path of the temporary file: before
    the extension, one ends in a digit and the other in a letter. *)
Lemma archived_not_temp archive_folder final_name t folder item :
  Yoink.archived_name_of archive_folder final_name (strftime t)
  ≠ Yoink.temp_file_of folder item.
Proof.
  unfold Yoink.archived_name_of, Yoink.temp_file_of.
  destruct (join_suffix archive_folder
    ((OsPath.splitext final_name).1 ++ text "_" ++ strftime t ++ text ".pdf"))
    as [k1 ->].
  destruct (join_suffix folder (item ++ text "_new.pdf")) as [k2 ->].
  destruct (strftime_last t) as [k ->].
  intros Heq.
  assert ((k1 ++ (OsPath.splitext final_name).1 ++ text "_" ++ k)
            ++ PyStr.digit (second t) :: text ".pdf"
          = (k2 ++ item ++ text "_ne") ++ "w"%char :: text ".pdf") as Heq'.
  { rewrite <- !app_assoc. rewrite <- !app_assoc in Heq. exact Heq. }
  apply app_inj_2 in Heq' as [_ Heq']; [|reflexivity].
  injection Heq' as Hd. by apply digit_not_w in Hd.
Qed.

Ltac not_in_text :=
  let Hin := fresh "Hin" in
  vm_compute; intros Hin;
  repeat (apply elem_of_cons in Hin as [Hin|Hin]; [discriminate|]);
  by apply elem_of_nil in Hin.

Lemma rpartition_app c (a b : str) :
  c ∉ b →
  OsPath.rpartition c (a ++ b)
  = ((OsPath.rpartition c a).1, (OsPath.rpartition c a).2 ++ b).
Proof.
  intros Hb. induction a as [|x a IH]; simpl.
  - induction b as [|y b IHb]; [done|].
    simpl. rewrite IHb by set_solver. simpl.
    rewrite bool_decide_eq_false_2 by set_solver. done.
  - rewrite IH. destruct (OsPath.rpartition c a) as [[|h0 h] t]; simpl.
    + by destruct (bool_decide (x = c)).
    + done.
Qed.

Lemma rpartition_snoc c (a : str) :
  OsPath.rpartition c (a ++ [c]) = (a ++ [c], []).
Proof.
  induction a as [|x a IH]; simpl.
  - by rewrite bool_decide_eq_true_2.
  - rewrite IH. by destruct a.
Qed.

Lemma rpartition_concat c (p : str) :
  (OsPath.rpartition c p).1 ++ (OsPath.rpartition c p).2 = p.
Proof.
  induction p as [|x p IH]; [done|]. simpl.
  destruct (OsPath.rpartition c p) as [[|h0 h] t]; simpl in *.
  - destruct (bool_decide (x = c)); simpl; by rewrite IH.
  - by rewrite IH.
Qed.

(** The stem of a name that ends in [.pdf] lacks at most these four
    characters. *)
Lemma splitext_pdf_stem (x : str) :
  (OsPath.splitext (x ++ text ".pdf")).1 = x
  ∨ (OsPath.splitext (x ++ text ".pdf")).1 = x ++ text ".pdf".
Proof.
  unfold OsPath.splitext.
  rewrite (rpartition_app OsPath.sep x (text ".pdf")) by not_in_text.
  pose proof (rpartition_concat OsPath.sep x) as Hx.
  destruct (OsPath.rpartition OsPath.sep x) as [d n]. simpl in *.
  replace (n ++ text ".pdf") with ((n ++ ["."%char]) ++ text "pdf")
    by (by rewrite <- app_assoc).
  rewrite (rpartition_app "."%char (n ++ ["."%char]) (text "pdf"))
    by not_in_text.
  rewrite rpartition_snoc. simpl.
  destruct (n ++ ["."%char]) as [|c0 l] eqn:Hn.
  { by destruct n. }
  rewrite <- Hn. rewrite length_app. simpl.
  replace (length n + 1 - 1) with (length n) by lia.
  rewrite take_app_length.
  destruct (forallb _ n); simpl; [by right|left; done].
Qed.

Lemma join_length_relative (a b : str) :
  PyStr.startswith b [OsPath.sep] = false →
  length a + length b ≤ length (OsPath.join a b) ≤ length a + 1 + length b.
Proof.
  intros Hb. rewrite join_relative by done. rewrite !length_app.
  destruct (_ || _); simpl; lia.
Qed.

(** The archived name is never the final path: it is longer. *)
Lemma archived_not_final folder (x timestamp : str) :
  Yoink.archived_name_of (OsPath.join folder (text "archive"))
    (x ++ text ".pdf") timestamp
  ≠ OsPath.join folder (x ++ text ".pdf").
Proof.
  unfold Yoink.archived_name_of.
  set (stem := (OsPath.splitext (x ++ text ".pdf")).1).
  assert (length x ≤ length stem) as Hstem.
  { subst stem. destruct (splitext_pdf_stem x) as [-> | ->];
      rewrite ?length_app; lia. }
  assert (PyStr.startswith (stem ++ text "_" ++ timestamp ++ text ".pdf")
            [OsPath.sep]
          = PyStr.startswith (x ++ text ".pdf") [OsPath.sep]) as Habs.
  { subst stem. destruct x as [|c x].
    - destruct (splitext_pdf_stem []) as [-> | ->]; simpl;
        by rewrite !startswith_cons.
    - destruct (splitext_pdf_stem (c :: x)) as [-> | ->]; simpl;
        by rewrite !startswith_cons. }
  intros Heq. apply (f_equal length) in Heq. revert Heq.
  destruct (PyStr.startswith (x ++ text ".pdf") [OsPath.sep]) eqn:Hx.
  - rewrite !join_absolute by done.
    rewrite !length_app. simpl. lia.
  - pose proof (join_length_relative folder (x ++ text ".pdf") Hx) as H1.
    pose proof (join_length_relative (OsPath.join folder (text "archive"))
                  _ Habs) as H2.
    pose proof (join_length_relative folder (text "archive") eq_refl) as H3.
    revert H1 H2 H3. rewrite !length_app. simpl. lia.
Qed.

(** ** The functions of yoink.py, run *)
Section yoink_runs.
Context `{!Hashlib, !PyPDF2}.
Variable w : world.

Lemma run_perform {X} (o : op X) st :
  run w (perform o) st = (Returned (step_op w o st).1, (step_op w o st).2).
Proof. reflexivity. Qed.

Lemma run_attempt {X} (o : op (outcome X)) st :
  run w (attempt o) st = step_op w o st.
Proof.
  unfold run, attempt. cbn.
  by destruct (step_op w o st) as [[x|e|] st'].
Qed.

Lemma run_resolve base_url item st :
  run w (Yoink.resolve_pdf_url base_url item) st =
  (match http w (tick st) (base_url ++ UrlLib.quote_plus item) with
   | NoReply => Raised RequestException
   | Reply resp =>
       if broken resp then Raised RequestException
       else Returned
              (if bool_decide (status_code resp = 200%Z)
                  && PyStr.contains (text ".pdf") (url resp)
               then Some (url resp) else None)
   | Stalled => Hangs
   end, next_tick st).
Proof.
  unfold Yoink.resolve_pdf_url. rewrite run_bind, run_attempt.
  cbn [step_op].
  destruct (http w (tick st) _) as [|resp|]; [done| |done].
  cbn [negb andb]. destruct (broken resp); [done|].
  by destruct (_ && _).
Qed.

Lemma run_write_chunks dest chunks is_broken st content :
  files st !! dest = Some content →
  run w (Yoink.write_chunks dest chunks is_broken) st =
  (if is_broken then Raised RequestException else Returned tt,
   {| files := <[dest := content ++ concat chunks]> (files st);
      dirs := dirs st; stdout := stdout st;
      trace := trace st ++ map (Wrote dest) chunks;
      tick := tick st |}).
Proof.
  revert st content. induction chunks as [|c chunks IH]; intros st content Hc.
  - cbn. rewrite !app_nil_r, insert_id by done.
    destruct st; by destruct is_broken.
  - cbn. unfold run in IH.
    erewrite IH; last first.
    { cbn. rewrite Hc. cbn. apply lookup_insert_eq. }
    cbn. rewrite Hc. cbn.
    rewrite insert_insert_eq, <- !app_assoc. done.
Qed.

Lemma run_download url dest st :
  run w (Yoink.download_file url dest) st =
  match http w (tick st) url with
  | NoReply => (Raised RequestException, next_tick st)
  | Reply resp =>
      if bool_decide (status_code resp = 200%Z) then
        (if broken resp then Raised RequestException else Returned true,
         after_download dest (iter_content resp) st)
      else (Returned false, next_tick st)
  | Stalled => (Hangs, next_tick st)
  end.
Proof.
  unfold Yoink.download_file. rewrite run_bind, run_attempt.
  cbn [step_op].
  destruct (http w (tick st) url) as [|resp|]; [done| |done]. cbn [negb andb].
  destruct (bool_decide (status_code resp = 200%Z)); [|done].
  rewrite run_bind, run_perform. cbn [step_op fst snd].
  rewrite run_bind.
  erewrite run_write_chunks by (cbn; apply lookup_insert_eq).
  unfold after_download. cbn. rewrite insert_insert_eq.
  destruct (broken resp); cbn; by rewrite <- app_assoc.
Qed.

Lemma run_get_pdf_title path st :
  run w (Yoink.get_pdf_title path) st
  = (Returned (title_in (files st !! path)), st).
Proof.
  unfold Yoink.get_pdf_title, run. rewrite exec_try_except.
  unfold Yoink.pdf_reader_title. rewrite !exec_bind.
  fold (run w (attempt (ReadBytes path)) st). rewrite run_attempt.
  cbn [step_op]. unfold title_in.
  destruct (files st !! path) as [content|]; [|done].
  destruct (pdf_parse content) as [|[[[s|[]]|]|]]; cbn; try done.
  by destruct (bool_decide (s = [])).
Qed.

Lemma run_final_name_of category item filename_mode temp_file st :
  run w (Yoink.final_name_of category item filename_mode temp_file) st =
  if bool_decide (filename_mode = text "title") then
    (Returned (named item (title_in (files st !! temp_file))),
     match title_in (files st !! temp_file) with
     | None | Some [] =>
         say (Yoink.tag category item
              ++ text "No title found, using item as filename.") st
     | Some _ => st
     end)
  else (Returned (item ++ text ".pdf"), st).
Proof.
  unfold Yoink.final_name_of.
  destruct (bool_decide (filename_mode = text "title")); [|done].
  rewrite run_bind, run_get_pdf_title.
  by destruct (title_in (files st !! temp_file)) as [[|c t]|].
Qed.

Lemma run_file_checksum path st :
  run w (Yoink.file_checksum path) st =
  (match files st !! path with
   | Some content => Returned (Yoink.digest content)
   | None => Raised (FileNotFoundError path)
   end, st).
Proof.
  unfold Yoink.file_checksum. rewrite run_bind, run_attempt.
  cbn [step_op]. by destruct (files st !! path).
Qed.

End yoink_runs.

(** ** The comparison and its three branches *)
Section compare.
Context `{!Hashlib, !PyPDF2}.
Variable w : world.

Lemma run_compare_missing category item folder archive_folder final_name st new :
  files st !! OsPath.join folder final_name = None →
  files st !! Yoink.temp_file_of folder item = Some new →
  run w (Yoink.compare_and_swap category item folder archive_folder final_name) st
  = (Returned tt,
     say (Yoink.tag category item ++ text "Downloaded.")
       (log (Moved (Yoink.temp_file_of folder item)
               (OsPath.join folder final_name)) st)).
Proof.
  intros Hfinal Htemp. unfold Yoink.compare_and_swap. cbv zeta.
  rewrite run_bind, run_perform. cbn [step_op fst snd]. rewrite Hfinal.
  rewrite bool_decide_eq_false_2 by (by intros [? ?]).
  rewrite run_bind, run_attempt. cbn [step_op]. rewrite Htemp.
  apply run_print.
Qed.

Lemma run_compare_same category item folder archive_folder final_name st old new :
  files st !! OsPath.join folder final_name = Some old →
  files st !! Yoink.temp_file_of folder item = Some new →
  Yoink.digest old = Yoink.digest new →
  run w (Yoink.compare_and_swap category item folder archive_folder final_name) st
  = (Returned tt,
     say (Yoink.tag category item ++ text "Up to date.")
       (log (Removed (Yoink.temp_file_of folder item)) st)).
Proof.
  intros Hfinal Htemp Hsame. unfold Yoink.compare_and_swap. cbv zeta.
  rewrite run_bind, run_perform. cbn [step_op fst snd]. rewrite Hfinal.
  rewrite bool_decide_eq_true_2 by eauto.
  rewrite run_bind, run_file_checksum, Hfinal.
  rewrite run_bind, run_file_checksum, Htemp.
  rewrite bool_decide_eq_true_2 by done. cbn [negb].
  rewrite run_bind, run_attempt. cbn [step_op]. rewrite Htemp.
  apply run_print.
Qed.

Lemma run_compare_differ category item folder archive_folder final_name st old new :
  files st !! OsPath.join folder final_name = Some old →
  files st !! Yoink.temp_file_of folder item = Some new →
  Yoink.digest old ≠ Yoink.digest new →
  run w (Yoink.compare_and_swap category item folder archive_folder final_name) st
  = (Returned tt,
     say (Yoink.tag category item ++ text "Updated. Old version archived.")
       (log (Moved (Yoink.temp_file_of folder item)
               (OsPath.join folder final_name))
          (log (Moved (OsPath.join folder final_name)
                  (Yoink.archived_name_of archive_folder final_name
                     (strftime (clock w (tick st)))))
             (next_tick st)))).
Proof.
  intros Hfinal Htemp Hdiff. unfold Yoink.compare_and_swap. cbv zeta.
  assert (OsPath.join folder final_name ≠ Yoink.temp_file_of folder item)
    as Hne by (intros Heq; rewrite Heq in Hfinal; congruence).
  rewrite run_bind, run_perform. cbn [step_op fst snd]. rewrite Hfinal.
  rewrite bool_decide_eq_true_2 by eauto.
  rewrite run_bind, run_file_checksum, Hfinal.
  rewrite run_bind, run_file_checksum, Htemp.
  rewrite bool_decide_eq_false_2 by done. cbn [negb].
  rewrite run_bind, run_perform. cbn [step_op fst snd].
  rewrite run_bind, run_attempt. cbn [step_op next_tick files]. rewrite Hfinal.
  rewrite run_bind, run_attempt.
  cbn [step_op log next_tick files apply_event]. rewrite Hfinal.
  destruct (decide (Yoink.archived_name_of archive_folder final_name
                      (strftime (clock w (tick st)))
                    = Yoink.temp_file_of folder item)) as [Heq|Hne'].
  - rewrite Heq, lookup_insert_eq. apply run_print.
  - rewrite lookup_insert_ne, lookup_delete_ne, Htemp by done.
    apply run_print.
Qed.

Lemma run_process_item category item base_url folder archive_folder
    filename_mode st final_name st1 :
  run w (Yoink.fetch_and_name category item base_url folder filename_mode) st
  = (Returned (Some final_name), st1) →
  run w (Yoink.process_item category item base_url folder archive_folder
           filename_mode) st
  = run w (Yoink.compare_and_swap category item folder archive_folder
             final_name) st1.
Proof.
  intros Hfetch. unfold Yoink.process_item. by rewrite run_bind, Hfetch.
Qed.

(** A final name always ends in [.pdf]. *)
Lemma final_name_pdf category item filename_mode temp_file st name st1 :
  run w (Yoink.final_name_of category item filename_mode temp_file) st
  = (Returned name, st1) →
  ∃ x, name = x ++ text ".pdf".
Proof.
  rewrite run_final_name_of.
  destruct (bool_decide _); [|intros [= <- _]; eauto].
  intros [= <- _]. unfold named.
  destruct (title_in _) as [[|c t]|]; eauto.
Qed.

Lemma fetch_and_name_pdf category item base_url folder filename_mode st
    final_name st1 :
  run w (Yoink.fetch_and_name category item base_url folder filename_mode) st
  = (Returned (Some final_name), st1) →
  ∃ x, final_name = x ++ text ".pdf".
Proof.
  unfold Yoink.fetch_and_name.
  rewrite run_bind, run_print, run_bind, run_resolve.
  destruct (http w _ _) as [|resp|]; [done| |done].
  destruct (broken resp); [done|].
  destruct (_ && _); cbv beta iota; [|by rewrite run_bind, run_print].
  destruct (url resp) as [|c u]; cbv beta iota zeta;
    [by rewrite run_bind, run_print|]. rewrite run_bind, run_download.
  destruct (http w _ _) as [|resp'|]; [done| |done].
  destruct (bool_decide _); cbn [negb];
    [|by rewrite run_bind, run_print].
  destruct (broken resp'); [done|]. cbn [negb].
  rewrite run_bind.
  destruct (run w (Yoink.final_name_of _ _ _ _) _) as [[name|e|] st'] eqn:Hn;
    [|done..].
  intros [= <- _]. by eapply final_name_pdf.
Qed.

End compare.

(** The old content stays on disk through the two moves of a
    replacement. *)
Lemma replay_two_moves (m : gmap str bytes) (final archived temp : str)
    (old new : bytes) :
  m !! final = Some old →
  m !! temp = Some new →
  final ≠ temp → archived ≠ temp → archived ≠ final →
  replay [Moved final archived] m !! archived = Some old
  ∧ replay [Moved final archived; Moved temp final] m !! archived = Some old
  ∧ replay [Moved final archived; Moved temp final] m !! final = Some new
  ∧ replay [Moved final archived; Moved temp final] m !! temp = None.
Proof.
  intros Hfinal Htemp Hft Hat Haf. unfold replay. simpl.
  rewrite Hfinal.
  rewrite (lookup_insert_ne _ archived temp) by done.
  rewrite (lookup_delete_ne _ final temp) by done.
  rewrite Htemp. by simplify_map_eq.
Qed.

(** ** What a fetch that reaches the comparison has done *)
Section fetch.
Context `{!PyPDF2}.
Variable w : world.

Lemma fetch_and_name_some category item base_url folder filename_mode st
    final_name st1 :
  run w (Yoink.fetch_and_name category item base_url folder filename_mode) st
  = (Returned (Some final_name), st1) →
  ∃ resp doc,
    http w (tick st) (base_url ++ UrlLib.quote_plus item) = Reply resp
    ∧ broken resp = false
    ∧ status_code resp = 200%Z
    ∧ PyStr.contains (text ".pdf") (url resp) = true
    ∧ http w (S (tick st)) (url resp) = Reply doc
    ∧ status_code doc = 200%Z
    ∧ broken doc = false
    ∧ files st1
      = <[Yoink.temp_file_of folder item := concat (iter_content doc)]>
          (files st)
    ∧ trace st1
      = trace st ++ Opened (Yoink.temp_file_of folder item)
          :: map (Wrote (Yoink.temp_file_of folder item)) (iter_content doc)
    ∧ tick st1 = S (S (tick st))
    ∧ final_name
      = (if bool_decide (filename_mode = text "title")
         then named item (title_in (Some (concat (iter_content doc))))
         else item ++ text ".pdf").
Proof.
  unfold Yoink.fetch_and_name.
  rewrite run_bind, run_print, run_bind, run_resolve.
  cbn [tick say].
  destruct (http w (tick st) _) as [|resp|] eqn:Hresp; [done| |done].
  destruct (broken resp) eqn:Hbroken; [done|].
  destruct (bool_decide (status_code resp = 200%Z)) eqn:Hstatus;
    cbn [andb]; [|by rewrite run_bind, run_print].
  destruct (PyStr.contains _ _) eqn:Hpdf; cbv beta iota;
    [|by rewrite run_bind, run_print].
  destruct (url resp) as [|c u] eqn:Hurl; cbv beta iota zeta;
    [by rewrite run_bind, run_print|].
  rewrite run_bind, run_download. cbn [tick say next_tick].
  destruct (http w (S (tick st)) _) as [|doc|] eqn:Hdoc; [done| |done].
  destruct (bool_decide (status_code doc = 200%Z)) eqn:Hstatus'; cbn [negb];
    [|by rewrite run_bind, run_print].
  destruct (broken doc) eqn:Hbroken'; [done|]. cbn [negb].
  rewrite run_bind, run_final_name_of.
  cbn [files after_download]. rewrite lookup_insert_eq.
  apply bool_decide_eq_true in Hstatus, Hstatus'.
  intros Hrun. exists resp, doc. rewrite Hurl.
  destruct (bool_decide (filename_mode = text "title")).
  - destruct (title_in (Some _)) as [[|? ?]|];
      injection Hrun as <- <-; by repeat split.
  - injection Hrun as <- <-. by repeat split.
Qed.

(** An early return has touched no file. *)
Lemma fetch_and_name_none category item base_url folder filename_mode st st1 :
  run w (Yoink.fetch_and_name category item base_url folder filename_mode) st
  = (Returned None, st1) →
  files st1 = files st ∧ trace st1 = trace st.
Proof.
  unfold Yoink.fetch_and_name.
  rewrite run_bind, run_print, run_bind, run_resolve.
  cbn [tick say].
  destruct (http w (tick st) _) as [|resp|]; [done| |done].
  destruct (broken resp); [done|].
  destruct (_ && _); cbv beta iota;
    [|rewrite run_bind, run_print; by intros [= <-]].
  destruct (url resp) as [|c u]; cbv beta iota zeta;
    [rewrite run_bind, run_print; by intros [= <-]|].
  rewrite run_bind, run_download. cbn [tick say next_tick].
  destruct (http w (S (tick st)) _) as [|doc|]; [done| |done].
  destruct (bool_decide (status_code doc = 200%Z)); cbn [negb];
    [|rewrite run_bind, run_print; by intros [= <-]].
  destruct (broken doc); [done|]. cbn [negb].
  rewrite run_bind, run_final_name_of.
  by destruct (bool_decide (filename_mode = text "title")).
Qed.

(** An exception in the fetch is a failed request, and it has touched no
    path but that of the temporary file. *)
Lemma fetch_and_name_raised category item base_url folder filename_mode st
    e st1 :
  run w (Yoink.fetch_and_name category item base_url folder filename_mode) st
  = (Raised e, st1) →
  e = RequestException
  ∧ ∀ p, p ≠ Yoink.temp_file_of folder item → files st1 !! p = files st !! p.
Proof.
  unfold Yoink.fetch_and_name.
  rewrite run_bind, run_print, run_bind, run_resolve.
  cbn [tick say].
  destruct (http w (tick st) _) as [|resp|]; [by intros [= <- <-]| |by intros [= <- <-]].
  destruct (broken resp); [by intros [= <- <-]|].
  destruct (_ && _); cbv beta iota; [|by rewrite run_bind, run_print].
  destruct (url resp) as [|c u]; cbv beta iota zeta;
    [by rewrite run_bind, run_print|].
  rewrite run_bind, run_download. cbn [tick say next_tick].
  destruct (http w (S (tick st)) _) as [|doc|]; [by intros [= <- <-]| |by intros [= <- <-]].
  destruct (bool_decide (status_code doc = 200%Z)); cbn [negb];
    [|by rewrite run_bind, run_print].
  destruct (broken doc).
  - intros [= <- <-]. split; [done|]. intros p Hp. cbn.
    by rewrite lookup_insert_ne.
  - cbn [negb]. rewrite run_bind, run_final_name_of.
    by destruct (bool_decide (filename_mode = text "title")).
Qed.



(** The fetch waits for ever only at a request, before it has touched a
    file. *)
Lemma fetch_and_name_hung category item base_url folder filename_mode st
    st1 :
  run w (Yoink.fetch_and_name category item base_url folder filename_mode) st
  = (Hangs, st1) →
  files st1 = files st ∧ trace st1 = trace st.
Proof.
  unfold Yoink.fetch_and_name.
  rewrite run_bind, run_print, run_bind, run_resolve.
  cbn [tick say].
  destruct (http w (tick st) _) as [|resp|]; [done| |by intros [= <-]].
  destruct (broken resp); [done|].
  destruct (_ && _); cbv beta iota; [|by rewrite run_bind, run_print].
  destruct (url resp) as [|c u]; cbv beta iota zeta;
    [by rewrite run_bind, run_print|].
  rewrite run_bind, run_download. cbn [tick say next_tick].
  destruct (http w (S (tick st)) _) as [|doc|]; [done| |by intros [= <-]].
  destruct (bool_decide (status_code doc = 200%Z)); cbn [negb];
    [|by rewrite run_bind, run_print].
  destruct (broken doc); [done|]. cbn [negb].
  rewrite run_bind, run_final_name_of.
  by destruct (bool_decide (filename_mode = text "title")).
Qed.

(** The fetch reaches the comparison when both requests are answered with
    status 200 and an unbroken body, and the URL has [.pdf] in it. *)
Lemma fetch_and_name_ok category item base_url folder filename_mode st
    resp doc :
  http w (tick st) (base_url ++ UrlLib.quote_plus item) = Reply resp →
  broken resp = false →
  status_code resp = 200%Z →
  PyStr.contains (text ".pdf") (url resp) = true →
  http w (S (tick st)) (url resp) = Reply doc →
  status_code doc = 200%Z →
  broken doc = false →
  ∃ st1,
    run w (Yoink.fetch_and_name category item base_url folder filename_mode) st
    = (Returned
         (Some (if bool_decide (filename_mode = text "title")
                then named item (title_in (Some (concat (iter_content doc))))
                else item ++ text ".pdf")), st1)
    ∧ files st1
      = <[Yoink.temp_file_of folder item := concat (iter_content doc)]>
          (files st).
Proof.
  intros Hresp Hbroken Hstatus Hpdf Hdoc Hstatus' Hbroken'.
  unfold Yoink.fetch_and_name.
  rewrite run_bind, run_print, run_bind, run_resolve.
  cbn [tick say]. rewrite Hresp, Hbroken, Hpdf.
  rewrite bool_decide_eq_true_2 by done. cbn [andb].
  destruct (url resp) as [|c u] eqn:Hurl.
  { apply contains_spec in Hpdf as (a & b & Hab). by destruct a. }
  cbv beta iota zeta.
  rewrite run_bind, run_download. cbn [tick say next_tick].
  rewrite Hdoc, Hbroken'. rewrite bool_decide_eq_true_2 by done.
  cbn [negb]. rewrite run_bind, run_final_name_of.
  cbn [files after_download]. rewrite lookup_insert_eq.
  destruct (bool_decide (filename_mode = text "title")).
  - destruct (title_in (Some _)) as [[|? ?]|]; by eexists.
  - by eexists.
Qed.

End fetch.

(** ** Sanitized titles and the folder *)

Lemma drop_space_some spaces (s s' : str) :
  PyStr.drop_space spaces s = Some s' →
  ∃ ws, ws ∈ spaces ∧ s = ws ++ s'.
Proof.
  unfold PyStr.drop_space.
  destruct (List.find _ spaces) as [ws|] eqn:Hfind; [|done].
  intros [= <-]. apply find_some in Hfind as [Hin Hpre].
  apply bool_decide_eq_true in Hpre as [k ->].
  exists ws. split; [by apply list_elem_of_In|].
  by rewrite drop_app_length.
Qed.

Lemma drop_space_none spaces (s ws : str) :
  PyStr.drop_space spaces s = None → ws ∈ spaces → ¬ ws `prefix_of` s.
Proof.
  unfold PyStr.drop_space.
  destruct (List.find _ spaces) as [?|] eqn:Hfind; [done|].
  intros _ Hin Hpre. apply list_elem_of_In in Hin.
  apply (find_none _ _ Hfind) in Hin. simpl in Hin.
  by rewrite bool_decide_eq_true_2 in Hin.
Qed.

Lemma lstrip_with_suffix spaces fuel (s : str) :
  PyStr.lstrip_with spaces fuel s `suffix_of` s.
Proof.
  revert s. induction fuel as [|fuel IH]; intros s; simpl; [done|].
  destruct (PyStr.drop_space spaces s) as [s'|] eqn:Hdrop; [|done].
  apply drop_space_some in Hdrop as (ws & _ & ->).
  by apply suffix_app_r.
Qed.

(** With fuel for every byte, no white space is left at the front. *)
Lemma lstrip_with_done spaces fuel (s ws : str) :
  Forall (λ ws, ws ≠ []) spaces →
  length s ≤ fuel → ws ∈ spaces →
  ¬ ws `prefix_of` PyStr.lstrip_with spaces fuel s.
Proof.
  intros Hne. revert s. induction fuel as [|fuel IH]; intros s Hlen Hin.
  - destruct s; [|simpl in Hlen; lia]. simpl. intros [k Hk].
    destruct ws; [|done]. rewrite Forall_forall in Hne. by apply (Hne []).
  - simpl. destruct (PyStr.drop_space spaces s) as [s'|] eqn:Hdrop.
    + apply drop_space_some in Hdrop as (ws' & Hin' & ->).
      apply IH; [|done]. rewrite length_app in Hlen.
      rewrite Forall_forall in Hne. specialize (Hne _ Hin').
      destruct ws'; [done|]. simpl in Hlen. lia.
    + by eapply drop_space_none.
Qed.

Lemma whitespace_nonempty : Forall (λ ws, ws ≠ []) PyStr.whitespace.
Proof. repeat constructor; discriminate. Qed.

Lemma lstrip_suffix (s : str) : PyStr.lstrip s `suffix_of` s.
Proof. apply lstrip_with_suffix. Qed.

Lemma rstrip_prefix (s : str) : PyStr.rstrip s `prefix_of` s.
Proof.
  unfold PyStr.rstrip. apply prefix_suffix_reverse.
  rewrite reverse_involutive. apply lstrip_with_suffix.
Qed.

Lemma lstrip_elem c (s : str) : c ∈ PyStr.lstrip s → c ∈ s.
Proof.
  destruct (lstrip_suffix s) as [k Hk]. intros Hc.
  rewrite Hk. apply elem_of_app. by right.
Qed.

Lemma strip_elem c (s : str) : c ∈ PyStr.strip s → c ∈ s.
Proof.
  unfold PyStr.strip. intros Hc. apply lstrip_elem.
  destruct (rstrip_prefix (PyStr.lstrip s)) as [k Hk].
  rewrite Hk. apply elem_of_app. by left.
Qed.

(** What [strip] gives has no white space at either end. *)
Lemma strip_ends (s ws : str) :
  ws ∈ PyStr.whitespace →
  ¬ ws `prefix_of` PyStr.strip s ∧ ¬ ws `suffix_of` PyStr.strip s.
Proof.
  intros Hws. unfold PyStr.strip. split.
  - intros Hpre.
    apply (lstrip_with_done PyStr.whitespace (length s) s ws);
      [apply whitespace_nonempty|done|done|].
    etrans; [exact Hpre|]. apply rstrip_prefix.
  - unfold PyStr.rstrip. intros Hsuf.
    apply suffix_prefix_reverse in Hsuf. rewrite reverse_involutive in Hsuf.
    revert Hsuf. apply lstrip_with_done.
    + apply Forall_fmap. eapply Forall_impl; [apply whitespace_nonempty|].
      intros x Hx Hrev. apply Hx.
      by rewrite <- (reverse_involutive x), Hrev.
    + by rewrite length_reverse.
    + apply list_elem_of_fmap. by exists ws.
Qed.

(** Where no white space is at the front, nothing is taken off. *)
Lemma lstrip_with_fixed spaces fuel (s : str) :
  (∀ ws, ws ∈ spaces → ¬ ws `prefix_of` s) →
  PyStr.lstrip_with spaces fuel s = s.
Proof.
  intros Hs. destruct fuel as [|fuel]; [done|]. simpl.
  destruct (PyStr.drop_space spaces s) as [s'|] eqn:Hdrop; [|done].
  apply drop_space_some in Hdrop as (ws & Hin & ->).
  destruct (Hs ws Hin). by apply prefix_app_r.
Qed.

Lemma strip_idemp (s : str) : PyStr.strip (PyStr.strip s) = PyStr.strip s.
Proof.
  assert (PyStr.lstrip (PyStr.strip s) = PyStr.strip s) as Hl.
  { apply lstrip_with_fixed. intros ws Hws. by apply strip_ends. }
  unfold PyStr.strip at 1. rewrite Hl. unfold PyStr.rstrip.
  rewrite lstrip_with_fixed; [apply reverse_involutive|].
  intros ws' Hws'. apply list_elem_of_fmap in Hws' as (ws & -> & Hws).
  intros Hpre. apply prefix_suffix_reverse in Hpre.
  rewrite !reverse_involutive in Hpre. by apply (strip_ends s ws).
Qed.

Lemma sanitized_legal c (s : str) :
  c ∈ PyStr.strip (Yoink.re_sub_illegal s) → Yoink.illegal c = false.
Proof.
  intros Hc. apply strip_elem in Hc.
  unfold Yoink.re_sub_illegal in Hc.
  by apply list_elem_of_filter in Hc as [Hc _].
Qed.

Lemma startswith_no_sep (name : str) :
  OsPath.sep ∉ name → PyStr.startswith name [OsPath.sep] = false.
Proof.
  destruct name as [|c name]; [intros _; apply startswith_nil|].
  intros Hc. rewrite startswith_cons. apply bool_decide_eq_false.
  intros ->. apply Hc. by left.
Qed.

Lemma join_no_sep folder (name : str) :
  OsPath.sep ∉ name → OsPath.join folder name = OsPath.join folder [] ++ name.
Proof.
  intros Hname.
  rewrite (join_relative folder name) by by apply startswith_no_sep.
  rewrite (join_relative folder []) by apply startswith_nil.
  by rewrite app_nil_r, app_assoc.
Qed.

Lemma join_nil_shape folder :
  OsPath.join folder [] = [] ∨ ∃ k, OsPath.join folder [] = k ++ [OsPath.sep].
Proof.
  rewrite (join_relative folder []) by apply startswith_nil.
  rewrite app_nil_r.
  destruct (bool_decide (folder = [])) eqn:Hnil; simpl.
  - apply bool_decide_eq_true in Hnil as ->. by left.
  - destruct (PyStr.endswith folder [OsPath.sep]) eqn:Hend; simpl.
    + right. apply endswith_spec in Hend as [k ->]. rewrite app_nil_r. eauto.
    + right. eauto.
Qed.

Lemma rpartition_dir (dir : str) :
  dir = [] ∨ (∃ k, dir = k ++ [OsPath.sep]) →
  OsPath.rpartition OsPath.sep dir = (dir, []).
Proof. intros [->|[k ->]]; [done|apply rpartition_snoc]. Qed.

(** A name without separator, joined to a folder, is an entry of that
    folder. *)
Lemma join_no_sep_inside folder (name : str) :
  OsPath.sep ∉ name →
  OsPath.basename (OsPath.join folder name) = name
  ∧ OsPath.dirname (OsPath.join folder name)
    = OsPath.dirname (OsPath.join folder []).
Proof.
  intros Hname. rewrite join_no_sep by done.
  pose proof (rpartition_dir _ (join_nil_shape folder)) as Hdir.
  unfold OsPath.basename, OsPath.dirname.
  rewrite rpartition_app by done. by rewrite Hdir.
Qed.
(** Under the by-identifier policy the final path is never the path of
    the temporary file. *)
Lemma item_final_not_temp folder (item : str) :
  OsPath.join folder (item ++ text ".pdf") ≠ Yoink.temp_file_of folder item.
Proof.
  unfold Yoink.temp_file_of. intros Heq.
  apply (f_equal length) in Heq. revert Heq.
  assert (PyStr.startswith (item ++ text "_new.pdf") [OsPath.sep]
          = PyStr.startswith (item ++ text ".pdf") [OsPath.sep]) as Habs.
  { destruct item; simpl; [reflexivity|by rewrite !startswith_cons]. }
  destruct (PyStr.startswith (item ++ text ".pdf") [OsPath.sep]) eqn:Hitem.
  - rewrite !join_absolute by done. rewrite !length_app. simpl. lia.
  - rewrite !join_relative by done. rewrite !length_app. simpl. lia.
Qed.

(** ** The archived name and the archive folder *)

Lemma digit_range n : 48 ≤ nat_of_ascii (PyStr.digit n) ≤ 57.
Proof.
  unfold PyStr.digit. pose proof (Nat.mod_upper_bound n 10).
  rewrite nat_ascii_embedding by lia. lia.
Qed.

Lemma digit_not_sep n : PyStr.digit n ≠ OsPath.sep.
Proof.
  intros Heq. pose proof (digit_range n) as Hn. rewrite Heq in Hn.
  vm_compute in Hn. lia.
Qed.

Lemma strftime_no_sep t : OsPath.sep ∉ strftime t.
Proof.
  unfold strftime, PyStr.pad4, PyStr.pad2.
  change (text "_") with ["_"%char]. cbn [app]. intros Hin.
  repeat (apply elem_of_cons in Hin as [Hin|Hin];
          [first [by apply eq_sym, digit_not_sep in Hin|discriminate]|]).
  by apply elem_of_nil in Hin.
Qed.

Lemma rpartition_head c (p : str) :
  (OsPath.rpartition c p).1 = []
  ∨ ∃ k, (OsPath.rpartition c p).1 = k ++ [c].
Proof.
  induction p as [|x p IH]; [by left|]. simpl.
  destruct (OsPath.rpartition c p) as [[|h0 h] t]; simpl in *.
  - destruct (bool_decide (x = c)) eqn:Hx; simpl; [|by left].
    apply bool_decide_eq_true in Hx as ->. right. by exists [].
  - right. destruct IH as [|[k Hk]]; [done|].
    exists (x :: k). by rewrite Hk.
Qed.

(** The stem that [splitext] gives is the beginning of the path. *)
Lemma splitext_stem_prefix (p : str) : (OsPath.splitext p).1 `prefix_of` p.
Proof.
  unfold OsPath.splitext.
  pose proof (rpartition_concat OsPath.sep p) as Hp.
  destruct (OsPath.rpartition OsPath.sep p) as [dir name]. simpl in Hp.
  pose proof (rpartition_concat "."%char name) as Hname.
  pose proof (rpartition_head "."%char name) as Hhead.
  destruct (OsPath.rpartition "."%char name) as [stem_dot ext].
  simpl in Hname, Hhead.
  destruct Hhead as [->|[k ->]]; [done|].
  assert (∀ a b : str * str,
            match k ++ ["."%char] with [] => a | _ :: _ => b end = b)
    as -> by (intros; by destruct k).
  rewrite length_app. simpl.
  replace (length k + 1 - 1) with (length k) by lia.
  rewrite take_app_length.
  destruct (forallb _ k); simpl; [done|].
  exists ("."%char :: ext). rewrite <- Hp, <- Hname.
  by rewrite <- !app_assoc.
Qed.

(** For a final name without separator, the archived name is an entry of
    the archive folder itself. *)
Lemma archived_name_inside archive_folder final_name t :
  OsPath.sep ∉ final_name →
  OsPath.basename
    (Yoink.archived_name_of archive_folder final_name (strftime t))
  = (OsPath.splitext final_name).1 ++ text "_" ++ strftime t ++ text ".pdf"
  ∧ OsPath.dirname
      (Yoink.archived_name_of archive_folder final_name (strftime t))
    = OsPath.dirname (OsPath.join archive_folder []).
Proof.
  intros Hname. unfold Yoink.archived_name_of.
  apply join_no_sep_inside.
  rewrite !elem_of_app. intros [Hin|[Hin|[Hin|Hin]]].
  - destruct (splitext_stem_prefix final_name) as [k Hk].
    apply Hname. rewrite Hk. apply elem_of_app. by left.
  - revert Hin. not_in_text.
  - by apply strftime_no_sep in Hin.
  - revert Hin. not_in_text.
Qed.

(** The final name of an item without separator has none. *)
Lemma named_no_sep `{PyPDF2} (item : str) (file : option bytes) :
  OsPath.sep ∉ item → OsPath.sep ∉ named item (title_in file).
Proof.
  intros Hitem.
  assert (OsPath.sep ∉ item ++ text ".pdf") as Hfallback.
  { rewrite elem_of_app. intros [?|Hin]; [done|]. revert Hin. not_in_text. }
  unfold title_in. destruct file as [content|]; [|done].
  destruct (pdf_parse content) as [|[[[s|?]|]|]]; try done.
  destruct (bool_decide (s = [])); [done|]. simpl.
  destruct (PyStr.strip (Yoink.re_sub_illegal s)) as [|c t] eqn:Ht; [done|].
  rewrite <- Ht. rewrite elem_of_app. intros [Hin|Hin].
  - by apply sanitized_legal in Hin.
  - revert Hin. not_in_text.
Qed.

(** ** The sync engine *)
Section sync_engine.
Context `{!Hashlib, !PyPDF2}.
Variable w : world.

(** C1, amended.  For an item without a separator, and with the archive
    folder that [main] passes: when the comparison finds that the digest
    of the existing Document File differs from the digest of the Temporary
    File, the task first moves the Document File to its timestamped name
    and then moves the Temporary File onto the final path: these are the
    two last file operations of the task, in this order.  After the first
    move the old content is at the archived name, and it still is at the
    end, with the new content at the final path and no Temporary File.
    The final name has no separator either, and the archived name is an
    entry of the archive folder itself. *)
Theorem archive_before_overwrite category item base_url folder filename_mode
    st final_name st1 old new :
  OsPath.sep ∉ item →
  run w (Yoink.fetch_and_name category item base_url folder filename_mode) st
  = (Returned (Some final_name), st1) →
  files st1 !! OsPath.join folder final_name = Some old →
  files st1 !! Yoink.temp_file_of folder item = Some new →
  Yoink.digest old ≠ Yoink.digest new →
  ∃ st2 archived_name,
    archived_name
    = Yoink.archived_name_of (OsPath.join folder (text "archive")) final_name
        (strftime (clock w (tick st1)))
    ∧ run w (Yoink.process_item category item base_url folder
               (OsPath.join folder (text "archive")) filename_mode) st
      = (Returned tt, st2)
    ∧ trace st2
      = trace st1 ++ [Moved (OsPath.join folder final_name) archived_name;
                      Moved (Yoink.temp_file_of folder item)
                        (OsPath.join folder final_name)]
    ∧ files st2
      = replay [Moved (OsPath.join folder final_name) archived_name;
                Moved (Yoink.temp_file_of folder item)
                  (OsPath.join folder final_name)] (files st1)
    ∧ replay [Moved (OsPath.join folder final_name) archived_name]
        (files st1) !! archived_name = Some old
    ∧ files st2 !! archived_name = Some old
    ∧ files st2 !! OsPath.join folder final_name = Some new
    ∧ files st2 !! Yoink.temp_file_of folder item = None
    ∧ (OsPath.sep ∉ final_name)
    ∧ OsPath.basename archived_name
      = (OsPath.splitext final_name).1 ++ text "_"
        ++ strftime (clock w (tick st1)) ++ text ".pdf"
    ∧ OsPath.dirname archived_name
      = OsPath.dirname (OsPath.join (OsPath.join folder (text "archive")) []).
Proof.
  intros Hitem Hfetch Hfinal Htemp Hdiff.
  assert (OsPath.sep ∉ final_name) as Hname.
  { destruct (fetch_and_name_some w _ _ _ _ _ _ _ _ Hfetch)
      as (resp & doc & _ & _ & _ & _ & _ & _ & _ & _ & _ & _ & ->).
    destruct (bool_decide (filename_mode = text "title"));
      [by apply named_no_sep|].
    rewrite elem_of_app. intros [?|Hin]; [done|]. revert Hin. not_in_text. }
  destruct (fetch_and_name_pdf w _ _ _ _ _ _ _ _ Hfetch) as [x ->].
  destruct (replay_two_moves (files st1)
    (OsPath.join folder (x ++ text ".pdf"))
    (Yoink.archived_name_of (OsPath.join folder (text "archive"))
       (x ++ text ".pdf") (strftime (clock w (tick st1))))
    (Yoink.temp_file_of folder item) old new)
    as (Hmid & Harch & Hnew & Hgone); try done.
  { intros Heq. rewrite Heq in Hfinal. congruence. }
  { apply archived_not_temp. }
  { apply archived_not_final. }
  eexists _, _. split; [reflexivity|]. split.
  { erewrite run_process_item by done. by eapply run_compare_differ. }
  split. { cbn [trace say log next_tick]. by rewrite <- app_assoc. }
  split; [reflexivity|]. split; [exact Hmid|].
  split; [exact Harch|]. split; [exact Hnew|]. split; [exact Hgone|].
  split; [exact Hname|]. by apply archived_name_inside.
Qed.

(** The positive part of C3: when the comparison finds equal digests and
    the final path is not the path of the Temporary File, the task removes
    the Temporary File and nothing else: the Document File is as it was,
    and so is every other path, the archive included. *)
Lemma keep_when_same category item base_url folder archive_folder
    filename_mode st final_name st1 old new :
  run w (Yoink.fetch_and_name category item base_url folder filename_mode) st
  = (Returned (Some final_name), st1) →
  files st1 !! OsPath.join folder final_name = Some old →
  files st1 !! Yoink.temp_file_of folder item = Some new →
  Yoink.digest old = Yoink.digest new →
  OsPath.join folder final_name ≠ Yoink.temp_file_of folder item →
  ∃ st2,
    run w (Yoink.process_item category item base_url folder archive_folder
             filename_mode) st
    = (Returned tt, st2)
    ∧ trace st2 = trace st1 ++ [Removed (Yoink.temp_file_of folder item)]
    ∧ last (stdout st2)
      = Some (Yoink.tag category item ++ text "Up to date.")
    ∧ files st2 !! Yoink.temp_file_of folder item = None
    ∧ files st2 !! OsPath.join folder final_name = Some old
    ∧ ∀ p, p ≠ Yoink.temp_file_of folder item →
           files st2 !! p = files st1 !! p.
Proof.
  intros Hfetch Hfinal Htemp Hsame Hne.
  eexists. split.
  { erewrite run_process_item by done. by eapply run_compare_same. }
  cbn [trace stdout files say log apply_event].
  split; [done|]. split; [apply last_snoc|].
  split; [apply lookup_delete_eq|].
  split; [by rewrite lookup_delete_ne|].
  intros p Hp. by rewrite lookup_delete_ne.
Qed.

(** The positive part of C7: a task that reached the comparison, with a
    final path that is not the path of its Temporary File, leaves the
    Document File in place with the digest of the fetched content, and no
    Temporary File; run again against an unchanged remote, it downloads,
    finds equal digests, removes the Temporary File and leaves the files as
    they were. *)
Lemma first_run_result category item base_url folder filename_mode st
    final_name st1 new :
  run w (Yoink.fetch_and_name category item base_url folder filename_mode) st
  = (Returned (Some final_name), st1) →
  files st1 !! Yoink.temp_file_of folder item = Some new →
  OsPath.join folder final_name ≠ Yoink.temp_file_of folder item →
  ∃ st2 content,
    run w (Yoink.process_item category item base_url folder
             (OsPath.join folder (text "archive")) filename_mode) st
    = (Returned tt, st2)
    ∧ files st2 !! Yoink.temp_file_of folder item = None
    ∧ files st2 !! OsPath.join folder final_name = Some content
    ∧ Yoink.digest content = Yoink.digest new.
Proof.
  intros Hfetch Htemp Hne.
  destruct (files st1 !! OsPath.join folder final_name) as [old|] eqn:Hfinal.
  - destruct (decide (Yoink.digest old = Yoink.digest new)) as [Hsame|Hdiff].
    + destruct (keep_when_same _ _ _ _ (OsPath.join folder (text "archive"))
                  _ _ _ _ _ _ Hfetch Hfinal Htemp Hsame Hne)
        as (st2 & Hrun & _ & _ & Hgone & Hkept & _).
      by exists st2, old.
    + destruct (fetch_and_name_pdf w _ _ _ _ _ _ _ _ Hfetch) as [x ->].
      destruct (replay_two_moves (files st1)
        (OsPath.join folder (x ++ text ".pdf"))
        (Yoink.archived_name_of (OsPath.join folder (text "archive"))
           (x ++ text ".pdf") (strftime (clock w (tick st1))))
        (Yoink.temp_file_of folder item) old new)
        as (_ & _ & Hnew & Hgone); try done.
      { apply archived_not_temp. }
      { apply archived_not_final. }
      eexists _, new. split.
      { erewrite run_process_item by done. by eapply run_compare_differ. }
      split; [exact Hgone|]. split; [exact Hnew|done].
  - eexists _, new. split.
    { erewrite run_process_item by done. by eapply run_compare_missing. }
    cbn [files say log apply_event]. rewrite Htemp.
    split; [|split; [apply lookup_insert_eq|done]].
    rewrite lookup_insert_ne by done. apply lookup_delete_eq.
Qed.

Lemma rerun_is_noop category item base_url folder filename_mode st
    final_name st1 st2 :
  (∀ n u, http w n u = http w 0 u) →
  run w (Yoink.fetch_and_name category item base_url folder filename_mode) st
  = (Returned (Some final_name), st1) →
  OsPath.join folder final_name ≠ Yoink.temp_file_of folder item →
  run w (Yoink.process_item category item base_url folder
           (OsPath.join folder (text "archive")) filename_mode) st
  = (Returned tt, st2) →
  ∃ st3,
    run w (Yoink.process_item category item base_url folder
             (OsPath.join folder (text "archive")) filename_mode) st2
    = (Returned tt, st3)
    ∧ last (stdout st3)
      = Some (Yoink.tag category item ++ text "Up to date.")
    ∧ files st3 = files st2
    ∧ is_Some (files st3 !! OsPath.join folder final_name)
    ∧ files st3 !! Yoink.temp_file_of folder item = None.
Proof.
  intros Hsame Hfetch Hne Hrun.
  destruct (fetch_and_name_some w _ _ _ _ _ _ _ _ Hfetch)
    as (resp & doc & Hresp & Hbroken & Hstatus & Hpdf & Hdoc & Hstatus'
        & Hbroken' & Hfiles & _ & _ & Hname).
  assert (files st1 !! Yoink.temp_file_of folder item
          = Some (concat (iter_content doc))) as Htemp
    by (rewrite Hfiles; apply lookup_insert_eq).
  destruct (first_run_result _ _ _ _ _ _ _ _ _ Hfetch Htemp Hne)
    as (st2' & content & Hrun' & Hgone & Hkept & Hdigest).
  rewrite Hrun in Hrun'. injection Hrun' as <-.
  rewrite Hsame in Hresp. rewrite Hsame in Hdoc.
  destruct (fetch_and_name_ok w category item base_url folder filename_mode
              st2 resp doc) as (st2' & Hfetch' & Hfiles');
    try done; try (by rewrite Hsame).
  rewrite <- Hname in Hfetch'.
  destruct (keep_when_same _ _ _ _ (OsPath.join folder (text "archive"))
              _ _ _ _ content (concat (iter_content doc)) Hfetch')
    as (st3 & Hrun3 & _ & Hsaid & Hgone3 & Hkept3 & Hother); try done.
  { rewrite Hfiles'. by rewrite lookup_insert_ne. }
  { rewrite Hfiles'. apply lookup_insert_eq. }
  exists st3. split; [done|]. split; [done|].
  split; [|split; [by rewrite Hkept3|done]].
  apply map_eq. intros p.
  destruct (decide (p = Yoink.temp_file_of folder item)) as [->|Hp].
  - by rewrite Hgone3, Hgone.
  - rewrite Hother, Hfiles' by done. by rewrite lookup_insert_ne.
Qed.


(** C4 (amended).  [resolve_pdf_url] returns None for every response whose
    status is not 200 or whose URL has no [.pdf] in it.  It does not catch
    the failure of the request (no response, or a broken body): the
    exception goes to its caller, and [process_item] does not catch it
    either. *)
Theorem resolve_not_found_or_raises category item base_url folder
    archive_folder filename_mode st :
  (∀ resp,
     http w (tick st) (base_url ++ UrlLib.quote_plus item) = Reply resp →
     broken resp = false →
     status_code resp ≠ 200%Z
     ∨ PyStr.contains (text ".pdf") (url resp) = false →
     run w (Yoink.resolve_pdf_url base_url item) st
     = (Returned None, next_tick st))
  ∧ (http w (tick st) (base_url ++ UrlLib.quote_plus item) = NoReply
     ∨ (∃ resp,
          http w (tick st) (base_url ++ UrlLib.quote_plus item) = Reply resp
          ∧ broken resp = true) →
     (run w (Yoink.resolve_pdf_url base_url item) st).1
     = Raised RequestException
     ∧ (run w (Yoink.process_item category item base_url folder
                 archive_folder filename_mode) st).1
       = Raised RequestException).
Proof.
  split.
  - intros resp Hresp Hbroken Hno.
    rewrite run_resolve, Hresp, Hbroken.
    destruct Hno as [Hstatus|Hpdf].
    + by rewrite bool_decide_eq_false_2.
    + by rewrite Hpdf, andb_false_r.
  - intros Hfail.
    assert (run w (Yoink.resolve_pdf_url base_url item)
              (say (Yoink.tag category item ++ text "Checking...") st)
            = (Raised RequestException,
               next_tick
                 (say (Yoink.tag category item ++ text "Checking...") st))
            ∧ (run w (Yoink.resolve_pdf_url base_url item) st).1
              = Raised RequestException) as [Hrun Hrun'].
    { rewrite !run_resolve. cbn [tick say].
      destruct Hfail as [->|(resp & -> & ->)]; done. }
    split; [done|].
    unfold Yoink.process_item, Yoink.fetch_and_name.
    rewrite run_bind, run_bind, run_print. cbv beta iota.
    by rewrite run_bind, Hrun.
Qed.

(** C6 (amended).  For a response with an unbroken body,
    [resolve_pdf_url] returns its URL exactly when the status is 200 and
    [.pdf] occurs somewhere in the URL, and None otherwise. *)
Theorem resolve_returns_url_iff base_url item st resp :
  http w (tick st) (base_url ++ UrlLib.quote_plus item) = Reply resp →
  broken resp = false →
  ((run w (Yoink.resolve_pdf_url base_url item) st).1
   = Returned (Some (url resp))
   ↔ status_code resp = 200%Z ∧ ∃ a b, url resp = a ++ text ".pdf" ++ b)
  ∧ ((run w (Yoink.resolve_pdf_url base_url item) st).1 = Returned None
     ↔ ¬ (status_code resp = 200%Z ∧ ∃ a b, url resp = a ++ text ".pdf" ++ b)).
Proof.
  intros Hresp Hbroken. rewrite run_resolve, Hresp, Hbroken.
  rewrite <- contains_spec. cbn [fst].
  destruct (bool_decide (status_code resp = 200%Z)) eqn:Hstatus;
    [apply bool_decide_eq_true in Hstatus
    |apply bool_decide_eq_false in Hstatus];
    destruct (PyStr.contains (text ".pdf") (url resp)); cbn [andb];
    repeat split; try done;
    try (by intros [? ?]); try (intros _ [? ?]; done).
  intros Hno. by destruct Hno.
Qed.

(** C5.  Under any policy but by-title the final name is the item with
    [.pdf]; under by-title it is so whenever the Title Extractor gives no
    title or an empty one, which it does when the file cannot be read as a
    PDF, has no metadata, has no title, or has a title that sanitizes to
    nothing.  The name is never empty. *)
Theorem final_name_falls_back_to_item category item filename_mode temp_file
    st :
  (filename_mode ≠ text "title" →
   run w (Yoink.final_name_of category item filename_mode temp_file) st
   = (Returned (item ++ text ".pdf"), st))
  ∧ (∀ title,
       (run w (Yoink.get_pdf_title temp_file) st).1 = Returned title →
       title = None ∨ title = Some [] →
       (run w (Yoink.final_name_of category item (text "title") temp_file)
          st).1
       = Returned (item ++ text ".pdf"))
  ∧ (∀ content,
       files st !! temp_file = Some content →
       pdf_parse content = Unreadable
       ∨ pdf_parse content = Pdf None
       ∨ pdf_parse content = Pdf (Some None)
       ∨ (∃ s, pdf_parse content = Pdf (Some (Some (PyString s)))
               ∧ PyStr.strip (Yoink.re_sub_illegal s) = []) →
       (run w (Yoink.get_pdf_title temp_file) st).1 = Returned None
       ∨ (run w (Yoink.get_pdf_title temp_file) st).1 = Returned (Some []))
  ∧ item ++ text ".pdf" ≠ [].
Proof.
  split; [|split; [|split]].
  - intros Hmode. rewrite run_final_name_of.
    by rewrite bool_decide_eq_false_2.
  - intros title. rewrite run_get_pdf_title, run_final_name_of.
    cbn [fst]. intros [= <-] Htitle.
    rewrite bool_decide_eq_true_2 by done.
    by destruct Htitle as [-> | ->].
  - intros content Hfile Hparse. rewrite run_get_pdf_title, Hfile.
    cbn [fst]. unfold title_in.
    destruct Hparse as [-> | [-> | [-> | (s & -> & Hs)]]]; auto.
    destruct (bool_decide (s = [])); [by left|]. right. by rewrite Hs.
  - by destruct item.
Qed.

(** C9 (amended).  Every title the Title Extractor returns is free of the
    nine characters of its character class; when it is not empty, the
    final name is that title with [.pdf], it has no separator in it, and
    the final path is an entry of the storage folder itself. *)
Theorem sanitized_title_stays_in_folder category item temp_file st title :
  (run w (Yoink.get_pdf_title temp_file) st).1 = Returned (Some title) →
  (∀ c, c ∈ title → Yoink.illegal c = false)
  ∧ (title ≠ [] →
     (run w (Yoink.final_name_of category item (text "title") temp_file)
        st).1
     = Returned (title ++ text ".pdf")
     ∧ (OsPath.sep ∉ (title ++ text ".pdf"))
     ∧ ∀ folder,
         OsPath.basename (OsPath.join folder (title ++ text ".pdf"))
         = title ++ text ".pdf"
         ∧ OsPath.dirname (OsPath.join folder (title ++ text ".pdf"))
           = OsPath.dirname (OsPath.join folder [])).
Proof.
  rewrite run_get_pdf_title. cbn [fst]. intros [= Htitle].
  assert (∀ c, c ∈ title → Yoink.illegal c = false) as Hlegal.
  { intros c Hc. unfold title_in in Htitle.
    destruct (files st !! temp_file) as [content|]; [|done].
    destruct (pdf_parse content) as [|[[[s|?]|]|]]; try done.
    destruct (bool_decide (s = [])); [done|].
    injection Htitle as <-. by eapply sanitized_legal. }
  split; [done|]. intros Hne.
  assert (OsPath.sep ∉ (title ++ text ".pdf")) as Hsep.
  { intros Hin. apply elem_of_app in Hin as [Hin|Hin].
    - by apply Hlegal in Hin.
    - revert Hin. not_in_text. }
  split; [|split; [done|]].
  - rewrite run_final_name_of, Htitle.
    rewrite bool_decide_eq_true_2 by done. by destruct title.
  - intros folder. by apply join_no_sep_inside.
Qed.

End sync_engine.

(** ** The sync engine at sample inputs *)
Section samples.
#[local] Existing Instance Sample.hashlib.
#[local] Existing Instance Sample.pypdf2.
#[local] Existing Instance Sample.casefold.

(** C1, as stated, fails for an item with a separator: the item
    [../ABC123] is a string, which [validate_config] accepts.  The task
    returns, and the old content is moved to a timestamped name that is
    not in the archive folder [/tmp/x/archive]: the path names an entry of
    the storage folder [/tmp/x]. *)
Lemma archive_lands_outside_archive_folder :
  (run (Sample.server_for
          (Sample.search ++ UrlLib.quote_plus (text "../ABC123"))
          Sample.pdf_url
          (Sample.ok Sample.pdf_url [Sample.data "new bytes"]))
     (Yoink.process_item
        (text "parts") (text "../ABC123") Sample.search
        (text "/tmp/x") (text "/tmp/x/archive") (text "item"))
     (Sample.on_disk [(text "/tmp/x/../ABC123.pdf", Sample.data "old bytes")])).1
  = Returned tt
  ∧ files
      (run (Sample.server_for
              (Sample.search ++ UrlLib.quote_plus (text "../ABC123"))
              Sample.pdf_url
              (Sample.ok Sample.pdf_url [Sample.data "new bytes"]))
         (Yoink.process_item
            (text "parts") (text "../ABC123") Sample.search
            (text "/tmp/x") (text "/tmp/x/archive") (text "item"))
         (Sample.on_disk
            [(text "/tmp/x/../ABC123.pdf", Sample.data "old bytes")])).2
    !! text "/tmp/x/archive/../ABC123_20240102_120000.pdf"
    = Some (Sample.data "old bytes")
  ∧ OsPath.normpath (text "/tmp/x/archive/../ABC123_20240102_120000.pdf")
    = text "/tmp/x/ABC123_20240102_120000.pdf"
  ∧ OsPath.dirname
      (OsPath.normpath (text "/tmp/x/archive/../ABC123_20240102_120000.pdf"))
    = text "/tmp/x"
  ∧ OsPath.dirname (text "/tmp/x/archive/../ABC123_20240102_120000.pdf")
    ≠ text "/tmp/x/archive".
Proof.
  repeat split; try (vm_compute; reflexivity). vm_compute. discriminate.
Qed.

Lemma archive_before_overwrite_witness :
  ∃ st2,
    run (Sample.server Sample.pdf_url
           (Sample.ok Sample.pdf_url [Sample.data "new "; Sample.data "bytes"]))
      (Yoink.process_item
         (text "parts") (text "ABC123") Sample.search
         (text "/tmp/x") (text "/tmp/x/archive") (text "item"))
      (Sample.on_disk [(text "/tmp/x/ABC123.pdf", Sample.data "old bytes")])
    = (Returned tt, st2)
    ∧ files st2 !! text "/tmp/x/archive/ABC123_20240102_120000.pdf"
      = Some (Sample.data "old bytes")
    ∧ files st2 !! text "/tmp/x/ABC123.pdf" = Some (Sample.data "new bytes").
Proof.
  pose (w := Sample.server Sample.pdf_url
         (Sample.ok Sample.pdf_url [Sample.data "new "; Sample.data "bytes"])).
  pose (st := Sample.on_disk
         [(text "/tmp/x/ABC123.pdf", Sample.data "old bytes")]).
  destruct (archive_before_overwrite
    w (text "parts") (text "ABC123") Sample.search (text "/tmp/x") (text "item")
    st (text "ABC123.pdf")
    (run w (Yoink.fetch_and_name (text "parts")
              (text "ABC123") Sample.search (text "/tmp/x") (text "item")) st).2
    (Sample.data "old bytes") (Sample.data "new bytes"))
    as (st2 & archived & -> & Hrun & _ & _ & _ & Harch & Hfinal & _).
  - not_in_text.
  - vm_compute. reflexivity.
  - vm_compute. reflexivity.
  - vm_compute. reflexivity.
  - vm_compute. discriminate.
  - exists st2. split; [exact Hrun|]. split; [exact Harch|exact Hfinal].
Defined.



(** C4, as stated, fails: when no server answers, [resolve_pdf_url]
    raises. *)
Lemma resolve_raises_when_offline :
  (run Sample.offline
     (Yoink.resolve_pdf_url Sample.search (text "ABC123"))
     (Sample.on_disk [])).1
  = Raised RequestException.
Proof. vm_compute. reflexivity. Qed.

Lemma resolve_not_found_or_raises_witness :
  (run Sample.offline
     (Yoink.process_item
        (text "parts") (text "ABC123") Sample.search
        (text "/tmp/x") (text "/tmp/x/archive") (text "item"))
     (Sample.on_disk [])).1
  = Raised RequestException.
Proof.
  destruct (resolve_not_found_or_raises Sample.offline
    (text "parts") (text "ABC123") Sample.search
    (text "/tmp/x") (text "/tmp/x/archive") (text "item")
    (Sample.on_disk [])) as [_ Hraise].
  apply Hraise. left. vm_compute. reflexivity.
Defined.

(** C6, as stated, fails: the final URL has [.pdf] in its path without
    ending in it, and [resolve_pdf_url] returns it. *)
Lemma resolve_accepts_pdf_inside_url :
  PyStr.endswith (text "https://example/lit/abc123.pdf.html") (text ".pdf")
  = false
  ∧ (run (Sample.server (text "https://example/lit/abc123.pdf.html")
            (Sample.ok (text "https://example/lit/abc123.pdf.html") []))
       (Yoink.resolve_pdf_url Sample.search (text "ABC123"))
       (Sample.on_disk [])).1
    = Returned (Some (text "https://example/lit/abc123.pdf.html")).
Proof. split; vm_compute; reflexivity. Qed.

Lemma resolve_returns_url_iff_witness :
  (run (Sample.server Sample.pdf_url (Sample.ok Sample.pdf_url []))
     (Yoink.resolve_pdf_url Sample.search (text "ABC123"))
     (Sample.on_disk [])).1
  = Returned (Some Sample.pdf_url).
Proof.
  apply (resolve_returns_url_iff
    (Sample.server Sample.pdf_url (Sample.ok Sample.pdf_url []))
    Sample.search (text "ABC123") (Sample.on_disk [])
    (Sample.ok Sample.pdf_url [])).
  - vm_compute. reflexivity.
  - reflexivity.
  - split; [reflexivity|].
    exists (text "https://example/lit/abc123"), []. reflexivity.
Defined.

Lemma final_name_falls_back_to_item_witness :
  (run Sample.offline
     (Yoink.final_name_of (text "parts") (text "ABC123")
        (text "title") (text "/tmp/x/ABC123_new.pdf"))
     (Sample.on_disk
        [(text "/tmp/x/ABC123_new.pdf", Sample.data "not a pdf")])).1
  = Returned (text "ABC123.pdf").
Proof.
  destruct (final_name_falls_back_to_item
    Sample.offline (text "parts") (text "ABC123") (text "title")
    (text "/tmp/x/ABC123_new.pdf")
    (Sample.on_disk [(text "/tmp/x/ABC123_new.pdf", Sample.data "not a pdf")]))
    as (_ & Hnone & _ & _).
  apply (Hnone None); [vm_compute; reflexivity|by left].
Defined.

(** C9, as stated, fails: the title is a question mark, the Title
    Extractor returns the empty string, and the final name is made from the
    item, whose separators are kept: the final path is outside the storage
    folder, and the task writes the document there. *)
Lemma empty_title_keeps_separators_of_item :
  (run Sample.offline
     (Yoink.get_pdf_title
        (text "/tmp/x/../ABC123_new.pdf"))
     (Sample.on_disk [(text "/tmp/x/../ABC123_new.pdf", Sample.data "T?")])).1
  = Returned (Some [])
  ∧ (run Sample.offline
       (Yoink.final_name_of (text "parts")
          (text "../ABC123") (text "title") (text "/tmp/x/../ABC123_new.pdf"))
       (Sample.on_disk
          [(text "/tmp/x/../ABC123_new.pdf", Sample.data "T?")])).1
    = Returned (text "../ABC123.pdf")
  ∧ OsPath.sep ∈ text "../ABC123.pdf"
  ∧ OsPath.dirname (OsPath.join (text "/tmp/x") (text "../ABC123.pdf"))
    = text "/tmp/x/.."
  ∧ OsPath.normpath (OsPath.join (text "/tmp/x") (text "../ABC123.pdf"))
    = text "/tmp/ABC123.pdf"
  ∧ files
      (run (Sample.server_for
              (Sample.search ++ UrlLib.quote_plus (text "../ABC123"))
              Sample.pdf_url (Sample.ok Sample.pdf_url [Sample.data "T?"]))
         (Yoink.process_item (text "parts") (text "../ABC123") Sample.search
            (text "/tmp/x") (text "/tmp/x/archive") (text "title"))
         (Sample.on_disk [])).2
    !! text "/tmp/x/../ABC123.pdf"
    = Some (Sample.data "T?").
Proof.
  repeat split; try (vm_compute; reflexivity).
  apply list_elem_of_In. vm_compute. tauto.
Qed.

Lemma sanitized_title_stays_in_folder_witness :
  OsPath.dirname (OsPath.join (text "/tmp/x") (text "LM358 data sheet.pdf"))
  = text "/tmp/x"
  ∧ (run Sample.offline
       (Yoink.final_name_of (text "parts")
          (text "ABC123") (text "title") (text "/tmp/x/ABC123_new.pdf"))
       (Sample.on_disk
          [(text "/tmp/x/ABC123_new.pdf",
            Sample.data "T ../LM358: data sheet? ")])).1
    = Returned (text "..LM358 data sheet.pdf").
Proof.
  destruct (sanitized_title_stays_in_folder
    Sample.offline (text "parts") (text "ABC123")
    (text "/tmp/x/ABC123_new.pdf")
    (Sample.on_disk
       [(text "/tmp/x/ABC123_new.pdf",
         Sample.data "T ../LM358: data sheet? ")])
    (text "..LM358 data sheet")) as [_ Hname].
  { vm_compute. reflexivity. }
  destruct Hname as (Hrun & _ & _); [discriminate|].
  split; [vm_compute; reflexivity|exact Hrun].
Defined.

(** C3 fails when the title is the item with [_new]: the final path is then
    the path of the Temporary File.  The Document File is on disk with the
    bytes of the remote document; the task downloads onto it, finds the
    file equal to itself, and removes it. *)
Theorem same_path_deletes_document :
  files (Sample.on_disk
           [(text "/tmp/x/ABC123_new.pdf", Sample.data "TABC123_new")])
    !! text "/tmp/x/ABC123_new.pdf"
  = Some (Sample.data "TABC123_new")
  ∧ (run (Sample.server Sample.pdf_url
            (Sample.ok Sample.pdf_url [Sample.data "TABC123_new"]))
       (Yoink.fetch_and_name
          (text "parts") (text "ABC123") Sample.search
          (text "/tmp/x") (text "title"))
       (Sample.on_disk
          [(text "/tmp/x/ABC123_new.pdf", Sample.data "TABC123_new")])).1
    = Returned (Some (text "ABC123_new.pdf"))
  ∧ OsPath.join (text "/tmp/x") (text "ABC123_new.pdf")
    = Yoink.temp_file_of (text "/tmp/x") (text "ABC123")
  ∧ (run (Sample.server Sample.pdf_url
            (Sample.ok Sample.pdf_url [Sample.data "TABC123_new"]))
       (Yoink.process_item
          (text "parts") (text "ABC123") Sample.search
          (text "/tmp/x") (text "/tmp/x/archive") (text "title"))
       (Sample.on_disk
          [(text "/tmp/x/ABC123_new.pdf", Sample.data "TABC123_new")])).1
    = Returned tt
  ∧ last (stdout
      (run (Sample.server Sample.pdf_url
              (Sample.ok Sample.pdf_url [Sample.data "TABC123_new"]))
         (Yoink.process_item
            (text "parts") (text "ABC123") Sample.search
            (text "/tmp/x") (text "/tmp/x/archive") (text "title"))
         (Sample.on_disk
            [(text "/tmp/x/ABC123_new.pdf", Sample.data "TABC123_new")])).2)
    = Some (text "[parts] [ABC123] Up to date.")
  ∧ files
      (run (Sample.server Sample.pdf_url
              (Sample.ok Sample.pdf_url [Sample.data "TABC123_new"]))
         (Yoink.process_item
            (text "parts") (text "ABC123") Sample.search
            (text "/tmp/x") (text "/tmp/x/archive") (text "title"))
         (Sample.on_disk
            [(text "/tmp/x/ABC123_new.pdf", Sample.data "TABC123_new")])).2
    !! text "/tmp/x/ABC123_new.pdf"
    = None.
Proof. repeat split; vm_compute; reflexivity. Qed.

(** C7 fails on the same task: the remote document is unchanged, both runs
    end with the line of the no-op branch, and after the second run no
    Document File is on disk at all. *)
Theorem twice_same_path_leaves_nothing :
  twice_same_path.1 = Returned tt
  ∧ stdout twice_same_path.2
    = [text "[parts] [ABC123] Checking...";
       text "[parts] [ABC123] Up to date.";
       text "[parts] [ABC123] Checking...";
       text "[parts] [ABC123] Up to date."]
  ∧ files twice_same_path.2 = ∅.
Proof. repeat split; vm_compute; reflexivity. Qed.

End samples.

(** ** The index generator *)

Lemma leb_total (a b : str) : PyStr.leb a b = false → PyStr.leb b a = true.
Proof.
  revert b. induction a as [|x a IH]; intros [|y b]; simpl; try done.
  destruct (nat_of_ascii x <? nat_of_ascii y) eqn:Hxy; [done|].
  destruct (nat_of_ascii y <? nat_of_ascii x) eqn:Hyx; [done|].
  apply IH.
Qed.

Lemma leb_trans (a b c : str) :
  PyStr.leb a b = true → PyStr.leb b c = true → PyStr.leb a c = true.
Proof.
  revert b c. induction a as [|x a IH]; intros [|y b] [|z c]; simpl;
    try done.
  destruct (nat_of_ascii x <? nat_of_ascii y) eqn:Hxy;
    destruct (nat_of_ascii y <? nat_of_ascii x) eqn:Hyx;
    destruct (nat_of_ascii y <? nat_of_ascii z) eqn:Hyz;
    destruct (nat_of_ascii z <? nat_of_ascii y) eqn:Hzy;
    destruct (nat_of_ascii x <? nat_of_ascii z) eqn:Hxz;
    destruct (nat_of_ascii z <? nat_of_ascii x) eqn:Hzx;
    try done;
    repeat match goal with
    | H : (_ <? _) = true |- _ => apply Nat.ltb_lt in H
    | H : (_ <? _) = false |- _ => apply Nat.ltb_ge in H
    end; try lia.
  apply IH.
Qed.

Section sorted.
Variable key : str → str.

Lemma insert_by_perm x l : GenerateIndex.insert_by key x l ≡ₚ x :: l.
Proof.
  induction l as [|y l IH]; simpl; [done|].
  destruct (PyStr.leb (key x) (key y)); [done|].
  rewrite IH. apply Permutation_swap.
Qed.

Lemma sorted_perm l : GenerateIndex.sorted key l ≡ₚ l.
Proof.
  induction l as [|x l IH]; simpl; [done|].
  by rewrite insert_by_perm, IH.
Qed.

Lemma insert_by_sorted x l :
  StronglySorted (key_le key) l →
  StronglySorted (key_le key) (GenerateIndex.insert_by key x l).
Proof.
  induction 1 as [|y l Hl IH Hy]; simpl.
  - repeat constructor.
  - destruct (PyStr.leb (key x) (key y)) eqn:Hxy.
    + constructor; [by constructor|].
      constructor; [done|].
      eapply Forall_impl; [exact Hy|].
      intros z Hz. by eapply leb_trans.
    + constructor; [done|].
      rewrite insert_by_perm. constructor; [|done].
      by apply leb_total.
Qed.

Lemma sorted_sorted l : StronglySorted (key_le key) (GenerateIndex.sorted key l).
Proof.
  induction l as [|x l IH]; simpl; [constructor|].
  by apply insert_by_sorted.
Qed.

(** The sort is stable: names with the same key keep their order. *)
Lemma insert_by_front x l :
  Forall (λ y, PyStr.leb (key x) (key y) = true) l →
  GenerateIndex.insert_by key x l = x :: l.
Proof. destruct 1 as [|y l Hy _]; simpl; [done|]. by rewrite Hy. Qed.

End sorted.

Lemma lower_app (a b : str) : PyStr.lower (a ++ b) = PyStr.lower a ++ PyStr.lower b.
Proof. apply map_app. Qed.

(** A leftover temporary file does not end in [.html], whatever the case
    of its letters. *)
Lemma temp_name_not_html (item : str) :
  PyStr.endswith (PyStr.lower (item ++ text "_new.pdf")) (text ".html") = false.
Proof.
  apply not_true_is_false. intros Hend.
  apply endswith_spec in Hend as [k Hk]. rewrite lower_app in Hk.
  change (PyStr.lower (text "_new.pdf")) with (text "_ne" ++ text "w.pdf") in Hk.
  rewrite app_assoc in Hk.
  apply app_inj_2 in Hk as [_ Hk]; [|reflexivity]. discriminate.
Qed.

Lemma has_surrogate_app_r (a b : str) :
  PyStr.has_surrogate b = true → PyStr.has_surrogate (a ++ b) = true.
Proof.
  intros Hb. induction a as [|c a IH]; [done|].
  cbn [app PyStr.has_surrogate]. rewrite IH. apply orb_true_r.
Qed.

Lemma has_surrogate_app_l (a b : str) :
  PyStr.has_surrogate a = true → PyStr.has_surrogate (a ++ b) = true.
Proof.
  induction a as [|c a IH]; [done|].
  cbn [app PyStr.has_surrogate]. intros Ha.
  apply orb_true_iff in Ha as [Ha|Ha].
  - destruct a as [|c' a]; [by rewrite andb_false_r in Ha|].
    cbn [app]. by rewrite Ha.
  - rewrite IH by done. apply orb_true_r.
Qed.

(** Where the second part starts with an ASCII character, no surrogate
    lies across the two parts. *)
Lemma has_surrogate_app (a : str) (c : ascii) (b : str) :
  nat_of_ascii c < 160 →
  PyStr.has_surrogate (a ++ c :: b)
  = PyStr.has_surrogate a || PyStr.has_surrogate (c :: b).
Proof.
  intros Hc. induction a as [|x a IH]; [done|].
  cbn [app]. cbn [PyStr.has_surrogate] in *. rewrite IH.
  destruct a as [|y a]; cbn [app].
  - apply Nat.leb_gt in Hc. rewrite Hc, andb_false_r. done.
  - by rewrite orb_assoc.
Qed.

(** An ASCII text before a string adds no surrogate to it. *)
Lemma has_surrogate_ascii_app (a b : str) :
  forallb (λ c, nat_of_ascii c <? 128) a = true →
  PyStr.has_surrogate (a ++ b) = PyStr.has_surrogate b.
Proof.
  induction a as [|c a IH]; [done|].
  cbn [forallb app PyStr.has_surrogate]. intros Ha.
  apply andb_true_iff in Ha as [Hc Ha]. apply Nat.ltb_lt in Hc.
  rewrite bool_decide_eq_false_2 by lia. by rewrite IH.
Qed.

(** The head of the page: the heading in its line, and the opening of the
    list at the end. *)
Lemma html_head_parts (heading : str) :
  ∃ top rest,
    GenerateIndex.html_head heading
    = top ++ text "  <h1>" ++ heading ++ text "</h1>" ++ rest
      ++ text "  <ul>" ++ [GenerateIndex.nl]
    ∧ forallb (λ c, nat_of_ascii c <? 128) top = true
    ∧ forallb (λ c, nat_of_ascii c <? 128) rest = true.
Proof.
  exists (take 849 (GenerateIndex.html_head [])).
  exists (take 83 (drop 860 (GenerateIndex.html_head []))).
  split; [|split; vm_compute; reflexivity].
  unfold GenerateIndex.html_head, GenerateIndex.lines.
  cbn [map concat]. rewrite <- !app_assoc. vm_compute. reflexivity.
Qed.

Lemma has_surrogate_item (f : str) :
  PyStr.has_surrogate (GenerateIndex.html_item f) = PyStr.has_surrogate f.
Proof.
  unfold GenerateIndex.html_item, GenerateIndex.quoted.
  rewrite <- app_comm_cons, <- (app_assoc f).
  change (text "    <li><a href=" ++ GenerateIndex.dq :: f ++ [GenerateIndex.dq]
          ++ text ">" ++ f ++ text "</a></li>" ++ [GenerateIndex.nl])
    with (text "    <li><a href=" ++ GenerateIndex.dq
          :: f ++ GenerateIndex.dq
          :: ">"%char :: f ++ "<"%char :: text "/a></li>" ++ [GenerateIndex.nl]).
  rewrite has_surrogate_app by (vm_compute; lia).
  change (PyStr.has_surrogate (text "    <li><a href=")) with false.
  cbn [orb PyStr.has_surrogate]. rewrite bool_decide_eq_false_2 by (vm_compute; lia).
  cbn [andb orb].
  rewrite has_surrogate_app by (vm_compute; lia).
  cbn [PyStr.has_surrogate]. rewrite bool_decide_eq_false_2 by (vm_compute; lia).
  rewrite (bool_decide_eq_false_2 (nat_of_ascii ">"%char = 237)) by (vm_compute; lia).
  cbn [andb orb].
  rewrite has_surrogate_app by (vm_compute; lia).
  change (PyStr.has_surrogate ("<"%char :: text "/a></li>" ++ [GenerateIndex.nl])) with false.
  by destruct (PyStr.has_surrogate f).
Qed.

Lemma has_surrogate_items (l : list str) (tail : str) (c : ascii) :
  nat_of_ascii c < 160 →
  PyStr.has_surrogate (concat (map GenerateIndex.html_item l) ++ c :: tail)
  = existsb PyStr.has_surrogate l || PyStr.has_surrogate (c :: tail).
Proof.
  intros Hc. induction l as [|f l IH]; [done|].
  cbn [map concat existsb]. rewrite <- app_assoc.
  destruct (concat (map GenerateIndex.html_item l) ++ c :: tail) as [|x rest] eqn:Hrest.
  { by destruct (concat _). }
  assert (nat_of_ascii x < 160) as Hx.
  { destruct l as [|g l]; cbn in Hrest.
    - by injection Hrest as <- _.
    - injection Hrest as <- _. vm_compute. lia. }
  rewrite has_surrogate_app by done.
  rewrite has_surrogate_item, IH. by rewrite orb_assoc.
Qed.

Lemma has_surrogate_page (heading : str) (l : list str) :
  PyStr.has_surrogate
    (GenerateIndex.html_head heading
     ++ concat (map GenerateIndex.html_item l) ++ GenerateIndex.html_tail)
  = PyStr.has_surrogate heading || existsb PyStr.has_surrogate l.
Proof.
  destruct (html_head_parts heading) as (top & rest & -> & Htop & Hrest).
  rewrite <- !app_assoc.
  rewrite (has_surrogate_ascii_app top) by done.
  rewrite (has_surrogate_ascii_app (text "  <h1>")) by done.
  change (text "</h1>" ++ ?x) with ("<"%char :: text "/h1>" ++ x).
  rewrite has_surrogate_app by (vm_compute; lia).
  f_equal.
  change ("<"%char :: text "/h1>" ++ ?x) with (text "</h1>" ++ x).
  rewrite (has_surrogate_ascii_app (text "</h1>")) by done.
  rewrite (has_surrogate_ascii_app rest) by done.
  rewrite (has_surrogate_ascii_app (text "  <ul>")) by done.
  rewrite (has_surrogate_ascii_app [GenerateIndex.nl]) by done.
  change GenerateIndex.html_tail
    with (" "%char :: tail GenerateIndex.html_tail).
  rewrite has_surrogate_items by (vm_compute; lia).
  change (PyStr.has_surrogate (" "%char :: tail GenerateIndex.html_tail))
    with false.
  apply orb_false_r.
Qed.

Lemma html_item_line (f : str) :
  GenerateIndex.html_item f
  = text "    <li><a href=" ++ ["034"%char] ++ f ++ ["034"%char] ++ text ">"
    ++ f ++ text "</a></li>" ++ ["010"%char].
Proof.
  unfold GenerateIndex.html_item, GenerateIndex.quoted.
  by rewrite <- app_comm_cons, <- (app_assoc f).
Qed.

Lemma existsb_has_surrogate (l : list str) :
  existsb PyStr.has_surrogate l = false
  ↔ Forall (λ f, PyStr.has_surrogate f = false) l.
Proof.
  induction l as [|f l IH]; simpl; [by split|].
  rewrite orb_false_iff, Forall_cons. by rewrite IH.
Qed.

Lemma sorted_by_same_keys (key key' : str → str) (l : list str) :
  Forall (λ f, key f = key' f) l →
  StronglySorted (key_le key) l → StronglySorted (key_le key') l.
Proof.
  intros Hl Hs. induction Hs as [|x l Hs IH Hx]; [constructor|].
  apply Forall_cons in Hl as [Hkx Hl].
  constructor; [by apply IH|].
  rewrite Forall_forall in Hx, Hl. apply Forall_forall. intros y Hy.
  unfold key_le. rewrite <- Hkx, <- (Hl y Hy). by apply Hx.
Qed.

Section index.
Context `{!PyStr.Casefold}.

(** Without a directory at the path, nothing is written. *)
Lemma index_not_a_directory pdf_dir d :
  GenerateIndex.listing d !! OsPath.abspath (GenerateIndex.cwd d) pdf_dir
  = None →
  ∃ d',
    GenerateIndex.run (GenerateIndex.generate_index pdf_dir) d
    = (Returned tt, d')
    ∧ GenerateIndex.texts d' = GenerateIndex.texts d.
Proof.
  intros Hdir. eexists. split.
  - unfold GenerateIndex.generate_index, GenerateIndex.run.
    rewrite exec_bind. cbn [exec perform GenerateIndex.step_op fst snd].
    rewrite exec_bind. cbn [exec perform GenerateIndex.step_op fst snd].
    rewrite Hdir. rewrite bool_decide_eq_false_2 by (by intros [? ?]).
    reflexivity.
  - reflexivity.
Qed.

(** With a directory, the page is written when its text can be encoded;
    if not, the file is left empty and nothing more is printed. *)
Lemma run_generate_index pdf_dir d names :
  GenerateIndex.listing d !! OsPath.abspath (GenerateIndex.cwd d) pdf_dir
  = Some names →
  GenerateIndex.run (GenerateIndex.generate_index pdf_dir) d
  = if PyStr.has_surrogate
         (OsPath.basename (OsPath.abspath (GenerateIndex.cwd d) pdf_dir))
       || existsb PyStr.has_surrogate (GenerateIndex.listed names)
    then
      (Raised UnicodeEncodeError,
       {| GenerateIndex.cwd := GenerateIndex.cwd d;
          GenerateIndex.listing := GenerateIndex.listing d;
          GenerateIndex.texts :=
            <[OsPath.join (OsPath.abspath (GenerateIndex.cwd d) pdf_dir)
                (text "index.html") := []]> (GenerateIndex.texts d);
          GenerateIndex.stdout := GenerateIndex.stdout d |})
    else
      (Returned tt,
       {| GenerateIndex.cwd := GenerateIndex.cwd d;
          GenerateIndex.listing := GenerateIndex.listing d;
          GenerateIndex.texts :=
            <[OsPath.join (OsPath.abspath (GenerateIndex.cwd d) pdf_dir)
                (text "index.html") :=
                GenerateIndex.html_head
                  (OsPath.basename
                     (OsPath.abspath (GenerateIndex.cwd d) pdf_dir))
                ++ concat (map GenerateIndex.html_item
                             (GenerateIndex.listed names))
                ++ GenerateIndex.html_tail]> (GenerateIndex.texts d);
          GenerateIndex.stdout :=
            GenerateIndex.stdout d
            ++ [GenerateIndex.check_mark
                ++ text " index.html generated with "
                ++ GenerateIndex.str_of_nat
                     (length (GenerateIndex.listed names))
                ++ text " files.";
                GenerateIndex.folder_mark ++ text " Location: "
                ++ OsPath.join
                     (OsPath.abspath (GenerateIndex.cwd d) pdf_dir)
                     (text "index.html")] |}).
Proof.
  intros Hdir.
  unfold GenerateIndex.generate_index, GenerateIndex.run.
  rewrite exec_bind. cbn [exec perform GenerateIndex.step_op fst snd].
  rewrite exec_bind. cbn [exec perform GenerateIndex.step_op fst snd].
  rewrite Hdir. rewrite bool_decide_eq_true_2 by eauto. cbn [negb].
  rewrite exec_bind. cbn [exec perform GenerateIndex.step_op fst snd].
  rewrite Hdir. cbn [default].
  rewrite exec_bind. cbn [exec attempt GenerateIndex.step_op fst snd].
  rewrite has_surrogate_page.
  destruct (_ || _); cbn [fst snd exec]; [done|].
  rewrite exec_bind. cbn [exec perform GenerateIndex.print
                            GenerateIndex.step_op fst snd
                            GenerateIndex.cwd GenerateIndex.listing
                            GenerateIndex.texts GenerateIndex.stdout].
  by rewrite <- app_assoc.
Qed.

(** C10, amended.  For a valid directory whose path and listed entries are
    text that can be encoded, [generate_index] writes to [index.html] in
    that directory, over whatever was there, a page with the name of the
    directory as heading and, between the opening and the closing of the
    list, one line for each listed name, with the name as link and as
    text; it returns.  If the name of the directory or a listed entry
    cannot be encoded, the call raises [UnicodeEncodeError], [index.html]
    is left empty and nothing is printed.  The listed names are the
    entries of the directory whose lowered name does not end in [.html],
    each as often as it is listed, in the order of their casefolds, which
    for ASCII names is the order of the lowered names.  The archive
    subdirectory and leftover temporary files are among them. *)
Theorem index_lists_all_but_html pdf_dir d names :
  GenerateIndex.listing d !! OsPath.abspath (GenerateIndex.cwd d) pdf_dir
  = Some names →
  (PyStr.has_surrogate (OsPath.abspath (GenerateIndex.cwd d) pdf_dir)
   = false →
   Forall (λ f, PyStr.has_surrogate f = false) (GenerateIndex.listed names) →
   ∃ d' top rest,
     GenerateIndex.run (GenerateIndex.generate_index pdf_dir) d
     = (Returned tt, d')
     ∧ GenerateIndex.texts d'
       = <[OsPath.join (OsPath.abspath (GenerateIndex.cwd d) pdf_dir)
             (text "index.html") :=
             top ++ text "  <h1>"
             ++ OsPath.basename (OsPath.abspath (GenerateIndex.cwd d) pdf_dir)
             ++ text "</h1>" ++ rest ++ text "  <ul>" ++ ["010"%char]
             ++ concat
                  (map (λ f, text "    <li><a href=" ++ ["034"%char] ++ f
                             ++ ["034"%char] ++ text ">" ++ f
                             ++ text "</a></li>" ++ ["010"%char])
                     (GenerateIndex.listed names))
             ++ text "  </ul>" ++ ["010"%char] ++ text "</body>"
             ++ ["010"%char] ++ text "</html>" ++ ["010"%char]]>
           (GenerateIndex.texts d))
  ∧ (PyStr.has_surrogate
       (OsPath.basename (OsPath.abspath (GenerateIndex.cwd d) pdf_dir))
     = true
     ∨ Exists (λ f, PyStr.has_surrogate f = true) (GenerateIndex.listed names) →
     ∃ d',
       GenerateIndex.run (GenerateIndex.generate_index pdf_dir) d
       = (Raised UnicodeEncodeError, d')
       ∧ GenerateIndex.texts d'
         = <[OsPath.join (OsPath.abspath (GenerateIndex.cwd d) pdf_dir)
               (text "index.html") := []]> (GenerateIndex.texts d)
       ∧ GenerateIndex.stdout d' = GenerateIndex.stdout d)
  ∧ GenerateIndex.listed names
    ≡ₚ filter (λ f, PyStr.endswith (PyStr.lower f) (text ".html") = false)
         names
  ∧ StronglySorted (key_le PyStr.casefold) (GenerateIndex.listed names)
  ∧ (Forall (Forall (λ c, nat_of_ascii c < 128)) names →
     StronglySorted (key_le PyStr.lower) (GenerateIndex.listed names))
  ∧ (∀ f, f ∈ GenerateIndex.listed names
          ↔ f ∈ names
            ∧ PyStr.endswith (PyStr.lower f) (text ".html") = false)
  ∧ (text "archive" ∈ names → text "archive" ∈ GenerateIndex.listed names)
  ∧ (∀ item, item ++ text "_new.pdf" ∈ names →
             item ++ text "_new.pdf" ∈ GenerateIndex.listed names).
Proof.
  intros Hdir.
  assert (∀ f, f ∈ GenerateIndex.listed names
               ↔ f ∈ names
                 ∧ PyStr.endswith (PyStr.lower f) (text ".html") = false)
    as Hlisted.
  { intros f. unfold GenerateIndex.listed.
    rewrite sorted_perm, list_elem_of_filter. tauto. }
  split; [|split; [|split; [|split; [|split; [|split; [done|split]]]]]].
  - intros Hpath Hnames. apply existsb_has_surrogate in Hnames.
    assert (PyStr.has_surrogate
              (OsPath.basename (OsPath.abspath (GenerateIndex.cwd d) pdf_dir))
            = false) as Hheading.
    { apply not_true_is_false. intros Hbad.
      apply (has_surrogate_app_r
               (OsPath.rpartition OsPath.sep
                  (OsPath.abspath (GenerateIndex.cwd d) pdf_dir)).1)
        in Hbad.
      unfold OsPath.basename in Hbad.
      rewrite rpartition_concat in Hbad. congruence. }
    destruct (html_head_parts
                (OsPath.basename
                   (OsPath.abspath (GenerateIndex.cwd d) pdf_dir)))
      as (top & rest & Hhead & _ & _).
    eexists _, top, rest.
    rewrite (run_generate_index _ _ _ Hdir), Hheading, Hnames.
    split; [reflexivity|]. cbn [GenerateIndex.texts orb].
    rewrite Hhead, <- !app_assoc.
    by rewrite (map_ext GenerateIndex.html_item _ html_item_line).
  - intros Hbad. eexists.
    rewrite (run_generate_index _ _ _ Hdir).
    replace (_ || _) with true; [done|].
    symmetry. apply orb_true_iff.
    destruct Hbad as [Hheading|Hname]; [by left|right].
    apply existsb_exists. apply Exists_exists in Hname as (f & Hf & Hbad).
    exists f. split; [by apply list_elem_of_In|done].
  - apply sorted_perm.
  - apply sorted_sorted.
  - intros Hascii.
    apply (sorted_by_same_keys PyStr.casefold); [|apply sorted_sorted].
    apply Forall_forall. intros f Hf. apply PyStr.casefold_ascii.
    rewrite Forall_forall in Hascii. apply Hascii.
    by apply Hlisted in Hf as [Hf _].
  - intros Hin. apply Hlisted. split; [done|]. vm_compute. reflexivity.
  - intros item Hin. apply Hlisted. split; [done|].
    apply temp_name_not_html.
Qed.

End index.

(** ** The worker pool *)
Section pool.
Context `{!Hashlib, !PyPDF2}.
Variable w : world.
Variable max_workers : nat.

(** A step of the pool is a step of the main thread, which takes the first
    instruction of its script, or a step of one future, or the exception
    of [os.makedirs] in the main thread. *)
Lemma pool_step_cases p p' :
  Yoink.pool_step w max_workers p p' →
  (∃ i, Yoink.pc p = i :: Yoink.pc p'
        ∧ Yoink.raised p = None ∧ Yoink.raised p' = None
        ∧ match i with
          | Yoink.ISubmit t =>
              Yoink.futures p'
              = Yoink.futures p
                ++ [{| Yoink.f_task := t; Yoink.f_state := Yoink.Queued |}]
              ∧ Yoink.yielded p' = Yoink.yielded p
          | Yoink.INextCompleted =>
              Yoink.futures p' = Yoink.futures p
              ∧ Yoink.yielded p' = S (Yoink.yielded p)
              ∧ Yoink.yielded p < Yoink.count Yoink.is_done (Yoink.futures p)
          | Yoink.IShutdown =>
              Yoink.futures p' = Yoink.futures p
              ∧ Yoink.yielded p' = Yoink.yielded p
              ∧ forallb Yoink.is_done (Yoink.futures p) = true
          | _ =>
              Yoink.futures p' = Yoink.futures p
              ∧ Yoink.yielded p' = Yoink.yielded p
          end)
  ∨ (Yoink.pc p' = Yoink.pc p
     ∧ Yoink.yielded p' = Yoink.yielded p
     ∧ Yoink.raised p' = Yoink.raised p
     ∧ futures_step (Yoink.futures p) (Yoink.futures p'))
  ∨ (Yoink.pc p' = Yoink.pc p
     ∧ Yoink.yielded p' = Yoink.yielded p
     ∧ Yoink.futures p' = Yoink.futures p
     ∧ Yoink.raised p = None
     ∧ ∃ path rest,
         Yoink.pc p = Yoink.IMakeDirs path :: rest
         ∧ (Yoink.raised p' = Some (FileNotFoundError path)
            ∨ Yoink.raised p' = Some (FileExistsError path))).
Proof.
  destruct 1 as [path rest st fs y Hmade|path rest st fs y e Hraised
                | | | | | | | |]; simpl.
  - left. by eexists.
  - right. right. do 4 (split; [done|]). exists path, rest. split; [done|].
    revert Hraised. cbn [step_op].
    destruct (bool_decide (path = [])); cbn [fst].
    { intros [= <-]. by left. }
    destruct (bool_decide (is_Some (files st !! path))); cbn [fst]; [|done].
    intros [= <-]. by right.
  - left. by eexists.
  - left. by eexists.
  - left. by eexists.
  - left. by eexists.
  - right. left. do 3 (split; [done|]). constructor. constructor.
  - right. left. do 3 (split; [done|]). constructor. constructor.
    simpl. eauto.
  - right. left. do 3 (split; [done|]). constructor. constructor.
  - right. left. do 3 (split; [done|]). constructor. constructor.
Qed.


(** Who can take a step: the main thread, when it has not raised and its
    instruction is not one that waits; a worker that is free, for the
    oldest task in the queue; or a task that runs and does not wait for
    ever. *)
Lemma pool_red_cases p :
  red (Yoink.pool_step w max_workers) p →
  (Yoink.raised p = None
   ∧ match Yoink.pc p with
     | [] => False
     | Yoink.INextCompleted :: _ =>
         Yoink.yielded p < Yoink.count Yoink.is_done (Yoink.futures p)
     | Yoink.IShutdown :: _ =>
         forallb Yoink.is_done (Yoink.futures p) = true
     | _ => True
     end)
  ∨ (∃ fs1 t fs2,
       Yoink.futures p
       = fs1 ++ {| Yoink.f_task := t; Yoink.f_state := Yoink.Queued |} :: fs2
       ∧ forallb (λ f, negb (Yoink.is_queued f)) fs1 = true
       ∧ Yoink.count Yoink.is_running (fs1 ++ fs2) < max_workers)
  ∨ (∃ fs1 t q fs2,
       Yoink.futures p
       = fs1 ++ {| Yoink.f_task := t; Yoink.f_state := Yoink.Running q |}
               :: fs2
       ∧ q ≠ Hang).
Proof.
  intros [p' Hstep].
  destruct Hstep as [| | | | | |st code fs1 t fs2 y r Hq Hfree
                    |st code fs1 t X o k fs2 y r|st code fs1 t a fs2 y r
                    |st code fs1 t e fs2 y r]; simpl; try (by left).
  - right. left. by exists fs1, t, fs2.
  - right. right. by exists fs1, t, (Vis o k), fs2.
  - right. right. by exists fs1, t, (Ret a), fs2.
  - right. right. by exists fs1, t, (Throw e), fs2.
Qed.


(** The two directories the main thread makes for a category are those of
    [prepare_folders], and the archive folder of its tasks is what
    [prepare_folders] returns. *)
Lemma run_prepare_folders base_folder st :
  (step_op w (MakeDirs base_folder) st).1 = Returned tt →
  (step_op w (MakeDirs (OsPath.join base_folder (text "archive")))
     (step_op w (MakeDirs base_folder) st).2).1 = Returned tt →
  run w (Yoink.prepare_folders base_folder) st
  = (Returned (OsPath.join base_folder (text "archive")),
     log (MadeDir (OsPath.join base_folder (text "archive")))
       (log (MadeDir base_folder) st)).
Proof.
  unfold Yoink.prepare_folders. rewrite run_bind, run_attempt.
  cbn [step_op].
  destruct (bool_decide (base_folder = [])); [done|].
  destruct (bool_decide (is_Some (files st !! base_folder))); [done|].
  intros _. cbn [fst snd]. rewrite run_bind, run_attempt. cbn [step_op].
  destruct (bool_decide (OsPath.join base_folder (text "archive") = []));
    [done|].
  by destruct (bool_decide (is_Some (_ !! _))).
Qed.







End pool.

(** *** Tasks and futures *)

Lemma submitted_app a b :
  Yoink.submitted (a ++ b) = Yoink.submitted a ++ Yoink.submitted b.
Proof. apply omap_app. Qed.

Lemma submitted_awaits n :
  Yoink.submitted (replicate n Yoink.INextCompleted) = [].
Proof. induction n as [|n IH]; [done|]. simpl. exact IH. Qed.

Lemma submit_script_instr config i :
  i ∈ Yoink.submit_script config →
  (∃ path, i = Yoink.IMakeDirs path) ∨ (∃ t, i = Yoink.ISubmit t).
Proof.
  unfold Yoink.submit_script. induction config as [|[category d] config IH];
    simpl.
  { intros Hi. by apply elem_of_nil in Hi. }
  rewrite !elem_of_cons, elem_of_app, list_elem_of_fmap.
  intros [->|[->|[(item & -> & _)|Hi]]]; eauto.
Qed.

(** One task for each pair, in the order of the pairs. *)
Lemma submitted_pairs config :
  map (λ t, (Yoink.t_category t, Yoink.t_item t))
    (Yoink.submitted (Yoink.submit_script config))
  = pairs config.
Proof.
  unfold Yoink.submit_script, pairs.
  induction config as [|[category d] config IH]; [done|].
  simpl. rewrite submitted_app, map_app, IH. f_equal.
  induction (Yoink.items d) as [|item l IHl]; [done|].
  simpl. by rewrite IHl.
Qed.

Lemma futures_step_tasks fs fs' :
  futures_step fs fs' → map Yoink.f_task fs' = map Yoink.f_task fs.
Proof. destruct 1. by rewrite !map_app. Qed.

Lemma futures_step_not_done fs fs' :
  futures_step fs fs' → ¬ Forall (λ f, Yoink.is_done f = true) fs.
Proof.
  destruct 1 as [fs1 t s s' fs2 Hs]. intros Hdone.
  apply Forall_app in Hdone as [_ Hdone].
  apply Forall_cons in Hdone as [Hdone _].
  destruct Hs; discriminate.
Qed.





Lemma count_middle P fs1 f fs2 :
  Yoink.count P (fs1 ++ f :: fs2)
  = Yoink.count P fs1 + (if P f then 1 else 0) + Yoink.count P fs2.
Proof.
  unfold Yoink.count. rewrite List.filter_app, length_app. simpl.
  destruct (P f); simpl; lia.
Qed.



Lemma forallb_done fs :
  forallb Yoink.is_done fs = true
  ↔ Forall (λ f, Yoink.is_done f = true) fs.
Proof.
  induction fs as [|f fs IH]; simpl.
  - split; [constructor|done].
  - rewrite andb_true_iff, Forall_cons, IH. done.
Qed.

(** *** The invariant of a run of [main] *)
Section pool_inv.
Context `{!Hashlib, !PyPDF2}.
Variable w : world.
Variable max_workers : nat.
Variable config : list (str * Yoink.details).

Lemma pool_inv_start st : pool_inv config (Yoink.main_start config st).
Proof.
  unfold Yoink.main_start, Yoink.main_script.
  by apply (inv_submitting config [] (Yoink.submit_script config)).
Qed.

(** The main thread in the [as_completed] loop or at the end of the
    [with] block. *)
Lemma pool_inv_await_step j fs i st' code' fs' y' :
  j ≤ length (Yoink.submitted (Yoink.submit_script config)) →
  map Yoink.f_task fs = Yoink.submitted (Yoink.submit_script config) →
  replicate (length (Yoink.submitted (Yoink.submit_script config)) - j)
    Yoink.INextCompleted ++ Yoink.last_words
  = i :: code' →
  match i with
  | Yoink.ISubmit t =>
      fs' = fs ++ [{| Yoink.f_task := t; Yoink.f_state := Yoink.Queued |}]
      ∧ y' = j
  | Yoink.INextCompleted =>
      fs' = fs ∧ y' = S j ∧ j < Yoink.count Yoink.is_done fs
  | Yoink.IShutdown =>
      fs' = fs ∧ y' = j ∧ forallb Yoink.is_done fs = true
  | _ => fs' = fs ∧ y' = j
  end →
  pool_inv config
    {| Yoink.shared := st'; Yoink.pc := code'; Yoink.futures := fs';
       Yoink.yielded := y'; Yoink.raised := None |}.
Proof.
  intros Hj Htasks Hpc Hi.
  destruct (length (Yoink.submitted (Yoink.submit_script config)) - j)
    as [|m] eqn:Hm; simpl in Hpc.
  - injection Hpc as <- <-. destruct Hi as (-> & -> & Hdone).
    apply inv_left; [|done| |eauto].
    + intros Hin. apply list_elem_of_singleton in Hin. discriminate.
    + by apply forallb_done.
  - injection Hpc as <- <-. destruct Hi as (-> & -> & _).
    replace m
      with (length (Yoink.submitted (Yoink.submit_script config)) - S j)
      by lia.
    apply inv_awaiting; [lia|done].
Qed.

Lemma pool_inv_step p p' :
  pool_inv config p → Yoink.pool_step w max_workers p p' → pool_inv config p'.
Proof.
  intros Hinv Hstep. destruct p' as [st' code' fs' y' r'].
  apply pool_step_cases in Hstep
    as [(i & Hpc & _ & Hr' & Hi)
       |[(Hpc & Hy & Hr' & Hfs)
        |(Hpc & Hy & Hfs & Hr & path & rest0 & Hat & Hr')]].
  - simpl in Hr'. subst r'.
    destruct Hinv as [done rest st fs r Hscript Htasks Hraised
                     |j st fs Hj Htasks
                     |code st fs y Hno Htasks Hdone Hcode]; simpl in *.
    + destruct rest as [|i0 rest]; simpl in Hpc.
      { rewrite app_nil_r in Hscript. subst done.
        eapply (pool_inv_await_step 0); [lia|done| |done].
        by rewrite Nat.sub_0_r. }
      injection Hpc as -> <-.
      assert (i ∈ Yoink.submit_script config) as Hin.
      { rewrite Hscript. apply elem_of_app. right. by left. }
      apply submit_script_instr in Hin as [[path ->]|[t ->]];
        destruct Hi as [-> ->].
      * apply (inv_submitting config (done ++ [Yoink.IMakeDirs path]) rest).
        -- by rewrite <- app_assoc.
        -- by rewrite submitted_app, app_nil_r.
        -- done.
      * apply (inv_submitting config (done ++ [Yoink.ISubmit t]) rest).
        -- by rewrite <- app_assoc.
        -- by rewrite submitted_app, map_app, Htasks.
        -- done.
    + by eapply pool_inv_await_step.
    + destruct Hcode as [->|[line ->]]; [done|].
      injection Hpc as <- <-. destruct Hi as [-> ->].
      apply inv_left; [|done|done|by left].
      intros Hin. by apply elem_of_nil in Hin.
  - simpl in *. subst code' y' r'.
    pose proof (futures_step_tasks _ _ Hfs) as Htasks'.
    pose proof (futures_step_not_done _ _ Hfs) as Hnot.
    destruct Hinv as [done rest st fs r Hscript Htasks Hraised
                     |j st fs Hj Htasks
                     |code st fs y Hno Htasks Hdone Hcode]; simpl in *.
    + apply (inv_submitting config done rest); [done| |done].
      by rewrite Htasks'.
    + apply inv_awaiting; [done|]. by rewrite Htasks'.
    + done.
  - simpl in *. subst code' y' fs'.
    destruct Hinv as [done rest st fs r Hscript Htasks Hraised
                     |j st fs Hj Htasks
                     |code st fs y Hno Htasks Hdone Hcode]; simpl in *.
    + destruct rest as [|i0 rest]; simpl in Hat.
      { destruct (length _); discriminate. }
      injection Hat as -> <-.
      apply (inv_submitting config done (Yoink.IMakeDirs path :: rest));
        [done..|].
      intros e He. exists path, rest. split; [done|].
      destruct Hr' as [Hr'|Hr']; rewrite Hr' in He; injection He as <-; eauto.
    + destruct (length _ - j); discriminate.
    + destruct Hcode as [->|[line ->]]; discriminate.
Qed.

Lemma pool_inv_reachable st p :
  rtc (Yoink.pool_step w max_workers) (Yoink.main_start config st) p →
  pool_inv config p.
Proof.
  revert p. apply rtc_ind_r; [apply pool_inv_start|].
  intros q p _ Hstep IH. by eapply pool_inv_step.
Qed.


End pool_inv.




(** *** Tasks that come to an end *)
Section never_hangs.
Context `{!Hashlib, !PyPDF2}.
Variable w : world.
Hypothesis answered : ∀ n u, http w n u ≠ Stalled.














End never_hangs.

Section pool_claim.
Context `{!Hashlib, !PyPDF2}.
Variable w : world.
Variable max_workers : nat.





End pool_claim.

Section more_samples.
#[local] Existing Instance Sample.hashlib.
#[local] Existing Instance Sample.pypdf2.
#[local] Existing Instance Sample.casefold.



(** A second way in which C8 fails: with one worker, a request that gets
    no reply keeps the worker for ever.  The task after it is never
    started, and the main thread waits in its loop: no thread can take a
    step, and the script is not at its end. *)
Example stalled_request_blocks_the_queue :
  rtc (Yoink.pool_step Sample.silent 1)
    (Yoink.main_start Sample.two_items (Sample.on_disk []))
    Sample.waiting_pool
  ∧ ¬ red (Yoink.pool_step Sample.silent 1) Sample.waiting_pool
  ∧ Exists (λ f, hangs f = true) (Yoink.futures Sample.waiting_pool)
  ∧ Exists (λ f, Yoink.is_queued f = true)
      (Yoink.futures Sample.waiting_pool).
Proof.
  split; [|split; [|split]].
  - eapply rtc_l; [by apply Yoink.step_makedirs|].
    eapply rtc_l; [by apply Yoink.step_makedirs|].
    eapply rtc_l; [apply Yoink.step_submit|].
    eapply rtc_l; [apply Yoink.step_submit|].
    eapply rtc_l.
    { apply (Yoink.step_start _ _ _ _ [] Sample.the_task
               [{| Yoink.f_task := Sample.second_task;
                   Yoink.f_state := Yoink.Queued |}]);
        [done|vm_compute; lia]. }
    eapply rtc_l.
    { apply (Yoink.step_work _ _ _ _ [] Sample.the_task). }
    eapply rtc_l.
    { apply (Yoink.step_work _ _ _ _ [] Sample.the_task). }
    apply rtc_refl.
  - intros Hred.
    apply pool_red_cases
      in Hred as [[_ Hmain]|[(fs1 & t & fs2 & Hfs & _ & Hfree)
                            |(fs1 & t & q & fs2 & Hfs & Hq)]].
    + vm_compute in Hmain. lia.
    + destruct fs1 as [|f1 [|f2 fs1]]; [discriminate| |by destruct fs1].
      injection Hfs as <- _ <-. vm_compute in Hfree. lia.
    + destruct fs1 as [|f1 [|f2 fs1]];
        [by injection Hfs as _ <-|discriminate|by destruct fs1].
  - left. reflexivity.
  - right. left. reflexivity.
Qed.

(** C10, as stated, fails for a directory with an entry whose name is not
    valid text: the page cannot be encoded, the call raises, and
    [index.html], which held the page of an earlier run, is left empty.
    No entry is listed, and nothing is printed. *)
Lemma undecodable_name_leaves_empty_index :
  (GenerateIndex.run (GenerateIndex.generate_index (text "pdfs"))
     Sample.shelf_undecodable).1
  = Raised UnicodeEncodeError
  ∧ GenerateIndex.texts Sample.shelf_undecodable
    !! text "/srv/pdfs/index.html"
    = Some (text "old")
  ∧ GenerateIndex.texts
      (GenerateIndex.run (GenerateIndex.generate_index (text "pdfs"))
         Sample.shelf_undecodable).2
    !! text "/srv/pdfs/index.html"
    = Some []
  ∧ GenerateIndex.stdout
      (GenerateIndex.run (GenerateIndex.generate_index (text "pdfs"))
         Sample.shelf_undecodable).2
    = [].
Proof. repeat split; vm_compute; reflexivity. Qed.

Lemma index_lists_all_but_html_witness :
  ∃ d',
    GenerateIndex.run (GenerateIndex.generate_index (text "pdfs")) Sample.shelf
    = (Returned tt, d')
    ∧ text "archive" ∈ GenerateIndex.listed Sample.shelf_names
    ∧ text "ABC_new.pdf" ∈ GenerateIndex.listed Sample.shelf_names.
Proof.
  destruct (index_lists_all_but_html (text "pdfs") Sample.shelf
              Sample.shelf_names)
    as (Hwritten & _ & _ & _ & _ & _ & Harchive & Htemp).
  { vm_compute. reflexivity. }
  destruct Hwritten as (d' & top & rest & Hrun & _).
  { vm_compute. reflexivity. }
  { vm_compute. repeat constructor. }
  exists d'. split; [exact Hrun|]. split.
  - apply Harchive. apply list_elem_of_In. vm_compute. tauto.
  - apply (Htemp (text "ABC")). apply list_elem_of_In. vm_compute. tauto.
Defined.

(** ** The functions at sample inputs *)

Example listed_shelf :
  GenerateIndex.listed Sample.shelf_names
  = [text "A.pdf"; text "ABC_new.pdf"; text "archive"; text "b.pdf"].
Proof. reflexivity. Qed.

Example tasks_of_config :
  map (λ t, (Yoink.t_category t, Yoink.t_item t, Yoink.t_archive_folder t,
             Yoink.t_filename_mode t))
    (Yoink.submitted (Yoink.main_script Sample.config))
  = [(text "parts", text "ABC123", text "/tmp/x/archive", text "item");
     (text "parts", text "LM358", text "/tmp/x/archive", text "item");
     (text "notes", text "AN1", text "/tmp/n/archive", text "title")].
Proof. reflexivity. Qed.

(** The scenario of three runs: first write, replacement, no change. *)
Example three_runs :
  let task := Yoink.process_item
                (text "parts") (text "ABC123") Sample.search
                (text "/tmp/x") (text "/tmp/x/archive") (text "item") in
  let first := Sample.server Sample.pdf_url
                 (Sample.ok Sample.pdf_url [Sample.data "0123456789"]) in
  let second := Sample.server Sample.pdf_url
                  (Sample.ok Sample.pdf_url [Sample.data "0123456789ab"]) in
  let st1 := (run first task (Sample.on_disk [])).2 in
  let st2 := (run second task st1).2 in
  let st3 := (run second task st2).2 in
  map_to_list (files st1)
  = [(text "/tmp/x/ABC123.pdf", Sample.data "0123456789")]
  ∧ files st2 !! text "/tmp/x/ABC123.pdf" = Some (Sample.data "0123456789ab")
  ∧ files st2 !! text "/tmp/x/archive/ABC123_20240102_120000.pdf"
    = Some (Sample.data "0123456789")
  ∧ files st3 = files st2
  ∧ stdout st3
    = [text "[parts] [ABC123] Checking..."; text "[parts] [ABC123] Downloaded.";
       text "[parts] [ABC123] Checking...";
       text "[parts] [ABC123] Updated. Old version archived.";
       text "[parts] [ABC123] Checking...";
       text "[parts] [ABC123] Up to date."].
Proof. repeat split; vm_compute; reflexivity. Qed.

Example join_plain : OsPath.join (text "/tmp/x") (text "ABC123.pdf") = text "/tmp/x/ABC123.pdf".
Proof. reflexivity. Qed.
Example join_slash : OsPath.join (text "/tmp/x/") (text "a.pdf") = text "/tmp/x/a.pdf".
Proof. reflexivity. Qed.
Example join_abs : OsPath.join (text "/tmp/x") (text "/etc/a.pdf") = text "/etc/a.pdf".
Proof. reflexivity. Qed.
Example join_empty : OsPath.join (text "") (text "a.pdf") = text "a.pdf".
Proof. reflexivity. Qed.
Example splitext_pdf : OsPath.splitext (text "a.b.pdf") = (text "a.b", text ".pdf").
Proof. reflexivity. Qed.
Example splitext_dots : OsPath.splitext (text "...pdf") = (text "...pdf", text "").
Proof. reflexivity. Qed.
Example splitext_dir : OsPath.splitext (text "a.b/c") = (text "a.b/c", text "").
Proof. reflexivity. Qed.
Example splitext_dir2 : OsPath.splitext (text "a/.pdf") = (text "a/.pdf", text "").
Proof. reflexivity. Qed.
Example splitext_dir3 : OsPath.splitext (text "a/x.pdf") = (text "a/x", text ".pdf").
Proof. reflexivity. Qed.
Example dirname1 : OsPath.dirname (text "/tmp/x/a.pdf") = text "/tmp/x".
Proof. reflexivity. Qed.
Example dirname2 : OsPath.dirname (text "//a") = text "//".
Proof. reflexivity. Qed.
Example dirname3 : OsPath.dirname (text "a//b") = text "a".
Proof. reflexivity. Qed.
Example normpath1 : OsPath.normpath (text "/tmp//x/../y/.") = text "/tmp/y".
Proof. reflexivity. Qed.
Example normpath2 : OsPath.normpath (text "../a/..") = text "..".
Proof. reflexivity. Qed.
Example abspath1 : OsPath.abspath (text "/home/u") (text ".") = text "/home/u".
Proof. reflexivity. Qed.
Example quote1 : UrlLib.quote_plus (text "LM 358/a") = text "LM+358%2Fa".
Proof. reflexivity. Qed.
Example strip1 : PyStr.strip (text "  a b ") = text "a b".
Proof. reflexivity. Qed.
Example strip2 :
  PyStr.strip ([ascii_of_nat 194; ascii_of_nat 160] ++ text "LM358 "
               ++ [ascii_of_nat 227; ascii_of_nat 128; ascii_of_nat 128])
  = text "LM358".
Proof. reflexivity. Qed.
Example pad1 : PyStr.pad4 2024 ++ PyStr.pad2 7 = text "202407".
Proof. reflexivity. Qed.

End more_samples.

(** * Further properties *)

(** ** The configuration *)

Lemma mapM_as_str (l : list yaml) :
  (∃ names,
     mapM (λ i, match i with YStr s => Some s | _ => None end) l = Some names
     ∧ forallb is_str l = true)
  ∨ (mapM (λ i, match i with YStr s => Some s | _ => None end) l = None
     ∧ forallb is_str l = false).
Proof.
  induction l as [|v l IH]; simpl; [left; by eexists|].
  destruct v; simpl; try (by right).
  destruct IH as [(names & -> & ->)|[-> ->]]; [left; by eexists|by right].
Qed.

Lemma eq_str_spec (v : yaml) (s : str) : eq_str v s = true ↔ v = YStr s.
Proof.
  destruct v; simpl; try (by split).
  rewrite bool_decide_eq_true. split; [by intros ->|by intros [= ->]].
Qed.

(** A category passes the checks of [validate_config] exactly when [main]
    can read it and its naming mode, if it has one, is one of the two. *)
Lemma validate_category_accepts category settings :
  Yoink.validate_category category settings = Yoink.Accepted
  ↔ ∃ d, Yoink.read_details settings = Some d
         ∧ (Yoink.filename_mode d = None
            ∨ Yoink.filename_mode d = Some (text "item")
            ∨ Yoink.filename_mode d = Some (text "title")).
Proof.
  unfold Yoink.validate_category, Yoink.read_details.
  destruct settings as [| | | | |?|settings|];
    try (split; [done|by intros (? & ? & ?)]).
  destruct (dict_get (text "folder") settings) as [[| | | |folder| | |]|];
    simpl; try (split; [done|by intros (? & ? & ?)]).
  destruct (dict_get (text "base_url") settings) as [[| | | |base_url| | |]|];
    simpl; try (split; [done|by intros (? & ? & ?)]).
  destruct (dict_get (text "items") settings) as [[| | | | |items| |]|];
    simpl;
    try (split; [by destruct (from_option _ _ _)|by intros (? & ? & ?)]).
  destruct (mapM_as_str items) as [(names & -> & ->)|[-> ->]]; simpl;
    [|split; [by destruct (from_option _ _ _)|by intros (? & ? & ?)]].
  destruct (dict_get (text "filename_mode") settings) as [mode|]; simpl;
    [|split; [intros _; eexists; split; [done|]; simpl; auto|done]].
  destruct (eq_str mode (text "item")) eqn:Hitem; simpl.
  { apply eq_str_spec in Hitem as ->.
    split; [intros _; eexists; split; [done|]; simpl; auto|done]. }
  destruct (eq_str mode (text "title")) eqn:Htitle; simpl.
  { apply eq_str_spec in Htitle as ->.
    split; [intros _; eexists; split; [done|]; simpl; auto|done]. }
  split; [done|]. intros (d & Hd & Hmode).
  destruct mode; try done. injection Hd as <-. simpl in Hmode.
  destruct Hmode as [?|[[= ->]|[= ->]]]; [done| |].
  - by rewrite (proj2 (eq_str_spec _ _)) in Hitem.
  - by rewrite (proj2 (eq_str_spec _ _)) in Htitle.
Qed.

Lemma validate_categories_accepts downloads :
  Yoink.validate_categories downloads = Yoink.Accepted
  ↔ Forall (λ cd, Yoink.validate_category cd.1 cd.2 = Yoink.Accepted)
      downloads.
Proof.
  induction downloads as [|[category settings] rest IH]; simpl.
  - by split; [constructor|].
  - rewrite Forall_cons, <- IH. simpl.
    destruct (Yoink.validate_category category settings);
      split; try done; by intros [? ?].
Qed.

Lemma eq_one_spec (v : yaml) :
  eq_one v = true
  ↔ v = YInt 1 ∨ v = YBool true
    ∨ ∃ f, v = YFloat f ∧ float_is_one f = true.
Proof.
  destruct v as [|b|n|f| | | |]; simpl;
    try (split; [done|by intros [?|[?|(? & ? & ?)]]]).
  - split; [intros ->; auto|by intros [?|[[= ->]|(? & ? & ?)]]].
  - rewrite bool_decide_eq_true.
    split; [intros ->; auto|by intros [[= ->]|[?|(? & ? & ?)]]].
  - split; [intros Hf; right; right; by exists f|].
    by intros [?|[?|(? & [= <-] & ?)]].
Qed.

Lemma validate_categories_first good category settings rest :
  Forall (λ cd, Yoink.validate_category cd.1 cd.2 = Yoink.Accepted) good →
  Yoink.validate_categories (good ++ (category, settings) :: rest)
  = match Yoink.validate_category category settings with
    | Yoink.Accepted => Yoink.validate_categories rest
    | Yoink.ValueError why => Yoink.ValueError why
    end.
Proof.
  induction 1 as [|[c s] good Hcs _ IH]; simpl; [done|].
  simpl in Hcs. by rewrite Hcs.
Qed.

(** X1.  [validate_config] returns exactly for a dictionary whose version
    equals one (the integer, [True], or the float) and whose downloads are
    a dictionary of categories that [main] can read: a dictionary with a
    folder and a base URL that are strings, items that are a list of
    strings, and a naming mode that is absent, [item] or [title].  The keys
    of the categories are not looked at. *)
Theorem validate_config_accepts_iff raw_config :
  Yoink.validate_config raw_config = Yoink.Accepted
  ↔ ∃ top version downloads,
      raw_config = YDict top
      ∧ dict_get (text "version") top = Some version
      ∧ (version = YInt 1 ∨ version = YBool true
         ∨ ∃ f, version = YFloat f ∧ float_is_one f = true)
      ∧ dict_get (text "downloads") top = Some (YDict downloads)
      ∧ Forall (λ cd, ∃ d, Yoink.read_details cd.2 = Some d
                           ∧ (Yoink.filename_mode d = None
                              ∨ Yoink.filename_mode d = Some (text "item")
                              ∨ Yoink.filename_mode d = Some (text "title")))
          downloads.
Proof.
  assert (∀ downloads,
    Yoink.validate_categories downloads = Yoink.Accepted
    ↔ Forall (λ cd, ∃ d, Yoink.read_details cd.2 = Some d
                         ∧ (Yoink.filename_mode d = None
                            ∨ Yoink.filename_mode d = Some (text "item")
                            ∨ Yoink.filename_mode d = Some (text "title")))
        downloads) as Hcats.
  { intros downloads. rewrite validate_categories_accepts.
    apply Forall_proper; [|done]. intros [c s]. simpl.
    apply validate_category_accepts. }
  unfold Yoink.validate_config. split.
  - destruct raw_config as [| | | | | |top|]; try done.
    destruct (dict_get (text "version") top) as [version|] eqn:Hv; [|done].
    destruct (eq_one version) eqn:Hone; [|done]. simpl.
    destruct (dict_get (text "downloads") top)
      as [[| | | | | |downloads|]|] eqn:Hd; try done.
    intros Hok. exists top, version, downloads.
    split; [done|]. split; [done|]. split; [by apply eq_one_spec|].
    split; [done|]. by apply Hcats.
  - intros (top & version & downloads & -> & -> & Hone & -> & Hall).
    apply eq_one_spec in Hone as ->. simpl. by apply Hcats.
Qed.

(** X2.  The categories are checked in the order of the file, and the
    first one that fails gives the error, with its key: what comes after it
    is not looked at. *)
Theorem validate_config_reports_first_failure top version good category
    settings rest why :
  dict_get (text "version") top = Some version →
  eq_one version = true →
  dict_get (text "downloads") top
  = Some (YDict (good ++ (category, settings) :: rest)) →
  Forall (λ cd, Yoink.validate_category cd.1 cd.2 = Yoink.Accepted) good →
  Yoink.validate_category category settings = Yoink.ValueError why →
  Yoink.validate_config (YDict top) = Yoink.ValueError why
  ∧ why ∈ [Yoink.CategoryNotADictionary category;
           Yoink.InvalidFolder category; Yoink.InvalidBaseUrl category;
           Yoink.InvalidFilenameMode category; Yoink.InvalidItems category].
Proof.
  intros Hv Hone Hd Hgood Hbad. split.
  - unfold Yoink.validate_config. rewrite Hv, Hone, Hd. simpl.
    by rewrite validate_categories_first, Hbad.
  - revert Hbad. unfold Yoink.validate_category.
    destruct settings; try (intros [= <-]; set_solver).
    repeat (match goal with
            | |- context [if ?b then _ else _] => destruct b
            end; [intros [= <-]; set_solver|]).
    done.
Qed.

(** The tasks [main] submits: one for each item of each category, with the
    folder of the category, its archive folder, and its naming mode or
    [item]. *)
Lemma submitted_main_script config :
  Yoink.submitted (Yoink.main_script config)
  = flat_map (λ cd, map (λ item,
      {| Yoink.t_category := cd.1; Yoink.t_item := item;
         Yoink.t_base_url := Yoink.base_url cd.2;
         Yoink.t_folder := Yoink.folder cd.2;
         Yoink.t_archive_folder
           := OsPath.join (Yoink.folder cd.2) (text "archive");
         Yoink.t_filename_mode
           := default (text "item") (Yoink.filename_mode cd.2) |})
      (Yoink.items cd.2)) config.
Proof.
  unfold Yoink.main_script. rewrite !submitted_app, submitted_awaits.
  simpl. rewrite !app_nil_r.
  unfold Yoink.submit_script.
  induction config as [|[category d] config IH]; [done|].
  simpl. rewrite submitted_app, IH. f_equal.
  induction (Yoink.items d) as [|item l IHl]; [done|].
  simpl. by rewrite IHl.
Qed.

Lemma read_config_cons c s rest config :
  mapM (λ cd : yaml * yaml,
          match cd.1 with
          | YStr category => d ← Yoink.read_details cd.2; Some (category, d)
          | _ => None
          end) ((c, s) :: rest) = Some config
  ↔ ∃ category d config',
      c = YStr category ∧ Yoink.read_details s = Some d
      ∧ mapM (λ cd : yaml * yaml,
                match cd.1 with
                | YStr category =>
                    d ← Yoink.read_details cd.2; Some (category, d)
                | _ => None
                end) rest = Some config'
      ∧ config = (category, d) :: config'.
Proof.
  simpl. split.
  - destruct c as [| | | |category| | |]; try done.
    destruct (Yoink.read_details s) as [d|]; [|done]. simpl.
    destruct (mapM _ rest) as [config'|]; [|done]. simpl.
    intros [= <-]. by exists category, d, config'.
  - intros (category & d & config' & -> & -> & -> & ->). done.
Qed.

(** X3.  A configuration that [validate_config] lets through, with
    strings for the names of its categories, is one [main] can read, key by
    key: the categories come in the order of the file, and every task that
    [main] submits has [item] or [title] for its naming mode, [item] when
    the category gives none. *)
Theorem validated_config_is_read top downloads :
  Yoink.validate_config (YDict top) = Yoink.Accepted →
  dict_get (text "downloads") top = Some (YDict downloads) →
  Forall (λ cd, is_str cd.1 = true) downloads →
  ∃ config,
    Yoink.read_config (YDict top) = Some config
    ∧ Forall2 (λ cd rd, rd.1 = YStr cd.1
                        ∧ Yoink.read_details rd.2 = Some cd.2)
        config downloads
    ∧ Forall (λ t, Yoink.t_filename_mode t = text "item"
                   ∨ Yoink.t_filename_mode t = text "title")
        (Yoink.submitted (Yoink.main_script config)).
Proof.
  intros Hok Hd Hkeys.
  unfold Yoink.validate_config in Hok.
  destruct (dict_get (text "version") top) as [version|]; [|done].
  destruct (negb (eq_one version)); [done|].
  rewrite Hd in Hok. apply validate_categories_accepts in Hok.
  assert (Forall (λ cd, ∃ d, Yoink.read_details cd.2 = Some d
                             ∧ (Yoink.filename_mode d = None
                                ∨ Yoink.filename_mode d = Some (text "item")
                                ∨ Yoink.filename_mode d
                                  = Some (text "title")))
            downloads) as Hall.
  { eapply Forall_impl; [exact Hok|]. intros [c s] Hcs.
    by apply validate_category_accepts in Hcs. }
  clear Hok. unfold Yoink.read_config. rewrite Hd.
  assert (∃ config,
    mapM (λ cd : yaml * yaml,
            match cd.1 with
            | YStr category =>
                d ← Yoink.read_details cd.2; Some (category, d)
            | _ => None
            end) downloads = Some config
    ∧ Forall2 (λ cd rd, rd.1 = YStr cd.1
                        ∧ Yoink.read_details rd.2 = Some cd.2)
        config downloads
    ∧ Forall (λ cd, Yoink.filename_mode cd.2 = None
                    ∨ Yoink.filename_mode cd.2 = Some (text "item")
                    ∨ Yoink.filename_mode cd.2 = Some (text "title"))
        config) as (config & Hread & Hsame & Hmodes).
  { clear Hd. induction downloads as [|[c s] rest IH].
    - exists []. by repeat split; constructor.
    - apply Forall_cons in Hall as [(d & Hs & Hmode) Hall].
      apply Forall_cons in Hkeys as [Hc Hkeys]. simpl in Hs, Hmode, Hc.
      destruct c as [| | | |category| | |]; try done.
      destruct IH as (config & Hread & Hsame & Hmodes); [done..|].
      exists ((category, d) :: config). split.
      { apply read_config_cons. by exists category, d, config. }
      split; by constructor. }
  exists config. split; [done|]. split; [done|].
  rewrite submitted_main_script. clear Hread Hsame.
  induction Hmodes as [|[category d] config Hmode _ IH]; simpl; [constructor|].
  apply Forall_app. split; [|done].
  apply Forall_fmap, Forall_forall. intros item _. simpl in *.
  destruct Hmode as [->|[->| ->]]; simpl; auto.
Qed.

(** ** Reading and writing in chunks *)

Lemma ceil_step (m n : nat) :
  0 < n → 0 < m → (m + n - 1) / n = S ((m - n + n - 1) / n).
Proof.
  intros Hn Hm.
  destruct (decide (m ≤ n)) as [Hle|Hgt].
  - replace (m - n + n - 1) with (n - 1) by lia.
    rewrite (Nat.div_small (n - 1)) by lia.
    replace (m + n - 1) with ((m - 1) + 1 * n) by lia.
    rewrite Nat.div_add by lia. rewrite Nat.div_small; lia.
  - replace (m + n - 1) with ((m - n + n - 1) + 1 * n) by lia.
    rewrite Nat.div_add by lia. lia.
Qed.

Lemma read_chunks_fuel_spec (n : nat) (content : bytes) fuel :
  0 < n → length content ≤ fuel →
  concat (Yoink.read_chunks_fuel fuel n content) = content
  ∧ Forall (λ chunk, chunk ≠ [] ∧ length chunk ≤ n)
      (Yoink.read_chunks_fuel fuel n content)
  ∧ length (Yoink.read_chunks_fuel fuel n content)
    = (length content + n - 1) / n.
Proof.
  intros Hn. revert content.
  induction fuel as [|fuel IH]; intros content Hlen.
  - destruct content; [|simpl in Hlen; lia]. simpl.
    split; [done|]. split; [constructor|].
    symmetry. apply Nat.div_small. lia.
  - destruct content as [|b content].
    { simpl. split; [done|]. split; [constructor|].
      symmetry. apply Nat.div_small. lia. }
    cbn [Yoink.read_chunks_fuel].
    destruct (IH (drop n (b :: content))) as (Hcat & Hall & Hcount).
    { rewrite length_drop. simpl in *. lia. }
    split; [|split].
    + cbn [concat]. rewrite Hcat. apply take_drop.
    + constructor; [|done]. split.
      * destruct n; [lia|]. done.
      * rewrite length_take. lia.
    + cbn [length]. rewrite Hcount, length_drop.
      symmetry. apply ceil_step; [done|simpl; lia].
Qed.

(** X4.  The reads of [file_checksum] cut the file into blocks of at most
    [n] bytes, none of them empty, that put together are the file: as many
    as the length divided by [n], rounded up, and none for an empty
    file. *)
Theorem read_chunks_cover_the_file (n : nat) (content : bytes) :
  0 < n →
  concat (Yoink.read_chunks n content) = content
  ∧ Forall (λ chunk, chunk ≠ [] ∧ length chunk ≤ n)
      (Yoink.read_chunks n content)
  ∧ length (Yoink.read_chunks n content) = (length content + n - 1) / n.
Proof. intros Hn. by apply read_chunks_fuel_spec. Qed.

Lemma fold_update `{Hashlib} (chunks : list bytes) h :
  (∀ h a b, sha256_update (sha256_update h a) b = sha256_update h (a ++ b)) →
  (∀ h, sha256_update h [] = h) →
  fold_left sha256_update chunks h = sha256_update h (concat chunks).
Proof.
  intros Hassoc Hnil. revert h.
  induction chunks as [|chunk chunks IH]; intros h; simpl; [by rewrite Hnil|].
  by rewrite IH, Hassoc.
Qed.

Section checksum.
Context `{!Hashlib, !PyPDF2}.
Variable w : world.

(** X5.  With a hash in which feeding the data in pieces is the same as
    feeding it at once, [file_checksum] gives the digest of the whole
    content of the file, however long it is, and leaves the state as it
    is.  For a path with no file it raises [FileNotFoundError]. *)
Theorem file_checksum_of_whole_file path st :
  (∀ h a b, sha256_update (sha256_update h a) b = sha256_update h (a ++ b)) →
  (∀ h, sha256_update h [] = h) →
  (∀ content,
     files st !! path = Some content →
     run w (Yoink.file_checksum path) st
     = (Returned (sha256_hexdigest (sha256_update sha256_new content)), st))
  ∧ (files st !! path = None →
     run w (Yoink.file_checksum path) st
     = (Raised (FileNotFoundError path), st)).
Proof.
  intros Hassoc Hnil. split.
  - intros content Hfile. rewrite run_file_checksum, Hfile.
    unfold Yoink.digest. rewrite fold_update by done.
    unfold Yoink.read_chunks.
    by destruct (read_chunks_fuel_spec 4096 content (length content))
      as [-> _]; [lia|done|].
  - intros Hfile. by rewrite run_file_checksum, Hfile.
Qed.

End checksum.

(** ** Downloads, titles and the first run *)

Section fetching.
Context `{!Hashlib, !PyPDF2}.
Variable w : world.


(** X7.  [get_pdf_title] never raises and changes nothing, whatever is
    or is not at the path: with no file there, a file that is not a PDF, a
    PDF without metadata or without a title, or a title that is not a
    string, it returns None.  A title it returns has none of the nine
    characters in it, and no white space of [str.strip] at its ends: none
    of U+0009 to U+000D, U+001C to U+0020, U+0085, U+00A0, U+1680, U+2000
    to U+200A, U+2028, U+2029, U+202F, U+205F and U+3000, given here by
    the bytes of their encodings. *)
Theorem get_pdf_title_never_raises path st :
  ∃ title,
    run w (Yoink.get_pdf_title path) st = (Returned title, st)
    ∧ (files st !! path = None → title = None)
    ∧ (∀ content, files st !! path = Some content →
         (∀ s, pdf_parse content ≠ Pdf (Some (Some (PyString s)))) →
         title = None)
    ∧ (∀ t, title = Some t →
         (∀ c, c ∈ t → Yoink.illegal c = false)
         ∧ (∀ ws,
              ws ∈ map (map ascii_of_nat)
                     [[9]; [10]; [11]; [12]; [13]; [28]; [29]; [30]; [31];
                      [32]; [194; 133]; [194; 160]; [225; 154; 128];
                      [226; 128; 128]; [226; 128; 129]; [226; 128; 130];
                      [226; 128; 131]; [226; 128; 132]; [226; 128; 133];
                      [226; 128; 134]; [226; 128; 135]; [226; 128; 136];
                      [226; 128; 137]; [226; 128; 138]; [226; 128; 168];
                      [226; 128; 169]; [226; 128; 175]; [226; 129; 159];
                      [227; 128; 128]] →
              ¬ ws `prefix_of` t ∧ ¬ ws `suffix_of` t)
         ∧ t = PyStr.strip t).
Proof.
  exists (title_in (files st !! path)).
  split; [apply run_get_pdf_title|].
  split; [by intros ->|]. split.
  - intros content -> Hnot. simpl.
    destruct (pdf_parse content) as [|[[[s|?]|]|]]; try done.
    by destruct (Hnot s).
  - intros t Ht. unfold title_in in Ht.
    destruct (files st !! path) as [content|]; [|done].
    destruct (pdf_parse content) as [|[[[s|?]|]|]]; try done.
    destruct (bool_decide (s = [])); [done|]. injection Ht as <-.
    split; [intros c Hc; by eapply sanitized_legal|].
    split; [intros ws; apply strip_ends|].
    symmetry. apply strip_idemp.
Qed.


(** X9.  Under the naming by identifier, for an item without a separator
    and with the archive folder that [main] passes, the final path is
    never the path of the Temporary File, and two runs in a row against a
    remote that does not change are idempotent: after a run that reached
    the comparison, a second run returns with the line of the no-op branch
    and leaves every file as the first run left it, the document at the
    final path and no Temporary File. *)
Theorem rerun_by_identifier_is_noop category item base_url folder
    filename_mode st final_name st1 :
  OsPath.sep ∉ item →
  filename_mode ≠ text "title" →
  (∀ n u, http w n u = http w 0 u) →
  run w (Yoink.fetch_and_name category item base_url folder filename_mode) st
  = (Returned (Some final_name), st1) →
  final_name = item ++ text ".pdf"
  ∧ OsPath.join folder final_name ≠ Yoink.temp_file_of folder item
  ∧ ∃ st2 st3,
      run w (Yoink.process_item category item base_url folder
               (OsPath.join folder (text "archive")) filename_mode) st
      = (Returned tt, st2)
      ∧ run w (Yoink.process_item category item base_url folder
                 (OsPath.join folder (text "archive")) filename_mode) st2
        = (Returned tt, st3)
      ∧ last (stdout st3)
        = Some (Yoink.tag category item ++ text "Up to date.")
      ∧ files st3 = files st2
      ∧ is_Some (files st3 !! OsPath.join folder final_name)
      ∧ files st3 !! Yoink.temp_file_of folder item = None.
Proof.
  intros _ Hmode Hsame Hfetch.
  destruct (fetch_and_name_some w _ _ _ _ _ _ _ _ Hfetch)
    as (resp & doc & _ & _ & _ & _ & _ & _ & _ & Hfiles & _ & _ & Hname).
  rewrite bool_decide_eq_false_2 in Hname by done. subst final_name.
  split; [done|]. split; [apply item_final_not_temp|].
  destruct (first_run_result w _ _ _ _ _ _ _ _
              (concat (iter_content doc)) Hfetch)
    as (st2 & content & Hrun & _); [|apply item_final_not_temp|].
  { rewrite Hfiles. apply lookup_insert_eq. }
  destruct (rerun_is_noop w _ _ _ _ _ _ _ _ st2 Hsame Hfetch)
    as (st3 & Hrun3 & Hrest); [apply item_final_not_temp|done|].
  by exists st2, st3.
Qed.

End fetching.


Section reruns.
Context `{!Hashlib, !PyPDF2}.
Variable w : world.


End reruns.

(** ** What a task touches, raises and says *)
Section task.
Context `{!Hashlib, !PyPDF2}.
Variable w : world.

(** The comparison always returns, once the Temporary File is there. *)
Lemma run_compare_cases category item folder archive_folder final_name st new :
  files st !! Yoink.temp_file_of folder item = Some new →
  ∃ st' status,
    run w (Yoink.compare_and_swap category item folder archive_folder
             final_name) st
    = (Returned tt, say (Yoink.tag category item ++ status) st')
    ∧ stdout st' = stdout st
    ∧ status ∈ [text "Downloaded."; text "Up to date.";
                text "Updated. Old version archived."]
    ∧ ∀ p, p ≠ Yoink.temp_file_of folder item →
           p ≠ OsPath.join folder final_name →
           p ≠ Yoink.archived_name_of archive_folder final_name
                 (strftime (clock w (tick st))) →
           files st' !! p = files st !! p.
Proof.
  intros Htemp.
  destruct (files st !! OsPath.join folder final_name) as [old|] eqn:Hfinal.
  - destruct (decide (Yoink.digest old = Yoink.digest new)) as [Hsame|Hdiff].
    + eexists _, _. split; [by eapply run_compare_same|].
      split; [done|]. split; [apply elem_of_cons; right; by left|].
      intros p Hp _ _. apply not_eq_sym in Hp.
      cbn [files log apply_event]. by rewrite lookup_delete_ne.
    + eexists _, _. split; [by eapply run_compare_differ|].
      split; [done|].
      split; [apply elem_of_cons; right; apply elem_of_cons; right; by left|].
      intros p Hp1 Hp2 Hp3. apply not_eq_sym in Hp1, Hp2, Hp3.
      cbn [files log apply_event next_tick tick]. rewrite Hfinal.
      destruct (<[_ := _]> _ !! Yoink.temp_file_of folder item).
      * rewrite lookup_insert_ne, lookup_delete_ne by done.
        by rewrite lookup_insert_ne, lookup_delete_ne.
      * by rewrite lookup_insert_ne, lookup_delete_ne.
  - eexists _, _. split; [by eapply run_compare_missing|].
    split; [done|]. split; [by left|].
    intros p Hp1 Hp2 _. apply not_eq_sym in Hp1, Hp2.
    cbn [files log apply_event]. rewrite Htemp.
    by rewrite lookup_insert_ne, lookup_delete_ne.
Qed.

(** What the fetch says: the first line, then one line when it gives up or
    finds no title. *)
Lemma fetch_and_name_said category item base_url folder filename_mode st :
  ∃ more,
    stdout (run w (Yoink.fetch_and_name category item base_url folder
                     filename_mode) st).2
    = stdout st ++ (Yoink.tag category item ++ text "Checking...") :: more
    ∧ match (run w (Yoink.fetch_and_name category item base_url folder
                      filename_mode) st).1 with
      | Returned None =>
          more = [Yoink.tag category item ++ text "PDF URL not found."]
          ∨ more = [Yoink.tag category item ++ text "Download failed."]
      | Returned (Some _) =>
          more = []
          ∨ more = [Yoink.tag category item
                    ++ text "No title found, using item as filename."]
      | Raised _ | Hangs => more = []
      end.
Proof.
  assert (∀ (r : outcome (option str)) st1 more,
    stdout st1
    = stdout st ++ (Yoink.tag category item ++ text "Checking...") :: more →
    match r with
    | Returned None =>
        more = [Yoink.tag category item ++ text "PDF URL not found."]
        ∨ more = [Yoink.tag category item ++ text "Download failed."]
    | Returned (Some _) =>
        more = []
        ∨ more = [Yoink.tag category item
                  ++ text "No title found, using item as filename."]
    | Raised _ | Hangs => more = []
    end →
    ∃ more,
      stdout (r, st1).2
      = stdout st ++ (Yoink.tag category item ++ text "Checking...") :: more
      ∧ match (r, st1).1 with
        | Returned None =>
            more = [Yoink.tag category item ++ text "PDF URL not found."]
            ∨ more = [Yoink.tag category item ++ text "Download failed."]
        | Returned (Some _) =>
            more = []
            ∨ more = [Yoink.tag category item
                      ++ text "No title found, using item as filename."]
        | Raised _ | Hangs => more = []
        end) as Hsaid by (intros r st1 more ? ?; by exists more).
  unfold Yoink.fetch_and_name.
  rewrite run_bind, run_print, run_bind, run_resolve.
  cbn [tick say].
  destruct (http w (tick st) _) as [|resp|]; [by apply (Hsaid _ _ [])| |by apply (Hsaid _ _ [])].
  destruct (broken resp); [by apply (Hsaid _ _ [])|].
  destruct (_ && _); cbv beta iota;
    [|rewrite run_bind, run_print; eapply Hsaid;
      [cbn [stdout say next_tick]; by rewrite <- app_assoc|by left]].
  destruct (url resp) as [|c u]; cbv beta iota zeta;
    [rewrite run_bind, run_print; eapply Hsaid;
     [cbn [stdout say next_tick]; by rewrite <- app_assoc|by left]|].
  rewrite run_bind, run_download. cbn [tick say next_tick].
  destruct (http w (S (tick st)) _) as [|doc|]; [by apply (Hsaid _ _ [])| |by apply (Hsaid _ _ [])].
  destruct (bool_decide (status_code doc = 200%Z)); cbn [negb];
    [|rewrite run_bind, run_print; eapply Hsaid;
      [cbn [stdout say next_tick]; by rewrite <- app_assoc|by right]].
  destruct (broken doc); [by apply (Hsaid _ _ [])|]. cbn [negb].
  rewrite run_bind, run_final_name_of.
  destruct (bool_decide (filename_mode = text "title")).
  - destruct (title_in _) as [[|? ?]|]; eapply Hsaid;
      try (cbn [stdout say after_download next_tick];
           by rewrite <- ?app_assoc);
      auto.
  - apply (Hsaid _ _ []); [done|by left].
Qed.

(** X11.  A task changes no path but three: that of its Temporary File,
    its final path, and the archived name it would give the old document.
    Whatever the servers answer and however the task ends, every other
    file is as it was. *)
Theorem process_item_touches_only_its_paths category item base_url folder
    archive_folder filename_mode st p :
  p ≠ Yoink.temp_file_of folder item →
  (∀ final_name st1,
     run w (Yoink.fetch_and_name category item base_url folder filename_mode)
       st
     = (Returned (Some final_name), st1) →
     p ≠ OsPath.join folder final_name
     ∧ p ≠ Yoink.archived_name_of archive_folder final_name
             (strftime (clock w (tick st1)))) →
  files (run w (Yoink.process_item category item base_url folder
                  archive_folder filename_mode) st).2 !! p
  = files st !! p.
Proof.
  intros Htemp Hfinal. unfold Yoink.process_item. rewrite run_bind.
  destruct (run w (Yoink.fetch_and_name category item base_url folder
                     filename_mode) st) as [[[final_name|]|e|] st1] eqn:Hfetch.
  - destruct (Hfinal _ _ eq_refl) as [Hp1 Hp2].
    destruct (fetch_and_name_some w _ _ _ _ _ _ _ _ Hfetch)
      as (resp & doc & _ & _ & _ & _ & _ & _ & _ & Hfiles & _).
    destruct (run_compare_cases category item folder archive_folder
                final_name st1 (concat (iter_content doc)))
      as (st2 & status & Hrun & _ & _ & Hother).
    { rewrite Hfiles. apply lookup_insert_eq. }
    cbv beta iota. rewrite Hrun. cbn [snd files say].
    rewrite Hother, Hfiles by done.
    apply lookup_insert_ne. congruence.
  - apply fetch_and_name_none in Hfetch as [Hfiles _].
    cbv beta iota. rewrite run_ret. cbn [snd]. by rewrite Hfiles.
  - apply fetch_and_name_raised in Hfetch as [_ Hother]. by apply Hother.
  - apply fetch_and_name_hung in Hfetch as [Hfiles _]. cbn [snd].
    by rewrite Hfiles.
Qed.


(** X13.  What a task run on its own prints, for an item without a
    separator and with the archive folder that [main] passes: first the
    line that it is checking; then, under the naming by title, at most the
    line that no title was found; and last, when it returns, exactly one
    line of outcome, one of five.  A task that raises, or that waits for
    ever, prints the first line only. *)
Theorem process_item_reports_once category item base_url folder
    filename_mode st :
  OsPath.sep ∉ item →
  ∃ more,
    stdout (run w (Yoink.process_item category item base_url folder
                     (OsPath.join folder (text "archive")) filename_mode)
              st).2
    = stdout st ++ (Yoink.tag category item ++ text "Checking...") :: more
    ∧ match (run w (Yoink.process_item category item base_url folder
                      (OsPath.join folder (text "archive")) filename_mode)
               st).1 with
      | Returned _ =>
          ∃ status,
            (more = [Yoink.tag category item ++ status]
             ∨ more = [Yoink.tag category item
                       ++ text "No title found, using item as filename.";
                       Yoink.tag category item ++ status])
            ∧ status ∈ [text "PDF URL not found."; text "Download failed.";
                        text "Downloaded."; text "Up to date.";
                        text "Updated. Old version archived."]
      | Raised _ | Hangs => more = []
      end.
Proof.
  intros _.
  destruct (fetch_and_name_said category item base_url folder filename_mode
              st) as (more & Hsaid & Hmore).
  unfold Yoink.process_item. rewrite run_bind.
  destruct (run w (Yoink.fetch_and_name category item base_url folder
                     filename_mode) st) as [[[final_name|]|e|] st1] eqn:Hfetch;
    cbn [fst snd] in Hsaid, Hmore.
  - destruct (fetch_and_name_some w _ _ _ _ _ _ _ _ Hfetch)
      as (resp & doc & _ & _ & _ & _ & _ & _ & _ & Hfiles & _).
    destruct (run_compare_cases category item folder
                (OsPath.join folder (text "archive"))
                final_name st1 (concat (iter_content doc)))
      as (st2 & status & Hrun & Hout & Hstatus & _).
    { rewrite Hfiles. apply lookup_insert_eq. }
    exists (more ++ [Yoink.tag category item ++ status]).
    cbv beta iota. rewrite Hrun. cbn [fst snd stdout say]. rewrite Hout, Hsaid. split.
    { by rewrite <- app_assoc. }
    exists status. split; [destruct Hmore as [-> | ->]; auto|].
    do 2 (apply elem_of_cons; right). exact Hstatus.
  - exists more. cbv beta iota. rewrite run_ret. cbn [fst snd].
    split; [done|].
    destruct Hmore as [-> | ->].
    + exists (text "PDF URL not found."). split; [by left|by left].
    + exists (text "Download failed."). split; [by left|].
      apply elem_of_cons; right; by left.
  - by exists more.
  - by exists more.
Qed.

End task.

(** ** The URL that is asked for *)

Lemma hex_digit_code k :
  k < 16 →
  nat_of_ascii (PyStr.hex_digit k) = if k <? 10 then 48 + k else 55 + k.
Proof.
  intros Hk. unfold PyStr.hex_digit.
  destruct (k <? 10); apply nat_ascii_embedding; lia.
Qed.

Lemma hex_digit_safe k : k < 16 → UrlLib.always_safe (PyStr.hex_digit k) = true.
Proof.
  intros Hk. do 16 (destruct k as [|k]; [vm_compute; reflexivity|]). lia.
Qed.

Lemma hex_digit_inj k1 k2 :
  k1 < 16 → k2 < 16 → PyStr.hex_digit k1 = PyStr.hex_digit k2 → k1 = k2.
Proof.
  intros H1 H2 Heq. apply (f_equal nat_of_ascii) in Heq.
  rewrite !hex_digit_code in Heq by done.
  destruct (k1 <? 10) eqn:E1, (k2 <? 10) eqn:E2;
    try apply Nat.ltb_lt in E1; try apply Nat.ltb_ge in E1;
    try apply Nat.ltb_lt in E2; try apply Nat.ltb_ge in E2; lia.
Qed.

Lemma nibbles_inj (n m : nat) :
  n / 16 = m / 16 → n mod 16 = m mod 16 → n = m.
Proof.
  intros Hdiv Hmod.
  rewrite (Nat.div_mod_eq n 16), (Nat.div_mod_eq m 16). congruence.
Qed.

Lemma quote_char_cases c :
  (UrlLib.always_safe c = true ∧ UrlLib.quote_char c = [c])
  ∨ (c = " "%char ∧ UrlLib.quote_char c = ["+"%char])
  ∨ (UrlLib.always_safe c = false ∧ c ≠ " "%char
     ∧ UrlLib.quote_char c
       = ["%"%char; PyStr.hex_digit (nat_of_ascii c / 16);
          PyStr.hex_digit (nat_of_ascii c mod 16)]).
Proof.
  unfold UrlLib.quote_char.
  destruct (UrlLib.always_safe c) eqn:Hsafe; [by left|].
  destruct (bool_decide (c = " "%char)) eqn:Hspace.
  - apply bool_decide_eq_true in Hspace. right; left. done.
  - apply bool_decide_eq_false in Hspace. right; right. done.
Qed.

Lemma code_split c :
  nat_of_ascii c / 16 < 16 ∧ nat_of_ascii c mod 16 < 16.
Proof.
  pose proof (nat_ascii_bounded c) as Hc. split.
  - apply Nat.Div0.div_lt_upper_bound. lia.
  - apply Nat.mod_upper_bound. lia.
Qed.

(** X14.  What [quote_plus] gives has only letters, digits, the four
    marks [_.-~], the plus sign and the percent sign in it: no space, slash,
    question mark, ampersand or other delimiter of the item gets into the
    URL that is requested. *)
Theorem quote_plus_alphabet (s : str) :
  (∀ c, c ∈ UrlLib.quote_plus s →
        UrlLib.always_safe c = true ∨ c = "+"%char ∨ c = "%"%char)
  ∧ (∀ c, c ∈ text " /?#&=:;@[]!$'()*," → c ∉ UrlLib.quote_plus s).
Proof.
  assert (∀ c, c ∈ UrlLib.quote_plus s →
               UrlLib.always_safe c = true ∨ c = "+"%char ∨ c = "%"%char)
    as Halpha.
  { intros c. unfold UrlLib.quote_plus.
    induction s as [|x s IH]; simpl; [by intros ?%elem_of_nil|].
    rewrite elem_of_app. intros [Hc|Hc]; [|by apply IH].
    destruct (code_split x) as [Hhi Hlo].
    destruct (quote_char_cases x) as [[Hsafe Hq]|[[-> Hq]|(_ & _ & Hq)]];
      rewrite Hq in Hc.
    - apply list_elem_of_singleton in Hc as ->. by left.
    - apply list_elem_of_singleton in Hc as ->. right; by left.
    - rewrite !elem_of_cons in Hc.
      destruct Hc as [->|[->|[->|Hc]]].
      + right; by right.
      + left. by apply hex_digit_safe.
      + left. by apply hex_digit_safe.
      + by apply elem_of_nil in Hc. }
  split; [done|]. intros c Hc Hin. apply Halpha in Hin.
  apply list_elem_of_In in Hc. vm_compute in Hc.
  repeat (destruct Hc as [<-|Hc];
          [by destruct Hin as [Hin|[Hin|Hin]]; vm_compute in Hin|]).
  done.
Qed.

Lemma quote_plus_inj (a b : str) :
  UrlLib.quote_plus a = UrlLib.quote_plus b → a = b.
Proof.
  revert b. induction a as [|c a IH]; intros [|d b]; unfold UrlLib.quote_plus;
    simpl.
  - done.
  - destruct (quote_char_cases d) as [[_ ->]|[[_ ->]|(_ & _ & ->)]]; done.
  - destruct (quote_char_cases c) as [[_ ->]|[[_ ->]|(_ & _ & ->)]]; done.
  - destruct (code_split c) as [Hc1 Hc2]. destruct (code_split d) as [Hd1 Hd2].
    destruct (quote_char_cases c) as [[Hc ->]|[[-> ->]|(Hc & Hc' & ->)]];
      destruct (quote_char_cases d) as [[Hd ->]|[[-> ->]|(Hd & Hd' & ->)]];
      cbn [app]; intros [= Heq]; subst;
      try (by vm_compute in Hc); try (by vm_compute in Hd).
    + f_equal. by apply IH.
    + f_equal. by apply IH.
    + match goal with
      | H1 : PyStr.hex_digit _ = PyStr.hex_digit _,
        H2 : PyStr.hex_digit _ = PyStr.hex_digit _ |- _ =>
          apply hex_digit_inj in H1; [|done..];
          apply hex_digit_inj in H2; [|done..]
      end.
      f_equal; [|by apply IH].
      rewrite <- (ascii_nat_embedding c), <- (ascii_nat_embedding d).
      f_equal.
      by apply nibbles_inj.
Qed.

(** X15.  Items that differ are asked for at URLs that differ: [quote_plus]
    gives different strings for different items, and so does the base URL
    with them. *)
Theorem quote_plus_keeps_items_apart (base_url a b : str) :
  a ≠ b →
  UrlLib.quote_plus a ≠ UrlLib.quote_plus b
  ∧ base_url ++ UrlLib.quote_plus a ≠ base_url ++ UrlLib.quote_plus b.
Proof.
  intros Hne. split.
  - intros Heq. by apply quote_plus_inj in Heq.
  - intros Heq. by apply app_inv_head, quote_plus_inj in Heq.
Qed.

(** ** The stamp of the archived name *)

Lemma digit_code n : nat_of_ascii (PyStr.digit n) = 48 + n mod 10.
Proof.
  unfold PyStr.digit. apply nat_ascii_embedding.
  pose proof (Nat.mod_upper_bound n 10). lia.
Qed.

Lemma digit_inj n m : PyStr.digit n = PyStr.digit m → n mod 10 = m mod 10.
Proof.
  intros Heq. apply (f_equal nat_of_ascii) in Heq.
  rewrite !digit_code in Heq. lia.
Qed.

Lemma pad2_inj n m : n < 100 → m < 100 → PyStr.pad2 n = PyStr.pad2 m → n = m.
Proof.
  intros Hn Hm Heq. unfold PyStr.pad2 in Heq.
  assert (PyStr.digit (n / 10) = PyStr.digit (m / 10)) as H1 by congruence.
  assert (PyStr.digit n = PyStr.digit m) as H2 by congruence.
  clear Heq. apply digit_inj in H1, H2.
  pose proof (Nat.div_mod_eq n 10). pose proof (Nat.div_mod_eq m 10).
  assert (n / 10 < 10) by (apply Nat.Div0.div_lt_upper_bound; lia).
  assert (m / 10 < 10) by (apply Nat.Div0.div_lt_upper_bound; lia).
  rewrite (Nat.mod_small (n / 10)) in H1 by done.
  rewrite (Nat.mod_small (m / 10)) in H1 by done. lia.
Qed.

Lemma pad4_inj n m :
  n < 100 * 100 → m < 100 * 100 → PyStr.pad4 n = PyStr.pad4 m → n = m.
Proof.
  intros Hn Hm Heq. unfold PyStr.pad4 in Heq.
  assert (PyStr.digit (n / 1000) = PyStr.digit (m / 1000)) as H1
    by congruence.
  assert (PyStr.digit (n / 100) = PyStr.digit (m / 100)) as H2 by congruence.
  assert (PyStr.digit (n / 10) = PyStr.digit (m / 10)) as H3 by congruence.
  assert (PyStr.digit n = PyStr.digit m) as H4 by congruence.
  clear Heq. apply digit_inj in H1, H2, H3, H4.
  assert (∀ k, k / 100 = k / 10 / 10) as H100
    by (intros k; by rewrite Nat.Div0.div_div).
  assert (∀ k, k / 1000 = k / 10 / 10 / 10) as H1000
    by (intros k; by rewrite !Nat.Div0.div_div).
  rewrite !H1000 in H1. rewrite !H100 in H2.
  assert (n / 10 / 10 / 10 < 10)
    by (repeat apply Nat.Div0.div_lt_upper_bound; lia).
  assert (m / 10 / 10 / 10 < 10)
    by (repeat apply Nat.Div0.div_lt_upper_bound; lia).
  rewrite (Nat.mod_small (n / 10 / 10 / 10)) in H1 by done.
  rewrite (Nat.mod_small (m / 10 / 10 / 10)) in H1 by done.
  pose proof (Nat.div_mod_eq n 10). pose proof (Nat.div_mod_eq m 10).
  pose proof (Nat.div_mod_eq (n / 10) 10).
  pose proof (Nat.div_mod_eq (m / 10) 10).
  pose proof (Nat.div_mod_eq (n / 10 / 10) 10).
  pose proof (Nat.div_mod_eq (m / 10 / 10) 10).
  lia.
Qed.

Lemma strftime_inj t1 t2 :
  on_calendar t1 → on_calendar t2 → strftime t1 = strftime t2 → t1 = t2.
Proof.
  intros (Hy1 & Hm1 & Hd1 & Hh1 & Hi1 & Hs1) (Hy2 & Hm2 & Hd2 & Hh2 & Hi2 & Hs2).
  destruct t1 as [y1 m1 d1 h1 i1 s1], t2 as [y2 m2 d2 h2 i2 s2].
  unfold strftime. cbn [year month day hour minute second] in *.
  intros Heq.
  assert (PyStr.pad4 y1 = PyStr.pad4 y2 ∧ PyStr.pad2 m1 = PyStr.pad2 m2
          ∧ PyStr.pad2 d1 = PyStr.pad2 d2 ∧ PyStr.pad2 h1 = PyStr.pad2 h2
          ∧ PyStr.pad2 i1 = PyStr.pad2 i2 ∧ PyStr.pad2 s1 = PyStr.pad2 s2)
    as (Hy & Hm & Hd & Hh & Hi & Hs).
  { apply app_inj_1 in Heq as [Hy Heq]; [|done].
    apply app_inj_1 in Heq as [Hm Heq]; [|done].
    apply app_inj_1 in Heq as [Hd Heq]; [|done].
    apply app_inj_1 in Heq as [_ Heq]; [|done].
    apply app_inj_1 in Heq as [Hh Heq]; [|done].
    by apply app_inj_1 in Heq as [Hi Hs]. }
  apply pad4_inj in Hy; [|lia..].
  apply pad2_inj in Hm, Hd, Hh, Hi, Hs; [|lia..].
  by subst.
Qed.

Lemma strftime_length t : length (strftime t) = 15.
Proof. reflexivity. Qed.

Lemma join_same_start_inj (a x y : str) :
  PyStr.startswith x [OsPath.sep] = PyStr.startswith y [OsPath.sep] →
  OsPath.join a x = OsPath.join a y → x = y.
Proof.
  intros Hstart. destruct (PyStr.startswith x [OsPath.sep]) eqn:Hx.
  - by rewrite !join_absolute.
  - rewrite !join_relative by done. intros Heq.
    by apply app_inv_head, app_inv_head in Heq.
Qed.

Lemma archived_name_inj archive_folder final_name t1 t2 :
  on_calendar t1 → on_calendar t2 →
  Yoink.archived_name_of archive_folder final_name (strftime t1)
  = Yoink.archived_name_of archive_folder final_name (strftime t2) →
  t1 = t2.
Proof.
  intros Ht1 Ht2. unfold Yoink.archived_name_of. intros Heq.
  apply join_same_start_inj in Heq.
  - apply app_inv_head, app_inv_head, app_inv_tail in Heq.
    by apply strftime_inj.
  - change (text "_") with ["_"%char].
    destruct (OsPath.splitext final_name).1 as [|c stem]; cbn [app];
      by rewrite !startswith_cons.
Qed.

(** X16.  The stamp of an archived name has fifteen characters, and it
    tells the second: a document archived at two different seconds gets
    two different archived names, so that the later replacement does not
    overwrite the copy of the earlier one. *)
Theorem archived_names_differ_by_second archive_folder final_name t1 t2 :
  on_calendar t1 → on_calendar t2 → t1 ≠ t2 →
  Yoink.archived_name_of archive_folder final_name (strftime t1)
  ≠ Yoink.archived_name_of archive_folder final_name (strftime t2)
  ∧ length (strftime t1) = 15.
Proof.
  intros Ht1 Ht2 Hne. split; [|done].
  intros Heq. by apply archived_name_inj in Heq.
Qed.

(** ** The order of the index *)

Lemma leb_antisym (a b : str) :
  PyStr.leb a b = true → PyStr.leb b a = true → a = b.
Proof.
  revert b. induction a as [|x a IH]; intros [|y b]; simpl; try done.
  destruct (nat_of_ascii x <? nat_of_ascii y) eqn:Hxy;
    destruct (nat_of_ascii y <? nat_of_ascii x) eqn:Hyx; try done.
  - apply Nat.ltb_lt in Hxy, Hyx. lia.
  - apply Nat.ltb_ge in Hxy, Hyx. intros Hab Hba.
    f_equal; [|by apply IH].
    rewrite <- (ascii_nat_embedding x), <- (ascii_nat_embedding y).
    f_equal. lia.
Qed.

Lemma sorted_unique key (l1 l2 : list str) :
  StronglySorted (key_le key) l1 → StronglySorted (key_le key) l2 →
  l1 ≡ₚ l2 → NoDup (map key l1) → l1 = l2.
Proof.
  intros Hs1. revert l2.
  induction Hs1 as [|x l1 Hs1 IH Hx]; intros l2 Hs2 Hperm Hdup.
  { by apply Permutation_nil_l in Hperm. }
  destruct Hs2 as [|y l2 Hs2 Hy].
  { by apply Permutation_nil_r in Hperm. }
  apply NoDup_cons in Hdup as [Hfresh Hdup].
  assert (x = y) as <-.
  { assert (y ∈ x :: l1) as Hyin by (rewrite Hperm; left).
    assert (x ∈ y :: l2) as Hxin by (rewrite <- Hperm; left).
    apply elem_of_cons in Hyin as [->|Hyin]; [done|].
    apply elem_of_cons in Hxin as [->|Hxin]; [done|].
    rewrite Forall_forall in Hx, Hy.
    assert (key x = key y) as Hkey
      by (apply leb_antisym; [by apply Hx|by apply Hy]).
    destruct Hfresh. rewrite Hkey. apply list_elem_of_fmap. by exists y. }
  f_equal. apply IH; [done| |done]. by eapply Permutation_cons_inv.
Qed.


(** ** The index, run *)

Section index_run.
Context `{!PyStr.Casefold}.

(** X17.  For a path that is not a directory, [generate_index] prints
    the line of the error, with the absolute path, and returns: it writes
    no file. *)
Theorem index_of_no_directory_writes_nothing pdf_dir d :
  GenerateIndex.listing d !! OsPath.abspath (GenerateIndex.cwd d) pdf_dir
  = None →
  ∃ d',
    GenerateIndex.run (GenerateIndex.generate_index pdf_dir) d
    = (Returned tt, d')
    ∧ GenerateIndex.texts d' = GenerateIndex.texts d
    ∧ GenerateIndex.listing d' = GenerateIndex.listing d
    ∧ GenerateIndex.stdout d'
      = GenerateIndex.stdout d
        ++ [GenerateIndex.cross_mark ++ text " Error: "
            ++ OsPath.abspath (GenerateIndex.cwd d) pdf_dir
            ++ text " is not a valid directory."].
Proof.
  intros Hdir. eexists. split.
  - unfold GenerateIndex.generate_index, GenerateIndex.run.
    rewrite exec_bind. cbn [exec perform GenerateIndex.step_op fst snd].
    rewrite exec_bind. cbn [exec perform GenerateIndex.step_op fst snd].
    rewrite Hdir. rewrite bool_decide_eq_false_2 by (by intros [? ?]).
    reflexivity.
  - done.
Qed.

Lemma listed_without_html names1 f names2 :
  PyStr.endswith (PyStr.lower f) (text ".html") = true →
  GenerateIndex.listed (names1 ++ f :: names2)
  = GenerateIndex.listed (names1 ++ names2).
Proof.
  intros Hf. unfold GenerateIndex.listed.
  rewrite !filter_app, filter_cons_False; [done|]. by rewrite Hf.
Qed.

(** X18.  The index does not list itself, nor any other page: a name
    that ends in [.html], in whatever case, changes nothing in the page
    that is written.  So a second run, which finds the [index.html] of the
    first in the directory, writes the same page and prints the same
    count. *)
Theorem index_ignores_html_entries pdf_dir d d2 names1 f names2 :
  PyStr.endswith (PyStr.lower f) (text ".html") = true →
  GenerateIndex.cwd d2 = GenerateIndex.cwd d →
  GenerateIndex.listing d !! OsPath.abspath (GenerateIndex.cwd d) pdf_dir
  = Some (names1 ++ names2) →
  GenerateIndex.listing d2 !! OsPath.abspath (GenerateIndex.cwd d) pdf_dir
  = Some (names1 ++ f :: names2) →
  (f ∉ GenerateIndex.listed (names1 ++ f :: names2))
  ∧ GenerateIndex.texts
      (GenerateIndex.run (GenerateIndex.generate_index pdf_dir) d2).2
    !! OsPath.join (OsPath.abspath (GenerateIndex.cwd d) pdf_dir)
         (text "index.html")
    = GenerateIndex.texts
        (GenerateIndex.run (GenerateIndex.generate_index pdf_dir) d).2
      !! OsPath.join (OsPath.abspath (GenerateIndex.cwd d) pdf_dir)
           (text "index.html")
  ∧ drop (length (GenerateIndex.stdout d2))
      (GenerateIndex.stdout
         (GenerateIndex.run (GenerateIndex.generate_index pdf_dir) d2).2)
    = drop (length (GenerateIndex.stdout d))
        (GenerateIndex.stdout
           (GenerateIndex.run (GenerateIndex.generate_index pdf_dir) d).2).
Proof.
  intros Hf Hcwd Hdir Hdir2. split; [|split].
  - unfold GenerateIndex.listed. rewrite sorted_perm, list_elem_of_filter.
    intros [Hnot _]. by rewrite Hf in Hnot.
  - rewrite <- Hcwd in Hdir2.
    rewrite (run_generate_index _ _ _ Hdir), (run_generate_index _ _ _ Hdir2).
    rewrite listed_without_html, Hcwd by done.
    destruct (_ || _); cbn [snd GenerateIndex.texts];
      by rewrite !lookup_insert_eq.
  - rewrite <- Hcwd in Hdir2.
    rewrite (run_generate_index _ _ _ Hdir), (run_generate_index _ _ _ Hdir2).
    rewrite listed_without_html, Hcwd by done.
    destruct (_ || _); cbn [snd GenerateIndex.stdout]; [|
      by rewrite !drop_app_length].
    by rewrite !drop_all.
Qed.

(** X19.  The page does not depend on the order in which [os.listdir]
    gives the entries, when no two of them have the same casefold. *)
Theorem index_order_independent names1 names2 :
  names1 ≡ₚ names2 →
  NoDup (map PyStr.casefold names1) →
  GenerateIndex.listed names1 = GenerateIndex.listed names2.
Proof.
  intros Hperm Hdup. unfold GenerateIndex.listed.
  apply (sorted_unique PyStr.casefold); [apply sorted_sorted..| |].
  - by rewrite !sorted_perm, Hperm.
  - rewrite sorted_perm.
    eapply sublist_NoDup; [exact Hdup|].
    apply fmap_sublist, sublist_filter.
Qed.

Lemma leb_refl (a : str) : PyStr.leb a a = true.
Proof.
  induction a as [|x a IH]; simpl; [done|].
  by rewrite Nat.ltb_irrefl.
Qed.

Lemma insert_by_same_key key k x l :
  filter (λ f, key f = k) (GenerateIndex.insert_by key x l)
  = filter (λ f, key f = k) (x :: l).
Proof.
  induction l as [|y l IH]; simpl; [done|].
  destruct (PyStr.leb (key x) (key y)) eqn:Hxy; [done|].
  assert (key x ≠ key y) as Hne
    by (intros Heq; by rewrite Heq, leb_refl in Hxy).
  rewrite (filter_cons _ y), IH, !(filter_cons _ x), !(filter_cons _ y).
  destruct (decide (key x = k)) as [Hx|Hx], (decide (key y = k)) as [Hy|Hy];
    try done. congruence.
Qed.

(** X20.  The sort of the index is stable: the names with the same
    casefold, such as [A.pdf] and [a.pdf], are listed in the order in
    which [os.listdir] gave them. *)
Theorem index_keeps_order_of_equal_keys names k :
  filter (λ f, PyStr.casefold f = k) (GenerateIndex.listed names)
  = filter (λ f, PyStr.casefold f = k)
      (filter (λ f, PyStr.endswith (PyStr.lower f) (text ".html") = false)
         names).
Proof.
  unfold GenerateIndex.listed, GenerateIndex.sorted.
  induction (filter _ names) as [|x l IH]; [done|].
  cbn [foldr]. rewrite insert_by_same_key, !(filter_cons _ x), IH. done.
Qed.

End index_run.

(** ** Folders and the last line of [main] *)

Lemma folders_ready_mono made made' code :
  made ⊆ made' → folders_ready made code → folders_ready made' code.
Proof.
  revert made made'. induction code as [|i code IH]; intros made made' Hsub;
    [done|].
  destruct i; simpl; try (by apply IH).
  - apply IH. by apply union_mono_l.
  - intros (? & ? & ? & ?).
    split; [by apply Hsub|]. split; [by apply Hsub|]. split; [done|].
    by eapply IH.
Qed.

Lemma folders_ready_awaits made n :
  folders_ready made (replicate n Yoink.INextCompleted ++ Yoink.last_words).
Proof. induction n as [|n IH]; [done|]. exact IH. Qed.

Lemma folders_ready_script config made tail :
  (∀ made', folders_ready made' tail) →
  folders_ready made (Yoink.submit_script config ++ tail).
Proof.
  intros Htail. unfold Yoink.submit_script. revert made.
  induction config as [|[category d] config IH]; intros made; [apply Htail|].
  simpl. rewrite <- app_assoc.
  set (made' := {[OsPath.join (Yoink.folder d) (text "archive")]}
                ∪ ({[Yoink.folder d]} ∪ made)).
  assert (Yoink.folder d ∈ made') as Hfolder
    by (apply elem_of_union_r, elem_of_union_l; by apply elem_of_singleton).
  assert (OsPath.join (Yoink.folder d) (text "archive") ∈ made') as Harchive
    by (apply elem_of_union_l; by apply elem_of_singleton).
  clearbody made'.
  induction (Yoink.items d) as [|item l IHl]; simpl; [apply IH|].
  by repeat split.
Qed.

Lemma has_folders_mono made made' f :
  made ⊆ made' → has_folders made f → has_folders made' f.
Proof.
  intros Hsub (? & ? & ?). split; [by apply Hsub|]. split; [by apply Hsub|done].
Qed.

Lemma dirs_step_op w {X} (o : op X) st : dirs st ⊆ dirs (step_op w o st).2.
Proof.
  destruct o; simpl; try reflexivity.
  - by destruct (files st !! src).
  - by destruct (files st !! path).
  - destruct (bool_decide (path = [])); [done|].
    destruct (bool_decide (is_Some (files st !! path))); [done|].
    apply union_subseteq_r.
Qed.

(** [os.makedirs] that returns has made the directory; when it raises,
    nothing is changed. *)
Lemma makedirs_made w path st :
  (step_op w (MakeDirs path) st).1 = Returned tt →
  (step_op w (MakeDirs path) st).2 = log (MadeDir path) st.
Proof.
  simpl. destruct (bool_decide (path = [])); [done|].
  by destruct (bool_decide (is_Some (files st !! path))).
Qed.

Lemma makedirs_raised w path st e :
  (step_op w (MakeDirs path) st).1 = Raised e →
  (step_op w (MakeDirs path) st).2 = st.
Proof.
  simpl. destruct (bool_decide (path = [])); [done|].
  by destruct (bool_decide (is_Some (files st !! path))).
Qed.

Section folders.
Context `{!Hashlib, !PyPDF2}.
Variable w : world.
Variable max_workers : nat.

Lemma folders_step p p' :
  Yoink.pool_step w max_workers p p' →
  folders_ready (dirs (Yoink.shared p)) (Yoink.pc p)
  ∧ Forall (has_folders (dirs (Yoink.shared p))) (Yoink.futures p) →
  folders_ready (dirs (Yoink.shared p')) (Yoink.pc p')
  ∧ Forall (has_folders (dirs (Yoink.shared p'))) (Yoink.futures p').
Proof.
  intros Hstep.
  destruct Hstep as [path rest st fs y Hmade|path rest st fs y e Hraised
                    |t rest st fs y|rest st fs y Hy
                    |rest st fs y Hdone|line rest st fs y
                    |st code fs1 t fs2 y r Hq Hfree
                    |st code fs1 t X o k fs2 y r
                    |st code fs1 t a fs2 y r|st code fs1 t e fs2 y r];
    cbn [Yoink.shared Yoink.pc Yoink.futures]; intros [Hready Hall].
  - rewrite (makedirs_made _ _ _ Hmade). split; [exact Hready|].
    eapply Forall_impl; [exact Hall|]. intros f. apply has_folders_mono.
    apply union_subseteq_r.
  - by rewrite (makedirs_raised _ _ _ _ Hraised).
  - destruct Hready as (? & ? & ? & ?). split; [done|].
    apply Forall_app. split; [done|]. by repeat constructor.
  - done.
  - done.
  - done.
  - split; [done|]. rewrite Forall_app, Forall_cons in Hall |- *. done.
  - pose proof (dirs_step_op w o st) as Hsub. split.
    + by eapply folders_ready_mono.
    + eapply Forall_impl.
      * rewrite Forall_app, Forall_cons in Hall |- *. exact Hall.
      * intros f. by apply has_folders_mono.
  - split; [done|]. rewrite Forall_app, Forall_cons in Hall |- *. done.
  - split; [done|]. rewrite Forall_app, Forall_cons in Hall |- *. done.
Qed.

(** X21.  In a run of [main], a task is submitted only after the folder
    of its category and the archive folder in it have been made, and they
    stay: in every state the run reaches, every future has both, whether it
    is queued, running or done, and its archive folder is the [archive]
    entry of its folder. *)
Theorem folders_are_made_before_tasks config st p :
  rtc (Yoink.pool_step w max_workers) (Yoink.main_start config st) p →
  Forall (λ f,
    Yoink.t_folder (Yoink.f_task f) ∈ dirs (Yoink.shared p)
    ∧ Yoink.t_archive_folder (Yoink.f_task f) ∈ dirs (Yoink.shared p)
    ∧ Yoink.t_archive_folder (Yoink.f_task f)
      = OsPath.join (Yoink.t_folder (Yoink.f_task f)) (text "archive"))
    (Yoink.futures p).
Proof.
  intros Hrun.
  enough (folders_ready (dirs (Yoink.shared p)) (Yoink.pc p)
          ∧ Forall (has_folders (dirs (Yoink.shared p))) (Yoink.futures p))
    as [_ Hall] by exact Hall.
  revert p Hrun. apply rtc_ind_r.
  - split; [|constructor]. simpl. unfold Yoink.main_script.
    apply folders_ready_script. intros made'. apply folders_ready_awaits.
  - intros q p _ Hstep IH. by eapply folders_step.
Qed.

End folders.

Section last_line.
Context `{!Hashlib, !PyPDF2}.
Variable w : world.
Variable max_workers : nat.

(** The main thread goes down its script. *)
Lemma pc_suffix config st p :
  rtc (Yoink.pool_step w max_workers) (Yoink.main_start config st) p →
  Yoink.pc p `suffix_of` Yoink.main_script config.
Proof.
  revert p. apply rtc_ind_r; [done|].
  intros q p _ Hstep IH.
  apply (pool_step_cases w max_workers) in Hstep
    as [(i & Hpc & _)|[(Hpc & _)|(Hpc & _)]].
  - rewrite Hpc in IH. by eapply suffix_cons_l.
  - by rewrite Hpc.
  - by rewrite Hpc.
Qed.

(** A state in which the script has ended: every future is done. *)
Lemma pool_inv_ended config p :
  pool_inv config p → Yoink.pc p = [] →
  Forall (λ f, Yoink.is_done f = true) (Yoink.futures p).
Proof.
  destruct 1 as [seen rest st fs r Hscript Htasks Hraised
                |j st fs Hj Htasks
                |code st fs y Hno Htasks Hdone Hcode]; simpl; [| |done].
  - intros Hnil. apply (f_equal length) in Hnil.
    rewrite !length_app in Hnil. simpl in Hnil. lia.
  - intros Hnil. apply (f_equal length) in Hnil.
    rewrite !length_app in Hnil. simpl in Hnil. lia.
Qed.

Lemma pool_step_main p p' i :
  Yoink.pool_step w max_workers p p' →
  Yoink.pc p = i :: Yoink.pc p' →
  match i with
  | Yoink.ISay line =>
      stdout (Yoink.shared p') = stdout (Yoink.shared p) ++ [line]
  | _ => True
  end.
Proof.
  intros Hstep.
  destruct Hstep as [path rest st fs y Hmade|path rest st fs y e Hraised
                    |t rest st fs y|rest st fs y Hy
                    |rest st fs y Hdone|line rest st fs y
                    |st code fs1 t fs2 y r Hq Hfree
                    |st code fs1 t X o k fs2 y r
                    |st code fs1 t a fs2 y r|st code fs1 t e fs2 y r];
    cbn [Yoink.shared Yoink.pc]; intros Hpc;
    try (injection Hpc as <-; done);
    apply (f_equal length) in Hpc; simpl in Hpc; lia.
Qed.

(** X22.  When the main thread has reached the end of its script, the
    line that all downloads are processed is the last line printed, after
    every line of every task, and the run is over: every future is done and
    no thread can take a step. *)
Theorem main_ends_with_the_last_line config st p :
  rtc (Yoink.pool_step w max_workers) (Yoink.main_start config st) p →
  Yoink.pc p = [] →
  last (stdout (Yoink.shared p))
  = Some (Yoink.check_mark ++ text " All downloads processed.")
  ∧ Forall (λ f, Yoink.is_done f = true) (Yoink.futures p)
  ∧ ¬ red (Yoink.pool_step w max_workers) p.
Proof.
  intros Hrun Hend.
  pose proof (pool_inv_reachable w max_workers config st p Hrun) as Hinv.
  pose proof (pool_inv_ended config p Hinv Hend) as Hdone.
  split; [|split; [done|]].
  - apply rtc_inv_r in Hrun as [<-|(q & Hrun & Hstep)].
    { apply (f_equal length) in Hend.
      cbn [Yoink.pc Yoink.main_start] in Hend.
      unfold Yoink.main_script in Hend.
      rewrite !length_app in Hend. simpl in Hend. lia. }
    pose proof (pool_inv_reachable w max_workers config st q Hrun) as Hq.
    pose proof (pc_suffix config st q Hrun) as Hsuffix.
    pose proof Hstep as Hcases.
    apply (pool_step_cases w max_workers) in Hcases
      as [(i & Hpc & _)|[(Hpc & _ & _ & Hfs)
                        |(Hpc & _ & _ & _ & path & rest & Hat & _)]].
    + rewrite Hend in Hpc.
      assert (i = Yoink.ISay
                    (Yoink.check_mark ++ text " All downloads processed."))
        as ->.
      { destruct Hsuffix as [k Hk]. rewrite Hpc in Hk.
        unfold Yoink.main_script, Yoink.last_words in Hk.
        rewrite !app_assoc in Hk.
        change [Yoink.IShutdown; Yoink.ISay ?line]
          with ([Yoink.IShutdown] ++ [Yoink.ISay line]) in Hk.
        rewrite !app_assoc in Hk.
        apply app_inj_2 in Hk as [_ Hk]; [|done]. by injection Hk. }
      rewrite <- Hend in Hpc.
      pose proof (pool_step_main q p _ Hstep Hpc) as Hsaid. simpl in Hsaid.
      rewrite Hsaid. apply last_snoc.
    + rewrite Hend in Hpc. symmetry in Hpc.
      pose proof (pool_inv_ended config q Hq Hpc) as Hdoneq.
      by apply futures_step_not_done in Hfs.
    + rewrite Hend in Hpc. by rewrite <- Hpc in Hat.
  - intros [p' Hstep].
    apply (pool_step_cases w max_workers) in Hstep
      as [(i & Hpc & _)|[(_ & _ & _ & Hfs)
                        |(_ & _ & _ & _ & path & rest & Hat & _)]].
    + by rewrite Hend in Hpc.
    + by apply futures_step_not_done in Hfs.
    + by rewrite Hend in Hat.
Qed.

End last_line.

(** ** The queue and the loop of [as_completed] *)

Lemma queue_last_all fs :
  forallb Yoink.is_queued fs = true → queue_last fs = true.
Proof.
  induction fs as [|f fs IH]; simpl; [done|].
  intros [Hf Hfs]%andb_true_iff. by rewrite Hf.
Qed.

Lemma queue_last_submit fs t :
  queue_last fs = true →
  queue_last (fs ++ [{| Yoink.f_task := t; Yoink.f_state := Yoink.Queued |}])
  = true.
Proof.
  induction fs as [|f fs IH]; simpl; [done|].
  destruct (Yoink.is_queued f); [|done].
  intros Hfs. rewrite forallb_app, Hfs. done.
Qed.

Lemma queue_last_start fs1 t s fs2 :
  forallb (λ f, negb (Yoink.is_queued f)) fs1 = true →
  queue_last (fs1 ++ {| Yoink.f_task := t; Yoink.f_state := Yoink.Queued |}
                :: fs2) = true →
  Yoink.is_queued {| Yoink.f_task := t; Yoink.f_state := s |} = false →
  queue_last (fs1 ++ {| Yoink.f_task := t; Yoink.f_state := s |} :: fs2)
  = true.
Proof.
  intros Hfs1 Hold Hs. induction fs1 as [|f fs1 IH]; simpl in *.
  - rewrite Hs. by apply queue_last_all.
  - apply andb_true_iff in Hfs1 as [Hf Hfs1].
    destruct (Yoink.is_queued f); [done|]. by apply IH.
Qed.

Lemma queue_last_update fs1 x x' fs2 :
  queue_last (fs1 ++ x :: fs2) = true →
  Yoink.is_queued x = false → Yoink.is_queued x' = false →
  queue_last (fs1 ++ x' :: fs2) = true.
Proof.
  intros Hold Hx Hx'. induction fs1 as [|f fs1 IH]; simpl in *.
  - by rewrite Hx in Hold; rewrite Hx'.
  - destruct (Yoink.is_queued f); [|by apply IH].
    rewrite forallb_app in Hold. simpl in Hold. rewrite Hx in Hold.
    by rewrite andb_false_r in Hold.
Qed.

Lemma queue_last_spec fs :
  queue_last fs = true →
  ∃ started waiting,
    fs = started ++ waiting
    ∧ Forall (λ f, Yoink.is_queued f = false) started
    ∧ Forall (λ f, Yoink.is_queued f = true) waiting.
Proof.
  induction fs as [|f fs IH]; simpl.
  - intros _. exists [], []. by repeat split; constructor.
  - destruct (Yoink.is_queued f) eqn:Hf.
    + intros Hfs. exists [], (f :: fs). split; [done|]. split; [constructor|].
      constructor; [done|]. apply Forall_forall. intros g Hg.
      rewrite forallb_forall in Hfs. apply Hfs. by apply list_elem_of_In.
    + intros Hfs. destruct (IH Hfs) as (started & waiting & -> & Hs & Hw).
      exists (f :: started), waiting. split; [done|]. split; [|done].
      by constructor.
Qed.

Lemma awaits_app a b : awaits (a ++ b) = awaits a + awaits b.
Proof. unfold awaits. by rewrite List.filter_app, length_app. Qed.

Lemma awaits_replicate n : awaits (replicate n Yoink.INextCompleted) = n.
Proof. induction n as [|n IH]; [done|]. unfold awaits in *. simpl. by rewrite IH. Qed.

Lemma awaits_submit_script config : awaits (Yoink.submit_script config) = 0.
Proof.
  unfold Yoink.submit_script.
  induction config as [|[category d] config IH]; [done|].
  cbn [flat_map]. rewrite awaits_app, IH, Nat.add_0_r.
  unfold Yoink.category_script. rewrite awaits_app.
  change (awaits [Yoink.IMakeDirs _; Yoink.IMakeDirs _]) with 0.
  cbn [fst snd].
  induction (Yoink.items d) as [|item l IHl]; [reflexivity|]. exact IHl.
Qed.

Lemma futures_step_done fs fs' :
  futures_step fs fs' →
  Yoink.count Yoink.is_done fs ≤ Yoink.count Yoink.is_done fs'.
Proof.
  destruct 1 as [fs1 t s s' fs2 Hs].
  rewrite !count_middle.
  destruct Hs; unfold Yoink.is_done; simpl; lia.
Qed.

Section queue.
Context `{!Hashlib, !PyPDF2}.
Variable w : world.
Variable max_workers : nat.

Lemma queue_step p p' :
  Yoink.pool_step w max_workers p p' →
  queue_last (Yoink.futures p) = true →
  queue_last (Yoink.futures p') = true.
Proof.
  intros Hstep.
  destruct Hstep as [path rest st fs y Hmade|path rest st fs y e Hraised
                    |t rest st fs y|rest st fs y Hy
                    |rest st fs y Hdone|line rest st fs y
                    |st code fs1 t fs2 y r Hq Hfree
                    |st code fs1 t X o k fs2 y r
                    |st code fs1 t a fs2 y r|st code fs1 t e fs2 y r];
    cbn [Yoink.futures]; try done.
  - apply queue_last_submit.
  - intros Hold. by apply queue_last_start.
  - intros Hold. by eapply queue_last_update.
  - intros Hold. by eapply queue_last_update.
  - intros Hold. by eapply queue_last_update.
Qed.

(** X23.  Tasks are started in the order in which they were submitted: in
    every state a run of [main] reaches, the futures that still wait in
    the queue are the last ones of the list, after every future that is
    running or done. *)
Theorem tasks_start_in_order config st p :
  rtc (Yoink.pool_step w max_workers) (Yoink.main_start config st) p →
  ∃ started waiting,
    Yoink.futures p = started ++ waiting
    ∧ Forall (λ f, Yoink.is_queued f = false) started
    ∧ Forall (λ f, Yoink.is_queued f = true) waiting.
Proof.
  intros Hrun. apply queue_last_spec. revert p Hrun.
  apply rtc_ind_r; [done|].
  intros q p _ Hstep IH. by eapply queue_step.
Qed.

(** X24.  The loop over [as_completed] takes one turn for each task: in
    every state a run of [main] reaches, the turns taken are at most the
    futures that are done, and with the turns still in the script they are
    as many as the (collection, item) pairs; at the end of the script each
    pair has had its turn. *)
Theorem as_completed_yields_each_once config st p :
  rtc (Yoink.pool_step w max_workers) (Yoink.main_start config st) p →
  Yoink.yielded p ≤ Yoink.count Yoink.is_done (Yoink.futures p)
  ∧ Yoink.yielded p + awaits (Yoink.pc p) = length (pairs config)
  ∧ (Yoink.pc p = [] → Yoink.yielded p = length (pairs config)).
Proof.
  intros Hrun.
  enough (Yoink.yielded p ≤ Yoink.count Yoink.is_done (Yoink.futures p)
          ∧ Yoink.yielded p + awaits (Yoink.pc p) = length (pairs config))
    as [Hle Hsum].
  { split; [done|]. split; [done|]. intros Hend.
    rewrite Hend in Hsum. unfold awaits in Hsum. simpl in Hsum. lia. }
  revert p Hrun. apply rtc_ind_r.
  - split; [simpl; lia|]. cbn [Yoink.yielded Yoink.pc Yoink.main_start].
    unfold Yoink.main_script.
    rewrite !awaits_app, awaits_submit_script, awaits_replicate.
    rewrite <- submitted_pairs, length_map. unfold awaits. simpl. lia.
  - intros q p _ Hstep [Hle Hsum].
    apply (pool_step_cases w max_workers) in Hstep
      as [(i & Hpc & _ & _ & Hi)|[(Hpc & Hy & _ & Hfs)
                                 |(Hpc & Hy & Hfs & _)]].
    + rewrite Hpc in Hsum. unfold awaits in Hsum |- *.
      destruct i; simpl in Hsum.
      * destruct Hi as [-> ->]. split; [done|lia].
      * destruct Hi as [-> ->]. split; [|lia].
        unfold Yoink.count in *. rewrite List.filter_app, length_app. lia.
      * destruct Hi as (-> & -> & Hlt). split; lia.
      * destruct Hi as (-> & -> & _). split; [done|lia].
      * destruct Hi as [-> ->]. split; [done|lia].
    + rewrite Hpc, Hy. split; [|done].
      apply futures_step_done in Hfs. lia.
    + by rewrite Hpc, Hy, Hfs.
Qed.

End queue.

(** ** The further properties at sample inputs *)
Section further_samples.
#[local] Existing Instance Sample.hashlib.
#[local] Existing Instance Sample.pypdf2.
#[local] Existing Instance Sample.casefold.

Example read_sample_config :
  Yoink.read_config Sample.raw_config = Some Sample.config.
Proof. reflexivity. Qed.

Lemma validate_config_reports_first_failure_witness :
  Yoink.validate_config Sample.raw_config_without_folder
  = Yoink.ValueError (Yoink.InvalidFolder (YStr (text "drafts"))).
Proof.
  apply (validate_config_reports_first_failure _ (YInt 1)
           [(YStr (text "parts"), Sample.parts_yaml)]
           (YStr (text "drafts")) (YDict [(YStr (text "items"), YList [])])
           [(YStr (text "notes"), YNone)]).
  - reflexivity.
  - reflexivity.
  - reflexivity.
  - repeat constructor.
  - reflexivity.
Defined.

Lemma validated_config_is_read_witness :
  ∃ config,
    Yoink.read_config Sample.raw_config = Some config
    ∧ Forall (λ t, Yoink.t_filename_mode t = text "item"
                   ∨ Yoink.t_filename_mode t = text "title")
        (Yoink.submitted (Yoink.main_script config)).
Proof.
  destruct (validated_config_is_read
              [(YStr (text "version"), YInt 1);
               (YStr (text "downloads"),
                YDict [(YStr (text "parts"), Sample.parts_yaml);
                       (YStr (text "notes"), Sample.notes_yaml)])]
              [(YStr (text "parts"), Sample.parts_yaml);
               (YStr (text "notes"), Sample.notes_yaml)])
    as (config & Hread & _ & Hmodes).
  - vm_compute. reflexivity.
  - reflexivity.
  - repeat constructor.
  - exists config. split; [exact Hread|exact Hmodes].
Defined.

Lemma read_chunks_cover_the_file_witness :
  concat (Yoink.read_chunks 4096 (Sample.data "0123456789"))
  = Sample.data "0123456789".
Proof.
  apply (read_chunks_cover_the_file 4096 (Sample.data "0123456789")). lia.
Defined.

Lemma file_checksum_of_whole_file_witness :
  run Sample.offline (Yoink.file_checksum (text "/tmp/x/none.pdf"))
    (Sample.on_disk [(text "/tmp/x/ABC123.pdf", Sample.data "old bytes")])
  = (Raised (FileNotFoundError (text "/tmp/x/none.pdf")),
     Sample.on_disk [(text "/tmp/x/ABC123.pdf", Sample.data "old bytes")]).
Proof.
  apply (file_checksum_of_whole_file Sample.offline (text "/tmp/x/none.pdf")
           (Sample.on_disk
              [(text "/tmp/x/ABC123.pdf", Sample.data "old bytes")])).
  - intros h a b. simpl. by rewrite <- app_assoc.
  - intros h. simpl. apply app_nil_r.
  - vm_compute. reflexivity.
Defined.



Lemma rerun_by_identifier_is_noop_witness :
  ∃ st2 st3,
    run (Sample.server Sample.pdf_url
           (Sample.ok Sample.pdf_url [Sample.data "new "; Sample.data "bytes"]))
      (Yoink.process_item
         (text "parts") (text "ABC123") Sample.search
         (text "/tmp/x") (text "/tmp/x/archive") (text "item"))
      (Sample.on_disk [(text "/tmp/x/ABC123.pdf", Sample.data "old bytes")])
    = (Returned tt, st2)
    ∧ run (Sample.server Sample.pdf_url
             (Sample.ok Sample.pdf_url
                [Sample.data "new "; Sample.data "bytes"]))
        (Yoink.process_item
           (text "parts") (text "ABC123") Sample.search
           (text "/tmp/x") (text "/tmp/x/archive") (text "item"))
        st2
      = (Returned tt, st3)
    ∧ files st3 = files st2.
Proof.
  pose (w := Sample.server Sample.pdf_url
         (Sample.ok Sample.pdf_url [Sample.data "new "; Sample.data "bytes"])).
  pose (st := Sample.on_disk
         [(text "/tmp/x/ABC123.pdf", Sample.data "old bytes")]).
  destruct (rerun_by_identifier_is_noop
    w (text "parts") (text "ABC123") Sample.search (text "/tmp/x")
    (text "item") st (text "ABC123.pdf")
    (run w (Yoink.fetch_and_name (text "parts")
              (text "ABC123") Sample.search (text "/tmp/x") (text "item"))
       st).2)
    as (_ & _ & st2 & st3 & Hrun & Hrun' & _ & Hfiles & _).
  - not_in_text.
  - discriminate.
  - reflexivity.
  - vm_compute. reflexivity.
  - exists st2, st3. split; [exact Hrun|]. split; [exact Hrun'|exact Hfiles].
Defined.


Lemma process_item_touches_only_its_paths_witness :
  files
    (run (Sample.server Sample.pdf_url
            (Sample.ok Sample.pdf_url [Sample.data "new bytes"]))
       (Yoink.process_item
          (text "parts") (text "ABC123") Sample.search
          (text "/tmp/x") (text "/tmp/x/archive") (text "item"))
       (Sample.on_disk
          [(text "/tmp/x/ABC123.pdf", Sample.data "old bytes");
           (text "/tmp/x/LM358.pdf", Sample.data "other")])).2
  !! text "/tmp/x/LM358.pdf"
  = Some (Sample.data "other").
Proof.
  rewrite (process_item_touches_only_its_paths
    (Sample.server Sample.pdf_url
       (Sample.ok Sample.pdf_url [Sample.data "new bytes"]))
    (text "parts") (text "ABC123") Sample.search
    (text "/tmp/x") (text "/tmp/x/archive") (text "item")
    (Sample.on_disk
       [(text "/tmp/x/ABC123.pdf", Sample.data "old bytes");
        (text "/tmp/x/LM358.pdf", Sample.data "other")])
    (text "/tmp/x/LM358.pdf")).
  - vm_compute. reflexivity.
  - discriminate.
  - intros final_name st1 Hfetch. vm_compute in Hfetch.
    injection Hfetch as <- <-. split; discriminate.
Defined.


Lemma process_item_reports_once_witness :
  ∃ more,
    stdout
      (run Sample.offline
         (Yoink.process_item
            (text "parts") (text "ABC123") Sample.search
            (text "/tmp/x") (text "/tmp/x/archive") (text "item"))
         (Sample.on_disk [])).2
    = [text "[parts] [ABC123] Checking..."] ++ more.
Proof.
  destruct (process_item_reports_once
    Sample.offline (text "parts") (text "ABC123") Sample.search
    (text "/tmp/x") (text "item") (Sample.on_disk []))
    as (more & Hsaid & _).
  - not_in_text.
  - exists more. exact Hsaid.
Defined.

Lemma quote_plus_keeps_items_apart_witness :
  Sample.search ++ UrlLib.quote_plus (text "LM 358")
  ≠ Sample.search ++ UrlLib.quote_plus (text "LM+358").
Proof.
  apply (quote_plus_keeps_items_apart Sample.search
           (text "LM 358") (text "LM+358")).
  discriminate.
Defined.

Lemma archived_names_differ_by_second_witness :
  Yoink.archived_name_of (text "/tmp/x/archive") (text "ABC123.pdf")
    (strftime Sample.noon)
  ≠ Yoink.archived_name_of (text "/tmp/x/archive") (text "ABC123.pdf")
      (strftime Sample.a_second_later).
Proof.
  apply (archived_names_differ_by_second (text "/tmp/x/archive")
           (text "ABC123.pdf") Sample.noon Sample.a_second_later).
  - unfold on_calendar. simpl. lia.
  - unfold on_calendar. simpl. lia.
  - discriminate.
Defined.


Lemma sample_run_to_submitted :
  rtc (Yoink.pool_step Sample.offline 4)
    (Yoink.main_start Sample.one_item (Sample.on_disk []))
    Sample.submitted_pool.
Proof.
  eapply rtc_l; [by apply Yoink.step_makedirs|].
  eapply rtc_l; [by apply Yoink.step_makedirs|].
  eapply rtc_l; [apply Yoink.step_submit|].
  apply rtc_refl.
Qed.

Lemma sample_run_to_end :
  rtc (Yoink.pool_step Sample.offline 4)
    Sample.submitted_pool Sample.ended_pool.
Proof.
  unfold Sample.submitted_pool.
  eapply rtc_l.
  { apply (Yoink.step_start _ _ _ _ [] Sample.the_task []); [done|vm_compute; lia]. }
  eapply rtc_l.
  { apply (Yoink.step_work _ _ _ _ [] Sample.the_task). }
  eapply rtc_l.
  { apply (Yoink.step_work _ _ _ _ [] Sample.the_task). }
  eapply rtc_l.
  { apply (Yoink.step_raise _ _ _ _ [] Sample.the_task). }
  eapply rtc_l.
  { apply Yoink.step_next_completed. vm_compute. lia. }
  eapply rtc_l.
  { apply Yoink.step_shutdown. reflexivity. }
  eapply rtc_l.
  { apply Yoink.step_say. }
  apply rtc_refl.
Qed.

Lemma folders_are_made_before_tasks_witness :
  Forall (λ f,
    Yoink.t_folder (Yoink.f_task f) ∈ dirs (Yoink.shared Sample.submitted_pool)
    ∧ Yoink.t_archive_folder (Yoink.f_task f)
      ∈ dirs (Yoink.shared Sample.submitted_pool)
    ∧ Yoink.t_archive_folder (Yoink.f_task f)
      = OsPath.join (Yoink.t_folder (Yoink.f_task f)) (text "archive"))
    (Yoink.futures Sample.submitted_pool).
Proof.
  apply (folders_are_made_before_tasks Sample.offline 4 Sample.one_item
           (Sample.on_disk []) Sample.submitted_pool).
  exact sample_run_to_submitted.
Defined.

Lemma main_ends_with_the_last_line_witness :
  last (stdout (Yoink.shared Sample.ended_pool))
  = Some (Yoink.check_mark ++ text " All downloads processed.")
  ∧ Forall (λ f, Yoink.is_done f = true) (Yoink.futures Sample.ended_pool)
  ∧ ¬ red (Yoink.pool_step Sample.offline 4) Sample.ended_pool.
Proof.
  apply (main_ends_with_the_last_line Sample.offline 4 Sample.one_item
           (Sample.on_disk []) Sample.ended_pool).
  - etrans; [exact sample_run_to_submitted|exact sample_run_to_end].
  - reflexivity.
Defined.

Lemma index_of_no_directory_writes_nothing_witness :
  ∃ d',
    GenerateIndex.run (GenerateIndex.generate_index (text "nowhere"))
      Sample.shelf
    = (Returned tt, d')
    ∧ GenerateIndex.texts d' = GenerateIndex.texts Sample.shelf.
Proof.
  destruct (index_of_no_directory_writes_nothing (text "nowhere") Sample.shelf)
    as (d' & Hrun & Htexts & _).
  - vm_compute. reflexivity.
  - exists d'. split; [exact Hrun|exact Htexts].
Defined.

Lemma index_ignores_html_entries_witness :
  GenerateIndex.texts
    (GenerateIndex.run (GenerateIndex.generate_index (text "pdfs"))
       Sample.shelf).2
  !! text "/srv/pdfs/index.html"
  = GenerateIndex.texts
      (GenerateIndex.run (GenerateIndex.generate_index (text "pdfs"))
         Sample.shelf_before).2
    !! text "/srv/pdfs/index.html".
Proof.
  destruct (index_ignores_html_entries (text "pdfs") Sample.shelf_before
              Sample.shelf [text "b.pdf"] (text "index.html")
              [text "archive"; text "A.pdf"; text "ABC_new.pdf";
               text "Notes.HTML"])
    as (_ & Hsame & _).
  - vm_compute. reflexivity.
  - reflexivity.
  - vm_compute. reflexivity.
  - vm_compute. reflexivity.
  - exact Hsame.
Defined.

Lemma index_order_independent_witness :
  GenerateIndex.listed [text "b.pdf"; text "archive"; text "A.pdf"]
  = GenerateIndex.listed [text "A.pdf"; text "b.pdf"; text "archive"].
Proof.
  apply (index_order_independent
           [text "b.pdf"; text "archive"; text "A.pdf"]
           [text "A.pdf"; text "b.pdf"; text "archive"]).
  - symmetry. apply (Permutation_cons_append [text "b.pdf"; text "archive"]).
  - apply (bool_decide_unpack _). vm_compute. reflexivity.
Defined.

Lemma tasks_start_in_order_witness :
  ∃ started waiting,
    Yoink.futures Sample.submitted_pool = started ++ waiting
    ∧ Forall (λ f, Yoink.is_queued f = false) started
    ∧ Forall (λ f, Yoink.is_queued f = true) waiting.
Proof.
  apply (tasks_start_in_order Sample.offline 4 Sample.one_item
           (Sample.on_disk []) Sample.submitted_pool).
  exact sample_run_to_submitted.
Defined.

Lemma as_completed_yields_each_once_witness :
  Yoink.yielded Sample.ended_pool = length (pairs Sample.one_item).
Proof.
  destruct (as_completed_yields_each_once Sample.offline 4 Sample.one_item
              (Sample.on_disk []) Sample.ended_pool) as (_ & _ & Hend).
  - etrans; [exact sample_run_to_submitted|exact sample_run_to_end].
  - apply Hend. reflexivity.
Defined.

End further_samples.
